(** * Verification of the Google-Sheet booking importer
    (tools/import_bookings_from_gsheet.py)

    The development is a shallow embedding of the importer: the field
    normalizers, the sheet classifier and extractor, the reconciler over the
    three tables and the import loop of [main], followed by the theorems that
    relate them to the natural-language specification.

    Conventions of the embedding.
    - A Python [str] is a list of Unicode code points ([str := list N]);
      literals are written [u "..."] and decoded from UTF-8.
    - The character classes of Python ([str.isspace], [\s], [\d],
      [int], [str.lower]) follow CPython 3.11 (Unicode 14.0).
    - A regular expression is a term of [Re.re], run by a backtracking matcher
      with the leftmost, greedy semantics of Python's [re] module.
    - A Python [float] is a value of [Float.pyfloat]: an exact dyadic rational
      of binary64, an infinity or a NaN; conversions round to nearest, ties to
      even, as IEEE 754 and CPython's [float()] do.
    - A table is the list of its rows in rowid order; [SELECT ... LIMIT 1]
      returns the first row that satisfies the condition. *)

From Stdlib Require Import ZArith NArith List Bool Lia String Ascii.
From stdpp Require Import base option list gmap strings.
Import ListNotations.

Set Default Goal Selector "!".

(** ** Characters and strings *)

Module Str.

Local Open Scope N_scope.

Definition char := N.
Definition str := list char.

(** UTF-8 decoding of a source literal. *)
Fixpoint utf8 (bs : list N) : str :=
  match bs with
  | [] => []
  | b :: r =>
      if b <? 128 then b :: utf8 r
      else if b <? 224 then
        match r with
        | b1 :: r1 => ((b - 192) * 64 + (b1 - 128)) :: utf8 r1
        | _ => []
        end
      else if b <? 240 then
        match r with
        | b1 :: b2 :: r2 =>
            ((b - 224) * 4096 + (b1 - 128) * 64 + (b2 - 128)) :: utf8 r2
        | _ => []
        end
      else
        match r with
        | b1 :: b2 :: b3 :: r3 =>
            ((b - 240) * 262144 + (b1 - 128) * 4096 + (b2 - 128) * 64 + (b3 - 128))
              :: utf8 r3
        | _ => []
        end
  end.

Definition u (s : string) : str :=
  utf8 (List.map N_of_ascii (list_ascii_of_string s)).

Definition str_eqb (a b : str) : bool := bool_decide (a = b).

(** [str.isspace]: the characters removed by [str.strip()] and matched by [\s]. *)
Definition spaces : list char :=
  [9; 10; 11; 12; 13; 28; 29; 30; 31; 32; 133; 160; 5760;
   8192; 8193; 8194; 8195; 8196; 8197; 8198; 8199; 8200; 8201; 8202;
   8232; 8233; 8239; 8287; 12288].

Definition is_space (c : char) : bool := existsb (N.eqb c) spaces.

(** Unicode decimal digits (category Nd): each block holds the ten digits
    0..9 in order, starting at one of these code points. *)
Definition digit_blocks : list char :=
  [0x30; 0x660; 0x6f0; 0x7c0; 0x966; 0x9e6; 0xa66; 0xae6; 0xb66; 0xbe6;
   0xc66; 0xce6; 0xd66; 0xde6; 0xe50; 0xed0; 0xf20; 0x1040; 0x1090; 0x17e0;
   0x1810; 0x1946; 0x19d0; 0x1a80; 0x1a90; 0x1b50; 0x1bb0; 0x1c40; 0x1c50;
   0xa620; 0xa8d0; 0xa900; 0xa9d0; 0xa9f0; 0xaa50; 0xabf0; 0xff10; 0x104a0;
   0x10d30; 0x11066; 0x110f0; 0x11136; 0x111d0; 0x112f0; 0x11450; 0x114d0;
   0x11650; 0x116c0; 0x11730; 0x118e0; 0x11950; 0x11c50; 0x11d50; 0x11da0;
   0x16a60; 0x16ac0; 0x16b50; 0x1d7ce; 0x1d7d8; 0x1d7e2; 0x1d7ec; 0x1d7f6;
   0x1e140; 0x1e2f0; 0x1e950; 0x1fbf0].

Definition in_block (c b : char) : bool := (b <=? c) && (c <? b + 10).

(** [\d] of a [str] pattern, and the characters [int()] and [float()] read
    as digits. *)
Definition is_digit (c : char) : bool := existsb (in_block c) digit_blocks.

Definition digit_value (c : char) : N :=
  match List.find (in_block c) digit_blocks with
  | Some b => c - b
  | None => 0
  end.

(** [[0-9]] of a pattern: the ASCII digits only. *)
Definition is_ascii_digit (c : char) : bool := (48 <=? c) && (c <=? 57).

(** [int(s)] on a string of decimal digits (the only strings the program
    passes to [int] are groups matched by [\d]). *)
Definition int_of_digits (s : str) : Z :=
  fold_left (fun acc c => (acc * 10 + Z.of_N (digit_value c))%Z) s 0%Z.

(** Decimal rendering of a natural number, without leading zeros. *)
Fixpoint dec_fuel (fuel : nat) (n : N) (acc : str) : str :=
  match fuel with
  | O => acc
  | S f =>
      let acc' := (48 + n mod 10) :: acc in
      if n / 10 =? 0 then acc' else dec_fuel f (n / 10) acc'
  end.

Definition dec (n : N) : str := dec_fuel (S (N.to_nat (N.log2 n))) n [].

(** [format(z, "0{w}d")]: sign-aware zero padding to width [w]. *)
Definition fmt_d (w : nat) (z : Z) : str :=
  let ds := dec (Z.to_N (Z.abs z)) in
  if (z <? 0)%Z
  then 45 :: List.repeat 48 (w - 1 - length ds)%nat ++ ds
  else List.repeat 48 (w - length ds)%nat ++ ds.

(** [str.lstrip()], [str.rstrip()], [str.strip()]. *)
Fixpoint lstrip (s : str) : str :=
  match s with
  | c :: r => if is_space c then lstrip r else s
  | [] => []
  end.

Definition rstrip (s : str) : str := rev (lstrip (rev s)).

Definition strip (s : str) : str := rstrip (lstrip s).

(** [s.lstrip(chars)] for a one-character set. *)
Fixpoint lstrip_char (x : char) (s : str) : str :=
  match s with
  | c :: r => if c =? x then lstrip_char x r else s
  | [] => []
  end.

(** [s.replace(old, new)] for a one-character [old]. *)
Definition replace_char (old : char) (new : str) (s : str) : str :=
  flat_map (fun c => if c =? old then new else [c]) s.

(** [s.startswith(p)], returning the rest on success. *)
Fixpoint strip_prefix (p s : str) : option str :=
  match p, s with
  | [], _ => Some s
  | x :: p', c :: s' => if x =? c then strip_prefix p' s' else None
  | _ :: _, [] => None
  end.

Definition startswith (p s : str) : bool :=
  match strip_prefix p s with Some _ => true | None => false end.

(** [sub in s]. *)
Fixpoint contains (sub s : str) : bool :=
  startswith sub s ||
  match s with
  | [] => false
  | _ :: r => contains sub r
  end.

(** [str.lower()].  Only three kinds of characters have a lower-case form
    that contains ASCII: the ASCII capitals, the Kelvin sign U+212A (to [k])
    and U+0130 (to [i] followed by U+0307).  Every other cased letter maps to
    non-ASCII text; the program only ever compares lower-cased text with
    ASCII words or matches it against ASCII patterns, so those letters are
    left in place here. *)
Definition lower_char (c : char) : str :=
  if (65 <=? c) && (c <=? 90) then [c + 32]
  else if c =? 0x212a then [107]
  else if c =? 0x130 then [105; 0x307]
  else [c].

Definition lower (s : str) : str := flat_map lower_char s.

(** [str(value or "").strip()] on a text value. *)
Definition normalize_text (s : str) : str := strip s.

(** [sep.join(parts)]. *)
Fixpoint join (sep : str) (parts : list str) : str :=
  match parts with
  | [] => []
  | [p] => p
  | p :: ps => p ++ sep ++ join sep ps
  end.

End Str.
Export Str.

(** ** Regular expressions

    The fragment of Python's [re] syntax the importer uses: character
    classes, literals, concatenation, greedy bounded or unbounded repetition
    of a class, a greedy optional group and capturing groups.  [run] is a
    backtracking matcher in continuation-passing style: alternatives are
    tried in Python's order (longest repetition first, the optional group
    before its absence) and the first success is returned. *)

Module Re.

Inductive re : Type :=
| Chr (p : char -> bool)
| Lit (s : str)
| Cat (r1 r2 : re)
| Rep (p : char -> bool) (lo : nat) (hi : option nat)
| Opt (r : re)
| Grp (r : re).

Section Matcher.
Context {A : Type}.

(** [p{lo,hi}] (with [hi = None] for an open bound), greedy. *)
Fixpoint rep (p : char -> bool) (lo : nat) (hi : option nat) (s : str)
    (k : str -> option A) : option A :=
  let stop := match lo with O => k s | S _ => None end in
  match hi, s with
  | Some O, _ => stop
  | _, c :: s' =>
      if p c then
        match rep p (Nat.pred lo) (Nat.pred <$> hi) s' k with
        | Some x => Some x
        | None => stop
        end
      else stop
  | _, [] => stop
  end.

Fixpoint run (r : re) (s : str) (caps : list str)
    (k : str -> list str -> option A) : option A :=
  match r with
  | Chr p =>
      match s with
      | c :: s' => if p c then k s' caps else None
      | [] => None
      end
  | Lit l =>
      match strip_prefix l s with
      | Some s' => k s' caps
      | None => None
      end
  | Cat r1 r2 => run r1 s caps (fun s1 c1 => run r2 s1 c1 k)
  | Rep p lo hi => rep p lo hi s (fun s' => k s' caps)
  | Opt r1 =>
      match run r1 s caps k with
      | Some x => Some x
      | None => k s caps
      end
  | Grp r1 =>
      run r1 s caps
        (fun s1 c1 => k s1 (c1 ++ [List.firstn (length s - length s1) s]))
  end.
End Matcher.

(** A match object: the text before the match, the matched text, the
    captured groups in order, and the text after the match. *)
Record rmatch : Type :=
  { m_pre : str; m_text : str; m_groups : list str; m_post : str }.

(** [m.group(i)] for [i >= 1]. *)
Definition group (m : rmatch) (i : nat) : str :=
  List.nth (i - 1) (m_groups m) [].

(** [re.match(r, s)]: a match starting at the first character. *)
Definition match_at (r : re) (pre s : str) : option rmatch :=
  run r s []
    (fun rest caps =>
       Some {| m_pre := pre;
               m_text := List.firstn (length s - length rest) s;
               m_groups := caps;
               m_post := rest |}).

(** [re.search(r, s)]: the leftmost match. *)
Fixpoint search_from (r : re) (pre_rev s : str) : option rmatch :=
  match match_at r (rev pre_rev) s with
  | Some m => Some m
  | None =>
      match s with
      | [] => None
      | c :: s' => search_from r (c :: pre_rev) s'
      end
  end.

Definition search (r : re) (s : str) : option rmatch := search_from r [] s.

(** [re.fullmatch(r, s)], as a truth value. *)
Definition fullmatch (r : re) (s : str) : option (list str) :=
  run r s [] (fun rest caps => match rest with [] => Some caps | _ => None end).

(** [re.sub(r, "", s, count=1)]. *)
Definition sub1 (r : re) (s : str) : str :=
  match search r s with
  | Some m => m_pre m ++ m_post m
  | None => s
  end.

(** [re.sub("^" + r, "", s)]: without the MULTILINE flag the anchor only
    holds at the first character, so at most the leading match is removed. *)
Definition sub_leading (r : re) (s : str) : str :=
  match match_at r [] s with
  | Some m => m_post m
  | None => s
  end.

(** Character classes. *)
Definition one_of (cs : str) (c : char) : bool := existsb (N.eqb c) cs.
Definition none_of (cs : str) (c : char) : bool := negb (one_of cs c).
Definition is_char (x : char) (c : char) : bool := N.eqb c x.

End Re.
Export Re.

Infix ">>" := Cat (at level 60, right associativity).

(** ** Field normalizers: dates *)

Module Dates.

Definition nian : char := 0x5e74%N.  (* 年 *)
Definition yue : char := 0x6708%N.   (* 月 *)
Definition hao : char := 0x53f7%N.   (* 号 *)
Definition ri : char := 0x65e5%N.    (* 日 *)

(** [[/-]] *)
Definition date_sep : char -> bool := one_of (u "/-").

(** [(\d{4})[/-](\d{1,2})[/-](\d{1,2})] *)
Definition re_ymd : re :=
  Grp (Rep is_digit 4 (Some 4)) >> Chr date_sep >>
  Grp (Rep is_digit 1 (Some 2)) >> Chr date_sep >>
  Grp (Rep is_digit 1 (Some 2)).

(** [(\d{1,2})/(\d{1,2})/(\d{4})] *)
Definition re_dmy : re :=
  Grp (Rep is_digit 1 (Some 2)) >> Chr (is_char 47%N) >>
  Grp (Rep is_digit 1 (Some 2)) >> Chr (is_char 47%N) >>
  Grp (Rep is_digit 4 (Some 4)).

(** [(\d{4})年(\d{1,2})月(\d{1,2})] *)
Definition re_cn : re :=
  Grp (Rep is_digit 4 (Some 4)) >> Chr (is_char nian) >>
  Grp (Rep is_digit 1 (Some 2)) >> Chr (is_char yue) >>
  Grp (Rep is_digit 1 (Some 2)).

(** [(\d{1,2})/(\d{1,2})] *)
Definition re_dm : re :=
  Grp (Rep is_digit 1 (Some 2)) >> Chr (is_char 47%N) >>
  Grp (Rep is_digit 1 (Some 2)).

(** [(\d{1,2})月(\d{1,2})] *)
Definition re_md_cn : re :=
  Grp (Rep is_digit 1 (Some 2)) >> Chr (is_char yue) >>
  Grp (Rep is_digit 1 (Some 2)).

(** [f"{y:04d}-{mo:02d}-{d:02d}"] *)
Definition iso_format (y mo d : Z) : str :=
  fmt_d 4 y ++ u "-" ++ fmt_d 2 mo ++ u "-" ++ fmt_d 2 d.

(** The day/month heuristic shared by [to_iso_date] and
    [parse_day_month_with_year]: returns [(day, month)]. *)
Definition day_month (a b : Z) (prefer_day_first : bool) : Z * Z :=
  if (a >? 12)%Z && (b <=? 12)%Z then (a, b)
  else if (b >? 12)%Z && (a <=? 12)%Z then (b, a)
  else if prefer_day_first then (a, b)
  else (b, a).

Definition strip_day_glyphs (s : str) : str :=
  replace_char ri [] (replace_char hao [] s).

Definition to_iso_date (value : str) (prefer_day_first : bool) : str :=
  let s := normalize_text value in
  match s with
  | [] => []
  | _ =>
      let s := strip_day_glyphs s in
      match search re_ymd s with
      | Some m =>
          iso_format (int_of_digits (group m 1)) (int_of_digits (group m 2))
            (int_of_digits (group m 3))
      | None =>
          match search re_dmy s with
          | Some m =>
              let a := int_of_digits (group m 1) in
              let b := int_of_digits (group m 2) in
              let y := int_of_digits (group m 3) in
              let '(d, mo) := day_month a b prefer_day_first in
              iso_format y mo d
          | None =>
              match search re_cn s with
              | Some m =>
                  iso_format (int_of_digits (group m 1))
                    (int_of_digits (group m 2)) (int_of_digits (group m 3))
              | None => []
              end
          end
      end
  end.

Definition parse_day_month_with_year (value : str) (year : Z)
    (prefer_day_first : bool) : str :=
  let s := normalize_text value in
  match s with
  | [] => []
  | _ =>
      match search re_dm s with
      | None => []
      | Some m =>
          let a := int_of_digits (group m 1) in
          let b := int_of_digits (group m 2) in
          let '(d, mo) := day_month a b prefer_day_first in
          iso_format year mo d
      end
  end.

(** [a or b] on optional years: [None] and [0] are falsy. *)
Definition year_or (a b : option Z) : option Z :=
  match a with
  | Some y => if (y =? 0)%Z then b else a
  | None => b
  end.

(** The truthy years: [if not year: return ""] rejects [None] and [0]. *)
Definition truthy_year (y : option Z) : option Z :=
  match y with
  | Some v => if (v =? 0)%Z then None else Some v
  | None => None
  end.

Definition parse_post_date (value : str) (context_year fallback_year : option Z)
    : str :=
  let raw := normalize_text value in
  match raw with
  | [] => []
  | _ =>
      match to_iso_date raw true with
      | (_ :: _) as iso => iso
      | [] =>
          match truthy_year (year_or context_year fallback_year) with
          | None => []
          | Some year => parse_day_month_with_year raw year true
          end
      end
  end.

Definition extract_month_day (text : str) : option (Z * Z) :=
  match search re_md_cn (normalize_text text) with
  | None => None
  | Some m => Some (int_of_digits (group m 1), int_of_digits (group m 2))
  end.

(** [[\s，,。\.、\-—:：]+] (used behind a [^] anchor) *)
Definition lead_punct : char -> bool :=
  fun c => is_space c || one_of (u "，,。.、-—:：") c.

Definition re_lead_punct : re := Rep lead_punct 1 None.

(** The patterns of the four substitutions of the visit window: each is one
    group around a date without inner groups. *)

(** [(\d{4}[/-]\d{1,2}[/-]\d{1,2})] *)
Definition win_ymd : re :=
  Grp (Rep is_digit 4 (Some 4) >> Chr date_sep >>
       Rep is_digit 1 (Some 2) >> Chr date_sep >> Rep is_digit 1 (Some 2)).

(** [(\d{1,2}/\d{1,2}/\d{4})] *)
Definition win_dmy : re :=
  Grp (Rep is_digit 1 (Some 2) >> Chr (is_char 47%N) >>
       Rep is_digit 1 (Some 2) >> Chr (is_char 47%N) >> Rep is_digit 4 (Some 4)).

(** [(\d{4}年\d{1,2}月\d{1,2})] *)
Definition win_cn : re :=
  Grp (Rep is_digit 4 (Some 4) >> Chr (is_char nian) >>
       Rep is_digit 1 (Some 2) >> Chr (is_char yue) >> Rep is_digit 1 (Some 2)).

(** [(\d{1,2}月\d{1,2})] *)
Definition win_md : re :=
  Grp (Rep is_digit 1 (Some 2) >> Chr (is_char yue) >> Rep is_digit 1 (Some 2)).

(** The four substitutions, each with [count=1], in source order. *)
Definition strip_dates (w : str) : str :=
  sub1 win_md (sub1 win_cn (sub1 win_dmy (sub1 win_ymd w))).

Definition parse_visit_date_and_window (visit_raw : str)
    (context_year fallback_year : option Z) : str * str :=
  let raw := normalize_text visit_raw in
  match raw with
  | [] => ([], [])
  | _ =>
      let iso :=
        match to_iso_date raw true with
        | (_ :: _) as iso => iso
        | [] =>
            match extract_month_day raw with
            | Some (mo, d) =>
                match truthy_year (year_or context_year fallback_year) with
                | Some year => iso_format year mo d
                | None => []
                end
            | None => []
            end
        end in
      match iso with
      | [] => (iso, raw)
      | _ =>
          let window := strip_dates raw in
          let window := strip_day_glyphs window in
          let window := sub_leading re_lead_punct window in
          (iso, strip window)
      end
  end.

End Dates.
Export Dates.

(** ** Exceptions *)

Module Exn.

Inductive exn : Type := ValueError | OverflowError | IntegrityError.

(** The outcome of a call that may raise. *)
Inductive result (A : Type) : Type :=
| Ok (a : A)
| Raise (e : exn).
Arguments Ok {A} a.
Arguments Raise {A} e.

Definition bind {A B : Type} (r : result A) (f : A -> result B) : result B :=
  match r with
  | Ok a => f a
  | Raise e => Raise e
  end.

(** [try: r except ValueError: return d] *)
Definition except_ValueError {A : Type} (r : result A) (d : A) : result A :=
  match r with
  | Raise ValueError => Ok d
  | _ => r
  end.

End Exn.
Export Exn.

#[global] Instance result_ret : MRet result := fun A a => Ok a.
#[global] Instance result_bind : MBind result := fun A B f r => bind r f.

(** ** Python floats

    A finite binary64 value is kept as the exact dyadic rational
    [m * 2^e]; the sign of a zero is not kept (no operation of the importer
    observes it). *)

Module Float.

Local Open Scope Z_scope.

Inductive pyfloat : Type :=
| Fin (m e : Z)
| Inf (neg : bool)
| NaN.

(** Round the non-negative rational [a / b] ([b > 0]) to an integer, ties to
    even. *)
Definition round_half_even (a b : Z) : Z :=
  let q := a / b in
  let r := a mod b in
  if 2 * r <? b then q
  else if b <? 2 * r then q + 1
  else if Z.even q then q else q + 1.

(** [floor (log2 (n / d))] for positive [n] and [d]. *)
Definition floor_log2 (n d : Z) : Z :=
  let e0 := Z.log2 n - Z.log2 d in
  if d * 2 ^ Z.max e0 0 <=? n * 2 ^ Z.max (- e0) 0 then e0 else e0 - 1.

(** The binary64 value nearest to the positive rational [n / d] (ties to
    even): 53 significant bits, exponent of the last place at least -1074,
    overflow to infinity from 2^1024 on. *)
Definition round64_pos (n d : Z) : pyfloat :=
  let q := Z.max (floor_log2 n d - 52) (-1074) in
  let m :=
    if 0 <=? q then round_half_even n (d * 2 ^ q)
    else round_half_even (n * 2 ^ (- q)) d in
  if (0 <=? q) && (2 ^ 1024 <=? m * 2 ^ q) then Inf false else Fin m q.

Definition fneg (x : pyfloat) : pyfloat :=
  match x with
  | Fin m e => Fin (- m) e
  | Inf s => Inf (negb s)
  | NaN => NaN
  end.

(** The binary64 value nearest to [n / d], for [d > 0]. *)
Definition round64 (n d : Z) : pyfloat :=
  match n with
  | 0 => Fin 0 0
  | Zpos _ => round64_pos n d
  | Zneg _ => fneg (round64_pos (- n) d)
  end.

(** The binary64 value nearest to [m * 2^e]. *)
Definition round_dyadic (m e : Z) : pyfloat :=
  if 0 <=? e then round64 (m * 2 ^ e) 1 else round64 m (2 ^ (- e)).

(** The binary64 value nearest to [m * 10^e]. *)
Definition round_decimal (m e : Z) : pyfloat :=
  if 0 <=? e then round64 (m * 10 ^ e) 1 else round64 m (10 ^ (- e)).

Definition fsign (x : pyfloat) : Z :=
  match x with
  | Fin m _ => Z.sgn m
  | Inf s => if s then -1 else 1
  | NaN => 0
  end.

(** [x * y] on floats. *)
Definition fmul (x y : pyfloat) : pyfloat :=
  match x, y with
  | NaN, _ | _, NaN => NaN
  | Fin m1 e1, Fin m2 e2 => round_dyadic (m1 * m2) (e1 + e2)
  | _, _ =>
      match fsign x * fsign y with
      | 0 => NaN
      | Zpos _ => Inf false
      | Zneg _ => Inf true
      end
  end.

(** [float(i)] for an integer of at most 53 bits. *)
Definition of_int (i : Z) : pyfloat := Fin i 0.

(** [round(x)]: nearest integer, ties to even. *)
Definition py_round (x : pyfloat) : result Z :=
  match x with
  | Fin m e =>
      if 0 <=? e then Ok (m * 2 ^ e)
      else Ok (Z.sgn m * round_half_even (Z.abs m) (2 ^ (- e)))
  | Inf _ => Raise OverflowError
  | NaN => Raise ValueError
  end.

(** [int(x)]: truncation toward zero. *)
Definition py_int (x : pyfloat) : result Z :=
  match x with
  | Fin m e =>
      if 0 <=? e then Ok (m * 2 ^ e) else Ok (Z.quot m (2 ^ (- e)))
  | Inf _ => Raise OverflowError
  | NaN => Raise ValueError
  end.

(** [x == 0] and [x > 0]. *)
Definition is_zero (x : pyfloat) : bool :=
  match x with Fin m _ => m =? 0 | _ => false end.

Definition is_pos (x : pyfloat) : bool := fsign x =? 1.

(** *** [float(s)] on text

    CPython first maps every Unicode decimal digit to its ASCII digit and
    every non-ASCII space to [' ']; any other non-ASCII character makes the
    conversion fail. *)
Definition to_ascii (c : char) : option char :=
  if (c <? 127)%N then Some c
  else if is_space c then Some 32%N
  else if is_digit c then Some (48 + digit_value c)%N
  else None.

(** The ASCII space characters skipped at both ends ([Py_ISSPACE]). *)
Definition is_c_space (c : char) : bool := one_of [9; 10; 11; 12; 13; 32]%N c.

(** Underscores are allowed between two digits only; they are removed. *)
Fixpoint drop_underscores (prev : char) (s : str) : option str :=
  match s with
  | [] => if (prev =? 95)%N then None else Some []
  | c :: r =>
      if (c =? 95)%N then
        if is_ascii_digit prev then drop_underscores c r else None
      else if (prev =? 95)%N && negb (is_ascii_digit c) then None
      else cons c <$> drop_underscores c r
  end.

Fixpoint span (p : char -> bool) (s : str) : str * str :=
  match s with
  | c :: r =>
      if p c then let '(a, b) := span p r in (c :: a, b) else ([], s)
  | [] => ([], [])
  end.

(** The exponent part: [[eE][+-]?[0-9]+]; when it is malformed nothing is
    consumed. *)
Definition parse_exponent (s : str) : Z * str :=
  match s with
  | c :: r =>
      if one_of (u "eE") c then
        let '(neg, r1) :=
          match r with
          | x :: r' =>
              if (x =? 45)%N then (true, r')
              else if (x =? 43)%N then (false, r') else (false, r)
          | [] => (false, r)
          end in
        let '(ds, rest) := span is_ascii_digit r1 in
        match ds with
        | [] => (0, s)
        | _ => ((if neg then - int_of_digits ds else int_of_digits ds), rest)
        end
      else (0, s)
  | [] => (0, s)
  end.

(** An unsigned decimal number: digits with an optional point and at least
    one digit, then an optional exponent.  Returns the mantissa, the power of
    ten and the unread text. *)
Definition parse_number (s : str) : option (Z * Z * str) :=
  let '(ip, r) := span is_ascii_digit s in
  let '(fp, r1) :=
    match r with
    | c :: r' => if (c =? 46)%N then span is_ascii_digit r' else ([], r)
    | [] => ([], r)
    end in
  match ip ++ fp with
  | [] => None
  | ds =>
      let '(e, rest) := parse_exponent r1 in
      Some (int_of_digits ds, e - Z.of_nat (length fp), rest)
  end.

Definition ascii_lower (s : str) : str :=
  List.map (fun c => if (65 <=? c)%N && (c <=? 90)%N then (c + 32)%N else c) s.

(** Leading and trailing ASCII white space is skipped. *)
Definition c_strip (t : str) : str :=
  rev (snd (span is_c_space (rev (snd (span is_c_space t))))).

(** An optional sign. *)
Definition split_sign (t : str) : bool * str :=
  match t with
  | c :: r =>
      if (c =? 45)%N then (true, r)
      else if (c =? 43)%N then (false, r) else (false, t)
  | [] => (false, t)
  end.

(** The text after the sign: a decimal number read in full, or one of the
    words [inf], [infinity], [nan] in any case. *)
Definition float_of_body (neg : bool) (body : str) : option pyfloat :=
  match parse_number body with
  | Some (m, e, []) =>
      Some (if neg then fneg (round_decimal m e) else round_decimal m e)
  | Some (_, _, _ :: _) => None
  | None =>
      let w := ascii_lower body in
      if bool_decide (w = u "inf") || bool_decide (w = u "infinity")
      then Some (Inf neg)
      else if bool_decide (w = u "nan") then Some NaN
      else None
  end.

(** [float(s)]; [None] stands for the [ValueError] of an unreadable text. *)
Definition py_float (s : str) : option pyfloat :=
  t ← mapM to_ascii s;
  t ← (if one_of t 95%N then drop_underscores 0%N t else Some t);
  let '(neg, body) := split_sign (c_strip t) in
  float_of_body neg body.

End Float.
Export Float.

(** ** Field normalizers: metrics, budget, handle, contact method *)

Module Normalizers.

(** [([0-9]+(?:[.,][0-9]+)?)] followed by a suffix letter *)
Definition re_scaled (suffix : char) : re :=
  Grp (Rep is_ascii_digit 1 None >>
       Opt (Chr (one_of (u ".,")) >> Rep is_ascii_digit 1 None)) >>
  Chr (is_char suffix).

(** The decimal-separator rule of the suffixed forms. *)
Definition fix_separator (num : str) : str :=
  if contains (u ",") num && negb (contains (u ".") num)
  then replace_char 44%N (u ".") num
  else replace_char 44%N [] num.

(** [int(round(float(num) * scale))] under [except ValueError: return 0]. *)
Definition scaled_metric (num : str) (scale : Z) : result Z :=
  except_ValueError
    (match py_float (fix_separator num) with
     | None => Raise ValueError
     | Some f => py_round (fmul f (of_int scale))
     end) 0%Z.

Definition parse_int_metric (raw : str) : result Z :=
  let s := replace_char 34%N [] (normalize_text raw) in
  match s with
  | [] => Ok 0%Z
  | _ =>
      let s := replace_char 32%N [] s in
      let lower := lower s in
      match fullmatch (re_scaled 107%N) lower with
      | Some g => scaled_metric (List.nth 0 g []) 1000
      | None =>
          match fullmatch (re_scaled 109%N) lower with
          | Some g => scaled_metric (List.nth 0 g []) 1000000
          | None =>
              let s := replace_char 44%N [] s in
              except_ValueError
                (match py_float s with
                 | None => Raise ValueError
                 | Some f => py_int f
                 end) 0%Z
          end
      end
  end.

(** [([0-9]+(?:\.[0-9]+)?)] *)
Definition re_amount : re :=
  Grp (Rep is_ascii_digit 1 None >>
       Opt (Chr (is_char 46%N) >> Rep is_ascii_digit 1 None)).

Definition parse_budget_wan (raw : str) : pyfloat :=
  let s := normalize_text raw in
  match s with
  | [] => Fin 0 0
  | _ =>
      if contains (u "不收费") s || contains (u "免费") s then Fin 0 0
      else
        match search re_amount (replace_char 44%N [] s) with
        | None => Fin 0 0
        | Some m =>
            match py_float (group m 1) with
            | Some f => f
            | None => Fin 0 0
            end
        end
  end.

(** [tiktok\.com/@([^/?#]+)] *)
Definition re_handle : re :=
  Lit (u "tiktok.com/@") >> Grp (Rep (none_of (u "/?#")) 1 None).

Definition parse_tiktok_handle (profile_url : str) : str :=
  let s := normalize_text profile_url in
  match s with
  | [] => []
  | _ =>
      match search re_handle s with
      | None => []
      | Some m =>
          match lstrip_char 64%N (strip (group m 1)) with
          | [] => []
          | handle => 64%N :: handle
          end
      end
  end.

Definition contact_words : list str :=
  [u "zalo"; u "tiktok"; u "ig"; u "instagram"; u "fb"; u "facebook"].

Definition normalize_contact_method (raw : str) : str :=
  let s := normalize_text raw in
  match s with
  | [] => []
  | _ =>
      let s_lower := lower s in
      if bool_decide (s_lower ∈ contact_words) then
        if bool_decide (s_lower = u "instagram") then u "ig" else s_lower
      else s
  end.

End Normalizers.
Export Normalizers.

(** ** Row classifier and row extractor *)

Module Sheet.

Inductive sheet_mode : Type := Booking | Walkin.

Definition normalize_header_cell (value : str) : str :=
  replace_char 32%N [] (replace_char 13%N [] (replace_char 10%N [] (normalize_text value))).

Definition visit_time_label : str := u "到访时间".
Definition visit_date_label : str := u "到访日期".
Definition post_date_label : str := u "视频发布日期".
Definition video_link_label : str := u "视频链接".

Definition header_blob (header_row : list str) : str :=
  join (u ",")
    (List.filter (fun h => negb (bool_decide (h = [])))
       (List.map normalize_header_cell header_row)).

Definition detect_sheet_mode (header_row : list str) : sheet_mode :=
  let blob := header_blob header_row in
  if contains visit_time_label blob || contains visit_date_label blob then Booking
  else if contains post_date_label blob && contains video_link_label blob
          && negb (contains visit_time_label blob) then Walkin
  else Booking.

Record ImportRow : Type :=
  { seq : str;
    profile_url : str;
    contact_raw : str;
    price_raw : str;
    video_rights : str;
    service_detail : str;
    visit_raw : str;
    post_date_raw : str;
    video_link : str;
    views_raw : str;
    likes_raw : str;
    comments_raw : str;
    saves_raw : str;
    shares_raw : str }.

(** [read_rows] on the rows the CSV reader produced: each row is padded
    with empty cells, then cut, to exactly 15 columns. *)
Definition read_rows (csv_rows : list (list str)) : list (list str) :=
  List.map (fun row => List.firstn 15 (row ++ List.repeat [] (15 - length row)))
    csv_rows.

Definition cell (row : list str) (i : nat) : str := List.nth i row [].

Definition is_header_first (first : str) : bool :=
  match first with
  | [] => false
  | _ =>
      contains (u "序号") first
      || bool_decide (lower first = u "no")
      || bool_decide (lower first = u "index")
  end.

(** [re.fullmatch(r"\d+", first)] *)
Definition is_sequence_number (first : str) : bool :=
  match fullmatch (Rep is_digit 1 None) first with
  | Some _ => true
  | None => false
  end.

Definition import_row_of (mode : sheet_mode) (first : str) (row : list str)
    : ImportRow :=
  match mode with
  | Walkin =>
      {| seq := first; profile_url := cell row 1; contact_raw := [];
         price_raw := []; video_rights := []; service_detail := [];
         visit_raw := cell row 5; post_date_raw := cell row 3;
         video_link := cell row 4; views_raw := cell row 10;
         likes_raw := cell row 11; comments_raw := cell row 12;
         saves_raw := cell row 13; shares_raw := cell row 14 |}
  | Booking =>
      {| seq := first; profile_url := cell row 1; contact_raw := cell row 3;
         price_raw := cell row 4; video_rights := cell row 5;
         service_detail := cell row 6; visit_raw := cell row 7;
         post_date_raw := cell row 8; video_link := cell row 9;
         views_raw := cell row 10; likes_raw := cell row 11;
         comments_raw := cell row 12; saves_raw := cell row 13;
         shares_raw := cell row 14 |}
  end.

(** The generator [extract_import_rows], as the list of what it yields.  The
    two loop variables are threaded through the recursion. *)
Fixpoint extract_loop (context_year : option Z) (mode : option sheet_mode)
    (rows : list (list str)) : list (option Z * ImportRow) :=
  match rows with
  | [] => []
  | row :: rest =>
      let first := normalize_text (cell row 0) in
      if is_header_first first then
        extract_loop context_year (Some (detect_sheet_mode row)) rest
      else
        match first with
        | [] =>
            match to_iso_date (normalize_text (cell row 1)) true with
            | [] => extract_loop context_year mode rest
            | iso =>
                extract_loop (Some (int_of_digits (List.firstn 4 iso))) mode rest
            end
        | _ =>
            if negb (is_sequence_number first) then
              extract_loop context_year mode rest
            else
              (context_year, import_row_of (default Booking mode) first row)
                :: extract_loop context_year mode rest
        end
  end.

Definition extract_import_rows (csv_rows : list (list str))
    : list (option Z * ImportRow) :=
  extract_loop None None (read_rows csv_rows).

End Sheet.
Export Sheet.

(** ** The store: three tables *)

Module Store.

Record influencer : Type :=
  { inf_id : str;
    inf_displayName : str;
    inf_handle : str;
    inf_avatarData : str;
    inf_contactMethod : str;
    inf_contactInfo : str;
    inf_notes : str;
    inf_profileLink : str;
    inf_createdAt : str;
    inf_updatedAt : str }.

Record booking : Type :=
  { bk_id : str;
    bk_storeId : str;
    bk_storeName : str;
    bk_influencerId : str;
    bk_creatorName : str;
    bk_handle : str;
    bk_contactMethod : str;
    bk_contactInfo : str;
    bk_visitDate : str;
    bk_visitWindow : str;
    bk_sourceType : str;
    bk_serviceDetail : str;
    bk_videoRights : str;
    bk_postDate : str;
    bk_videoLink : str;
    bk_budgetMillionVND : pyfloat;
    bk_notes : str;
    bk_createdAt : str }.

Record traffic : Type :=
  { tr_id : str;
    tr_bookingId : str;
    tr_influencerId : str;
    tr_influencerName : str;
    tr_storeName : str;
    tr_sourceType : str;
    tr_postDate : str;
    tr_videoLink : str;
    tr_views : Z;
    tr_likes : Z;
    tr_comments : Z;
    tr_saves : Z;
    tr_shares : Z;
    tr_note : str;
    tr_capturedAt : str }.

(** The connection's view of the database.  Text columns hold text (SQL
    NULL is not modelled). *)
Record db : Type :=
  { influencers : list influencer;
    bookings : list booking;
    traffic_logs : list traffic }.

(** A value bound to a named SQL parameter. *)
Inductive value : Type :=
| VText (s : str)
| VReal (x : pyfloat).

Definition text_or (d : str) (v : option value) : str :=
  match v with Some (VText s) => s | _ => d end.

Definition real_or (d : pyfloat) (v : option value) : pyfloat :=
  match v with Some (VReal x) => x | _ => d end.

(** [UPDATE influencers SET k = :k, ... ] for the keys [k] of [updates],
    applied to one row. *)
Definition set_influencer (updates : gmap string value) (r : influencer)
    : influencer :=
  {| inf_id := inf_id r;
     inf_displayName := text_or (inf_displayName r) (updates !! "displayName"%string);
     inf_handle := text_or (inf_handle r) (updates !! "handle"%string);
     inf_avatarData := inf_avatarData r;
     inf_contactMethod := text_or (inf_contactMethod r) (updates !! "contactMethod"%string);
     inf_contactInfo := text_or (inf_contactInfo r) (updates !! "contactInfo"%string);
     inf_notes := text_or (inf_notes r) (updates !! "notes"%string);
     inf_profileLink := text_or (inf_profileLink r) (updates !! "profileLink"%string);
     inf_createdAt := inf_createdAt r;
     inf_updatedAt := text_or (inf_updatedAt r) (updates !! "updatedAt"%string) |}.

(** [UPDATE bookings SET k = :k, ...] for the keys [k] of [updates]. *)
Definition set_booking (updates : gmap string value) (r : booking) : booking :=
  {| bk_id := bk_id r;
     bk_storeId := text_or (bk_storeId r) (updates !! "storeId"%string);
     bk_storeName := text_or (bk_storeName r) (updates !! "storeName"%string);
     bk_influencerId := bk_influencerId r;
     bk_creatorName := bk_creatorName r;
     bk_handle := bk_handle r;
     bk_contactMethod := bk_contactMethod r;
     bk_contactInfo := bk_contactInfo r;
     bk_visitDate := text_or (bk_visitDate r) (updates !! "visitDate"%string);
     bk_visitWindow := text_or (bk_visitWindow r) (updates !! "visitWindow"%string);
     bk_sourceType := text_or (bk_sourceType r) (updates !! "sourceType"%string);
     bk_serviceDetail := text_or (bk_serviceDetail r) (updates !! "serviceDetail"%string);
     bk_videoRights := text_or (bk_videoRights r) (updates !! "videoRights"%string);
     bk_postDate := text_or (bk_postDate r) (updates !! "postDate"%string);
     bk_videoLink := text_or (bk_videoLink r) (updates !! "videoLink"%string);
     bk_budgetMillionVND :=
       real_or (bk_budgetMillionVND r) (updates !! "budgetMillionVND"%string);
     bk_notes := text_or (bk_notes r) (updates !! "notes"%string);
     bk_createdAt := bk_createdAt r |}.

(** [UPDATE t SET ... WHERE cond]: every row that satisfies the condition
    is rewritten. *)
Definition update_where {R : Type} (cond : R -> bool) (f : R -> R) (t : list R)
    : list R :=
  List.map (fun r => if cond r then f r else r) t.

(** [SELECT * FROM t WHERE cond LIMIT 1] followed by [fetchone()]. *)
Definition select_first {R : Type} (cond : R -> bool) (t : list R) : option R :=
  List.find cond t.

(** Modelled from the spec: the schema of the tables is the storage
    collaborator's (it is not part of the importer); the spec's storage
    contract makes [id] the primary key of each table, so an [INSERT] whose
    id is already present raises [sqlite3.IntegrityError]. *)
Definition insert_row {R : Type} (key : R -> str) (r : R) (t : list R)
    : result (list R) :=
  if existsb (fun x => bool_decide (key x = key r)) t
  then Raise IntegrityError
  else Ok (t ++ [r]).

Definition with_influencers (d : db) (t : list influencer) : db :=
  {| influencers := t; bookings := bookings d; traffic_logs := traffic_logs d |}.
Definition with_bookings (d : db) (t : list booking) : db :=
  {| influencers := influencers d; bookings := t; traffic_logs := traffic_logs d |}.
Definition with_traffic (d : db) (t : list traffic) : db :=
  {| influencers := influencers d; bookings := bookings d; traffic_logs := t |}.

(** The ASCII case folding of SQLite's [LIKE]. *)
Definition like_char_eq (a b : char) : bool :=
  let fold c := if (65 <=? c)%N && (c <=? 90)%N then (c + 32)%N else c in
  (a =? b)%N || ((a <? 128)%N && (b <? 128)%N && (fold a =? fold b)%N).

(** [text LIKE pattern] with SQLite's defaults: [%] stands for any run of
    characters, [_] for any one character, and ASCII letters match without
    regard to case. *)
Fixpoint sql_like (pattern text : str) : bool :=
  match pattern with
  | [] => match text with [] => true | _ => false end
  | p :: pattern' =>
      if (p =? 37)%N then
        (fix any (t : str) : bool :=
           sql_like pattern' t
           || match t with [] => false | _ :: t' => any t' end) text
      else
        match text with
        | [] => false
        | c :: text' =>
            ((p =? 95)%N || like_char_eq p c) && sql_like pattern' text'
        end
  end.

End Store.
Export Store.

(** ** Reconciler *)

Module Reconciler.

#[global] Instance pyfloat_eq_dec : EqDecision pyfloat.
Proof. solve_decision. Defined.

#[global] Instance value_eq_dec : EqDecision value.
Proof. solve_decision. Defined.

(** Truth value of a text: [if s:]. *)
Definition truthy (s : str) : bool :=
  match s with [] => false | _ => true end.

(** [not normalize_text(s)] *)
Definition blank (s : str) : bool := negb (truthy (normalize_text s)).

(** [if cond: updates[k] = v] *)
Definition assign_if (cond : bool) (k : string) (v : value)
    (updates : gmap string value) : gmap string value :=
  if cond then <[k := v]> updates else updates.

Definition find_influencer_by_handle (d : db) (handle : str) : option influencer :=
  match handle with
  | [] => None
  | _ => select_first (fun r => bool_decide (inf_handle r = handle)) (influencers d)
  end.

(** [[0-9\s+()-]{6,}] *)
Definition re_phone : re :=
  Rep (fun c => is_ascii_digit c || is_space c || one_of (u "+()-") c) 6 None.

Definition has_id_inf (i : str) (r : influencer) : bool := bool_decide (inf_id r = i).
Definition has_id_bk (i : str) (r : booking) : bool := bool_decide (bk_id r = i).
Definition has_id_tr (i : str) (r : traffic) : bool := bool_decide (tr_id r = i).

(** The candidate values computed from the arguments of
    [create_or_patch_influencer]: display name, contact method, contact
    info, profile link and notes. *)
Definition display_name_of (handle : str) : str :=
  match handle with
  | [] => u "未命名达人"
  | _ => lstrip_char 64%N handle
  end.

Definition split_contact (contact_raw : str) : str * str :=
  let contact_method := normalize_contact_method contact_raw in
  if truthy contact_method && bool_decide (is_Some (fullmatch re_phone contact_method))
  then ([], contact_method)
  else (contact_method, []).

(** The [updates] dictionary of the patch branch, before [updatedAt]. *)
Definition influencer_updates (existing : influencer)
    (handle contact_raw profile_url notes : str) : gmap string value :=
  let display_name := display_name_of handle in
  let profile_link := normalize_text profile_url in
  let notes_text := normalize_text notes in
  let '(contact_method, contact_info) := split_contact contact_raw in
  let updates : gmap string value := ∅ in
  let updates :=
    assign_if (blank (inf_displayName existing) && truthy display_name)
      "displayName" (VText display_name) updates in
  let updates :=
    assign_if (blank (inf_handle existing) && truthy handle)
      "handle" (VText handle) updates in
  let updates :=
    assign_if (blank (inf_contactMethod existing) && truthy contact_method)
      "contactMethod" (VText contact_method) updates in
  let updates :=
    assign_if (blank (inf_contactInfo existing) && truthy contact_info)
      "contactInfo" (VText contact_info) updates in
  let updates :=
    assign_if (blank (inf_profileLink existing) && truthy profile_link)
      "profileLink" (VText profile_link) updates in
  let updates :=
    assign_if (blank (inf_notes existing) && truthy notes_text)
      "notes" (VText notes_text) updates in
  updates.

(** [create_or_patch_influencer]; [now] is the reading of the clock and
    [new_id] the identifier drawn by [generate_id].  Returns the database and
    the triple [(row, patched, created)]. *)
Definition create_or_patch_influencer (now new_id : str) (d : db)
    (handle contact_raw profile_url notes : str)
    : result (db * (influencer * bool * bool)) :=
  match find_influencer_by_handle d handle with
  | Some existing =>
      let updates := influencer_updates existing handle contact_raw profile_url notes in
      if bool_decide (updates = ∅) then Ok (d, (existing, false, false))
      else
        let updates := <["updatedAt"%string := VText now]> updates in
        let t :=
          update_where (has_id_inf (inf_id existing)) (set_influencer updates)
            (influencers d) in
        Ok (with_influencers d t,
            (default existing (select_first (has_id_inf (inf_id existing)) t),
             true, false))
  | None =>
      let '(contact_method, contact_info) := split_contact contact_raw in
      let notes_text := normalize_text notes in
      let row :=
        {| inf_id := new_id;
           inf_displayName := display_name_of handle;
           inf_handle := handle;
           inf_avatarData := [];
           inf_contactMethod := contact_method;
           inf_contactInfo := contact_info;
           inf_notes := [];
           inf_profileLink := normalize_text profile_url;
           inf_createdAt := now;
           inf_updatedAt := now |} in
      t ← insert_row inf_id row (influencers d);
      let t :=
        if truthy notes_text then
          update_where (has_id_inf new_id)
            (set_influencer {["notes"%string := VText notes_text]}) t
        else t in
      Ok (with_influencers d t,
          (default row (select_first (has_id_inf new_id) t), false, true))
  end.

Definition find_booking_by_video_link (d : db) (video_link : str) : option booking :=
  let link := normalize_text video_link in
  match link with
  | [] => None
  | _ => select_first (fun r => bool_decide (bk_videoLink r = link)) (bookings d)
  end.

Definition build_import_tag (external_key : str) : str :=
  let key := normalize_text external_key in
  match key with
  | [] => []
  | _ => u "[import:" ++ key ++ u "]"
  end.

Definition find_booking (d : db)
    (video_link handle post_date store_id source_type external_key : str)
    : option booking :=
  let link := normalize_text video_link in
  let ext := normalize_text external_key in
  let by_key :=
    if truthy ext then
      let placeholder := u "import:" ++ ext in
      let tag := build_import_tag ext in
      select_first
        (fun r => bool_decide (bk_videoLink r = placeholder)
                  || sql_like (u "%" ++ tag ++ u "%") (bk_notes r))
        (bookings d)
    else None in
  match by_key with
  | Some row => Some row
  | None =>
      let by_link := if truthy link then find_booking_by_video_link d link else None in
      match by_link with
      | Some row => Some row
      | None =>
          let h := normalize_text handle in
          let p := normalize_text post_date in
          let s := normalize_text store_id in
          let t := normalize_text source_type in
          if truthy h && truthy s && truthy t then
            select_first
              (fun r => bool_decide (bk_handle r = h) && bool_decide (bk_postDate r = p)
                        && bool_decide (bk_storeId r = s)
                        && bool_decide (bk_sourceType r = t))
              (bookings d)
          else None
      end
  end.

Definition scheduled : str := u "预约".
Definition organic : str := u "自来".

Definition effective_source_type_of (source_type : str) : str :=
  let t := normalize_text source_type in
  if bool_decide (t = scheduled) || bool_decide (t = organic) then t else scheduled.

Definition effective_video_link_of (video_link ext : str) : str :=
  let link := normalize_text video_link in
  if truthy ext && negb (truthy link) then u "import:" ++ ext else link.

(** [f"{notes}\n{tag}".strip() if notes else tag] *)
Definition append_tag (notes tag : str) : str :=
  match notes with
  | [] => tag
  | _ => strip (notes ++ [10%N] ++ tag)
  end.

Definition effective_notes_of (notes tag : str) : str :=
  let n := normalize_text notes in
  if truthy tag && negb (contains tag n) then append_tag n tag else n.

(** The [updates] dictionary of the fill-empty branch of
    [create_or_update_booking]. *)
Definition booking_updates (existing : booking) (tag : str)
    (visit_date visit_window service_detail video_rights post_date : str)
    (effective_source_type effective_video_link : str) (budget_wan : pyfloat)
    (effective_notes : str) : gmap string value :=
  let updates : gmap string value := ∅ in
  let updates :=
    assign_if (truthy tag && negb (contains tag (normalize_text (bk_notes existing))))
      "notes" (VText (append_tag (normalize_text (bk_notes existing)) tag)) updates in
  let updates :=
    assign_if (blank (bk_visitDate existing) && truthy visit_date)
      "visitDate" (VText visit_date) updates in
  let updates :=
    assign_if (blank (bk_visitWindow existing) && truthy visit_window)
      "visitWindow" (VText visit_window) updates in
  let updates :=
    assign_if (blank (bk_serviceDetail existing) && truthy (normalize_text service_detail))
      "serviceDetail" (VText (normalize_text service_detail)) updates in
  let updates :=
    assign_if (blank (bk_videoRights existing) && truthy (normalize_text video_rights))
      "videoRights" (VText (normalize_text video_rights)) updates in
  let updates :=
    assign_if (blank (bk_postDate existing) && truthy post_date)
      "postDate" (VText post_date) updates in
  let updates :=
    assign_if (truthy effective_source_type
               && negb (bool_decide (normalize_text (bk_sourceType existing) = effective_source_type)))
      "sourceType" (VText effective_source_type) updates in
  let updates :=
    assign_if (truthy effective_video_link
               && (blank (bk_videoLink existing)
                   || startswith (u "import:") (normalize_text (bk_videoLink existing))))
      "videoLink" (VText effective_video_link) updates in
  let updates :=
    assign_if (is_zero (bk_budgetMillionVND existing) && is_pos budget_wan)
      "budgetMillionVND" (VReal budget_wan) updates in
  let updates :=
    assign_if (blank (bk_notes existing) && truthy effective_notes)
      "notes" (VText effective_notes) updates in
  updates.

(** [create_or_update_booking]; returns the database and the triple
    [(row, created, updated)]. *)
Definition create_or_update_booking (now new_id : str) (d : db)
    (store_id store_name : str) (influencer_row : influencer)
    (visit_date visit_window service_detail video_rights post_date video_link : str)
    (budget_wan : pyfloat) (notes source_type external_key : str)
    (allow_update_store allow_update_existing : bool)
    : result (db * (booking * bool * bool)) :=
  let effective_source_type := effective_source_type_of source_type in
  let ext := normalize_text external_key in
  let effective_video_link := effective_video_link_of video_link ext in
  let tag := build_import_tag ext in
  let effective_notes := effective_notes_of notes tag in
  match find_booking d effective_video_link (normalize_text (inf_handle influencer_row))
          (normalize_text post_date) store_id effective_source_type ext with
  | Some existing =>
      let store_differs :=
        allow_update_store && negb (bool_decide (bk_storeId existing = store_id)) in
      let d1 :=
        if store_differs then
          {| influencers := influencers d;
             bookings :=
               update_where (has_id_bk (bk_id existing))
                 (set_booking {["storeId"%string := VText store_id;
                                "storeName"%string := VText store_name]})
                 (bookings d);
             traffic_logs :=
               update_where (fun t => bool_decide (tr_bookingId t = bk_id existing))
                 (fun t =>
                    {| tr_id := tr_id t; tr_bookingId := tr_bookingId t;
                       tr_influencerId := tr_influencerId t;
                       tr_influencerName := tr_influencerName t;
                       tr_storeName := store_name;
                       tr_sourceType := tr_sourceType t;
                       tr_postDate := tr_postDate t;
                       tr_videoLink := tr_videoLink t;
                       tr_views := tr_views t; tr_likes := tr_likes t;
                       tr_comments := tr_comments t; tr_saves := tr_saves t;
                       tr_shares := tr_shares t; tr_note := tr_note t;
                       tr_capturedAt := tr_capturedAt t |})
                 (traffic_logs d) |}
        else d in
      let updates :=
        if allow_update_existing then
          booking_updates existing tag visit_date visit_window service_detail
            video_rights post_date effective_source_type effective_video_link
            budget_wan effective_notes
        else ∅ in
      let filled := negb (bool_decide (updates = ∅)) in
      let d2 :=
        if filled then
          with_bookings d1
            (update_where (has_id_bk (bk_id existing)) (set_booking updates)
               (bookings d1))
        else d1 in
      if store_differs || filled then
        Ok (d2,
            (default existing (select_first (has_id_bk (bk_id existing)) (bookings d2)),
             false, true))
      else Ok (d, (existing, false, false))
  | None =>
      let row :=
        {| bk_id := new_id;
           bk_storeId := store_id;
           bk_storeName := store_name;
           bk_influencerId := inf_id influencer_row;
           bk_creatorName := inf_displayName influencer_row;
           bk_handle := inf_handle influencer_row;
           bk_contactMethod := inf_contactMethod influencer_row;
           bk_contactInfo := inf_contactInfo influencer_row;
           bk_visitDate := visit_date;
           bk_visitWindow := visit_window;
           bk_sourceType := effective_source_type;
           bk_serviceDetail := normalize_text service_detail;
           bk_videoRights := normalize_text video_rights;
           bk_postDate := post_date;
           bk_videoLink := effective_video_link;
           bk_budgetMillionVND := budget_wan;
           bk_notes := effective_notes;
           bk_createdAt := now |} in
      t ← insert_row bk_id row (bookings d);
      Ok (with_bookings d t,
          (default row (select_first (has_id_bk new_id) t), true, false))
  end.

(** [upsert_traffic_for_booking]; returns the database and the pair
    [(created, updated)]. *)
Definition upsert_traffic_for_booking (now new_id : str) (d : db)
    (booking_row : booking) (views likes comments saves shares : Z) (note : str)
    : result (db * (bool * bool)) :=
  if (Z.max views (Z.max likes (Z.max comments (Z.max saves shares))) <=? 0)%Z
  then Ok (d, (false, false))
  else
    match select_first (fun t => bool_decide (tr_bookingId t = bk_id booking_row))
            (traffic_logs d) with
    | Some existing =>
        let next_post_date := normalize_text (bk_postDate booking_row) in
        let next_video_link := normalize_text (bk_videoLink booking_row) in
        if (tr_views existing =? views)%Z && (tr_likes existing =? likes)%Z
           && (tr_comments existing =? comments)%Z && (tr_saves existing =? saves)%Z
           && (tr_shares existing =? shares)%Z
           && bool_decide (normalize_text (tr_postDate existing) = next_post_date)
           && bool_decide (normalize_text (tr_videoLink existing) = next_video_link)
           && bool_decide (normalize_text (tr_note existing) = normalize_text note)
        then Ok (d, (false, false))
        else
          Ok (with_traffic d
                (update_where (has_id_tr (tr_id existing))
                   (fun t =>
                      {| tr_id := tr_id t; tr_bookingId := tr_bookingId t;
                         tr_influencerId := tr_influencerId t;
                         tr_influencerName := tr_influencerName t;
                         tr_storeName := tr_storeName t;
                         tr_sourceType := tr_sourceType t;
                         tr_postDate := next_post_date;
                         tr_videoLink := next_video_link;
                         tr_views := views; tr_likes := likes;
                         tr_comments := comments; tr_saves := saves;
                         tr_shares := shares; tr_note := note;
                         tr_capturedAt := now |})
                   (traffic_logs d)),
              (false, true))
    | None =>
        let row :=
          {| tr_id := new_id;
             tr_bookingId := bk_id booking_row;
             tr_influencerId := bk_influencerId booking_row;
             tr_influencerName := bk_creatorName booking_row;
             tr_storeName := bk_storeName booking_row;
             tr_sourceType := bk_sourceType booking_row;
             tr_postDate := bk_postDate booking_row;
             tr_videoLink := bk_videoLink booking_row;
             tr_views := views; tr_likes := likes; tr_comments := comments;
             tr_saves := saves; tr_shares := shares; tr_note := note;
             tr_capturedAt := now |} in
        t ← insert_row tr_id row (traffic_logs d);
        Ok (with_traffic d t, (true, false))
    end.

End Reconciler.
Export Reconciler.

(** ** Import driver *)

Module Driver.

(** The command-line arguments the import loop reads, and the store that
    [ensure_store] resolved before the loop. *)
Record Args : Type :=
  { gid : str;
    source_type : str;
    update_store : bool;
    update_existing : bool;
    store_id : str;
    store_name : str }.

(** What the clock and [generate_id] give while one record is imported. *)
Record Draw : Type :=
  { now_influencer : str; id_influencer : str;
    now_booking : str; id_booking : str;
    now_traffic : str; id_traffic : str }.

(** The values the loop body binds for one record. *)
Record Outcome : Type :=
  { influencer_created : bool;
    influencer_patched : bool;
    booking_row : booking;
    booking_created : bool;
    booking_updated : bool;
    traffic_created : bool;
    traffic_updated : bool }.

Record Stats : Type :=
  { influencers_created : nat;
    influencers_patched : nat;
    bookings_created : nat;
    bookings_updated : nat;
    bookings_skipped : nat;
    traffic_created_count : nat;
    traffic_updated_count : nat }.

Definition is_probe_header (first : str) : bool :=
  match first with
  | [] => false
  | _ =>
      contains (u "序号") first
      || bool_decide (lower first = u "no")
      || bool_decide (lower first = u "index")
      || contains (u "ID") first
  end.

(** The one-time probe of the sheet mode at the top of [main]. *)
Fixpoint probe_sheet_mode (rows : list (list str)) : sheet_mode :=
  match rows with
  | [] => Booking
  | probe :: rest =>
      if is_probe_header (normalize_text (cell probe 0))
      then detect_sheet_mode probe
      else probe_sheet_mode rest
  end.

Definition source_type_for (a : Args) (mode : sheet_mode) : str :=
  if bool_decide (source_type a = u "auto") then
    match mode with Walkin => organic | Booking => scheduled end
  else source_type a.

Definition external_key_for (a : Args) (mode : sheet_mode) (item : ImportRow) : str :=
  match mode with
  | Walkin => u "walkin:" ++ normalize_text (gid a) ++ u ":" ++ normalize_text (seq item)
  | Booking => []
  end.

(** One iteration of the loop over [extract_import_rows]. *)
Definition import_item (a : Args) (mode : sheet_mode) (w : Draw) (d : db)
    (entry : option Z * ImportRow) : result (db * Outcome) :=
  let '(context_year, item) := entry in
  let handle := parse_tiktok_handle (profile_url item) in
  '(d, (influencer_row, patched, created)) ←
    create_or_patch_influencer (now_influencer w) (id_influencer w) d handle
      (contact_raw item) (profile_url item) [];
  let post_date := parse_post_date (post_date_raw item) context_year context_year in
  let '(visit_date, visit_window, notes, budget_wan) :=
    match mode with
    | Walkin => ([], [], normalize_text (visit_raw item), Fin 0 0)
    | Booking =>
        let fallback_year :=
          match post_date with
          | [] => context_year
          | _ => Some (int_of_digits (List.firstn 4 post_date))
          end in
        let '(visit_date, visit_window) :=
          parse_visit_date_and_window (visit_raw item) context_year fallback_year in
        (visit_date, visit_window, normalize_text (visit_raw item),
         parse_budget_wan (price_raw item))
    end in
  '(d, (booking_row, created_booking, store_updated)) ←
    create_or_update_booking (now_booking w) (id_booking w) d (store_id a)
      (store_name a) influencer_row visit_date visit_window (service_detail item)
      (video_rights item) post_date (video_link item) budget_wan notes
      (source_type_for a mode) (external_key_for a mode item)
      (update_store a) (update_existing a);
  views ← parse_int_metric (views_raw item);
  likes ← parse_int_metric (likes_raw item);
  comments ← parse_int_metric (comments_raw item);
  saves ← parse_int_metric (saves_raw item);
  shares ← parse_int_metric (shares_raw item);
  '(d, (created_traffic, updated_traffic)) ←
    upsert_traffic_for_booking (now_traffic w) (id_traffic w) d booking_row
      views likes comments saves shares [];
  Ok (d,
      {| influencer_created := created;
         influencer_patched := patched;
         booking_row := booking_row;
         booking_created := created_booking;
         booking_updated := store_updated;
         traffic_created := created_traffic;
         traffic_updated := updated_traffic |}).

(** The loop: the [n]-th record uses the draws [draws n], [draws (n+1)], ... *)
Fixpoint import_loop (a : Args) (mode : sheet_mode) (draws : nat -> Draw)
    (n : nat) (d : db) (entries : list (option Z * ImportRow))
    : result (db * list Outcome) :=
  match entries with
  | [] => Ok (d, [])
  | entry :: rest =>
      '(d1, o) ← import_item a mode (draws n) d entry;
      '(d2, os) ← import_loop a mode draws (S n) d1 rest;
      Ok (d2, o :: os)
  end.

(** The counters of [main], incremented for one record. *)
Definition count (st : Stats) (o : Outcome) : Stats :=
  {| influencers_created :=
       if influencer_created o then S (influencers_created st) else influencers_created st;
     influencers_patched :=
       if influencer_created o then influencers_patched st
       else if influencer_patched o then S (influencers_patched st)
       else influencers_patched st;
     bookings_created :=
       if booking_created o then S (bookings_created st) else bookings_created st;
     bookings_updated :=
       if booking_created o then bookings_updated st
       else if booking_updated o then S (bookings_updated st)
       else bookings_updated st;
     bookings_skipped :=
       if booking_created o || booking_updated o then bookings_skipped st
       else S (bookings_skipped st);
     traffic_created_count :=
       if traffic_created o then S (traffic_created_count st)
       else traffic_created_count st;
     traffic_updated_count :=
       if traffic_created o then traffic_updated_count st
       else if traffic_updated o then S (traffic_updated_count st)
       else traffic_updated_count st |}.

Definition no_stats : Stats :=
  {| influencers_created := 0; influencers_patched := 0; bookings_created := 0;
     bookings_updated := 0; bookings_skipped := 0; traffic_created_count := 0;
     traffic_updated_count := 0 |}.

(** The import of [main] (without [--only-influencers]) on the rows of the
    sheet: the database it commits and the outcome of every record, or the
    exception after which it rolls back. *)
Definition run_import (a : Args) (draws : nat -> Draw) (d : db)
    (csv_rows : list (list str)) : result (db * list Outcome) :=
  let mode := probe_sheet_mode (read_rows csv_rows) in
  import_loop a mode draws 0 d (extract_import_rows csv_rows).

Definition stats_of (os : list Outcome) : Stats := fold_left count os no_stats.

End Driver.
Export Driver.

(** ** Declarative notions used by the statements *)

Module Spec.

(** [sub] occurs in [s]. *)
Definition occurs_in (sub s : str) : Prop := exists a b, s = a ++ sub ++ b.

(** The language of a pattern, with the groups it captures. *)
Inductive matches : re -> str -> list str -> Prop :=
| M_Chr p c : p c = true -> matches (Chr p) [c] []
| M_Lit l : matches (Lit l) l []
| M_Cat r1 r2 s1 s2 g1 g2 :
    matches r1 s1 g1 -> matches r2 s2 g2 ->
    matches (Cat r1 r2) (s1 ++ s2) (g1 ++ g2)
| M_Rep p lo hi s :
    Forall (fun c => p c = true) s ->
    lo <= length s ->
    (forall h, hi = Some h -> length s <= h) ->
    matches (Rep p lo hi) s []
| M_Opt_some r s g : matches r s g -> matches (Opt r) s g
| M_Opt_none r : matches (Opt r) [] []
| M_Grp r s g : matches r s g -> matches (Grp r) s (g ++ [s]).







(** The condition under which the specification says a sheet is a walk-in
    sheet: a visit-date label, no visit-time label, and both a post-date and
    a video-link label in the header blob. *)
Definition stated_walkin_condition (header_row : list str) : Prop :=
  let blob := header_blob header_row in
  occurs_in visit_date_label blob /\ ~ occurs_in visit_time_label blob /\
  occurs_in post_date_label blob /\ occurs_in video_link_label blob.

(** A header with a visit-date column, a post-date column and a video-link
    column. *)
Definition visit_date_header : list str :=
  [u "序号"; u "到访日期"; u "视频发布日期"; u "视频链接"].





(** A float that is not negative (a NaN counts: it never becomes a
    number). *)
Definition nonneg (x : pyfloat) : Prop :=
  match x with
  | Fin m _ => (0 <= m)%Z
  | Inf s => s = false
  | NaN => True
  end.

Definition not_minus (c : char) : Prop := c <> 45%N.

(** Texts of ASCII digits. *)
Definition ascii_digits (s : str) : Prop :=
  Forall (fun c => is_ascii_digit c = true) s /\ s <> [].

(** The suffix letters of a metric and their factors: [k], [K], the Kelvin
    sign (whose lower case is [k]), [m] and [M]. *)
Definition suffix_scales : list (char * Z) :=
  [(107%N, 1000%Z); (75%N, 1000%Z); (8490%N, 1000%Z);
   (109%N, 1000000%Z); (77%N, 1000000%Z)].

(** [round(x * scale)] for the binary64 value [x] nearest to
    [mantissa * 10^exponent], as a metric: an integer, or the
    [OverflowError] of an infinite product. *)
Definition scaled_value (mantissa exponent scale : Z) : result Z :=
  except_ValueError
    (py_round (fmul (round_decimal mantissa exponent) (of_int scale))) 0%Z.

(** What the metric parser can observe of an ASCII digit or separator: it
    is no space, no quote and no sign, and lower-casing and the conversion
    of [float] leave it alone. *)
Definition plain_char (c : char) : Prop :=
  is_space c = false /\ lower_char c = [c] /\ to_ascii c = Some c /\
  is_c_space c = false /\ c <> 34%N /\ c <> 32%N /\ c <> 95%N /\ c <> 45%N /\ c <> 43%N.

(** The value a patch leaves in a field: the candidate when the field is
    blank (empty once trimmed) and the candidate is not empty, the old value
    otherwise. *)
Definition filled (old cand : str) : str :=
  if blank old && truthy cand then cand else old.

(** *** The import, record by record *)

(** The handle the import reads from a record. *)
Definition entry_handle (entry : option Z * ImportRow) : str :=
  parse_tiktok_handle (profile_url (snd entry)).

Definition entry_post_date (entry : option Z * ImportRow) : str :=
  parse_post_date (post_date_raw (snd entry)) (fst entry) (fst entry).



(** The five metrics of a record, read in the order of the call. *)
Definition entry_metrics (entry : option Z * ImportRow)
    : result (Z * Z * Z * Z * Z) :=
  let item := snd entry in
  views ← parse_int_metric (views_raw item);
  likes ← parse_int_metric (likes_raw item);
  comments ← parse_int_metric (comments_raw item);
  saves ← parse_int_metric (saves_raw item);
  shares ← parse_int_metric (shares_raw item);
  Ok (views, likes, comments, saves, shares).




(** One influencer row after a patch of another: same id and handle, and
    every other field either unchanged or filled from blank to non-blank. *)
Definition kept_or_filled (old new : str) : Prop :=
  new = old \/ (blank old = true /\ blank new = false).



(** A handle as [parse_tiktok_handle] makes them: not empty, trimmed, and
    with a display name that is not blank. *)
Definition good_handle (h : str) : Prop :=
  h <> [] /\ normalize_text h = h /\ blank (display_name_of h) = false.


(** The text after a greedy repetition cannot extend it. *)
Definition stops (p : char -> bool) (rest : str) : Prop :=
  match rest with [] => True | c :: _ => p c = false end.

(** A text without whitespace, and a text that ends in a character that is
    not whitespace. *)
Definition nospace (s : str) : Prop := Forall (fun c => is_space c = false) s.

Definition ends_nonspace (s : str) : Prop :=
  exists y c, s = y ++ [c] /\ is_space c = false.

(** *** The parts of one iteration of the import loop *)

Definition entry_visit (mode : sheet_mode) (entry : option Z * ImportRow)
    : str * str * str * pyfloat :=
  let '(context_year, item) := entry in
  let post_date := entry_post_date entry in
  match mode with
  | Walkin => ([], [], normalize_text (visit_raw item), Fin 0 0)
  | Booking =>
      let fallback_year :=
        match post_date with
        | [] => context_year
        | _ => Some (int_of_digits (List.firstn 4 post_date))
        end in
      let '(visit_date, visit_window) :=
        parse_visit_date_and_window (visit_raw item) context_year fallback_year in
      (visit_date, visit_window, normalize_text (visit_raw item),
       parse_budget_wan (price_raw item))
  end.

Definition entry_booking (a : Args) (mode : sheet_mode) (w : Draw) (d : db)
    (influencer_row : influencer) (entry : option Z * ImportRow)
    : result (db * (booking * bool * bool)) :=
  let '(visit_date, visit_window, notes, budget_wan) := entry_visit mode entry in
  create_or_update_booking (now_booking w) (id_booking w) d (store_id a)
    (store_name a) influencer_row visit_date visit_window
    (service_detail (snd entry)) (video_rights (snd entry)) (entry_post_date entry)
    (video_link (snd entry)) budget_wan notes
    (source_type_for a mode) (external_key_for a mode (snd entry))
    (update_store a) (update_existing a).

Definition outcome_of (created patched : bool) (b : booking)
    (created_booking store_updated created_traffic updated_traffic : bool) : Outcome :=
  {| influencer_created := created;
     influencer_patched := patched;
     booking_row := b;
     booking_created := created_booking;
     booking_updated := store_updated;
     traffic_created := created_traffic;
     traffic_updated := updated_traffic |}.





(** The zero-padded decimal digits of a number below 100, and below 10000. *)
Definition two_digits (v : Z) : str :=
  [(48 + Z.to_N (v / 10))%N; (48 + Z.to_N (v mod 10))%N].

Definition four_digits (v : Z) : str :=
  [(48 + Z.to_N (v / 1000))%N; (48 + Z.to_N (v / 100 mod 10))%N;
   (48 + Z.to_N (v / 10 mod 10))%N; (48 + Z.to_N (v mod 10))%N].

(** A run of between [lo] and [hi] decimal digits. *)
Definition digits (lo hi : nat) (s : str) : Prop :=
  Forall (fun c => is_digit c = true) s /\ lo <= length s <= hi.

End Spec.
Export Spec.

(** ** Sample data *)

Module Examples.

Definition alice : influencer :=
  {| inf_id := u "inf-1";
     inf_displayName := u "alice";
     inf_handle := u "@alice";
     inf_avatarData := [];
     inf_contactMethod := [];
     inf_contactInfo := [];
     inf_notes := u "met at the fair";
     inf_profileLink := [];
     inf_createdAt := u "2023-01-01T00:00:00Z";
     inf_updatedAt := u "2023-01-01T00:00:00Z" |}.

(** A scheduled booking of alice's first video. *)
Definition video1 : booking :=
  {| bk_id := u "bk-1";
     bk_storeId := u "store-mlzg";
     bk_storeName := u "MLZG";
     bk_influencerId := u "inf-1";
     bk_creatorName := u "alice";
     bk_handle := u "@alice";
     bk_contactMethod := [];
     bk_contactInfo := [];
     bk_visitDate := [];
     bk_visitWindow := [];
     bk_sourceType := scheduled;
     bk_serviceDetail := [];
     bk_videoRights := [];
     bk_postDate := u "2023-12-21";
     bk_videoLink := u "https://www.tiktok.com/@alice/video/1";
     bk_budgetMillionVND := Fin 0 0;
     bk_notes := u "dinner";
     bk_createdAt := u "2023-12-22T00:00:00Z" |}.

Definition small_db : db :=
  {| influencers := [alice]; bookings := [video1]; traffic_logs := [] |}.

Definition empty_db : db :=
  {| influencers := []; bookings := []; traffic_logs := [] |}.

Definition later : str := u "2024-01-01T00:00:00Z".

(** The external key of row 1 of the walk-in sheet with gid 0, and its tag. *)
Definition key1 : str := u "walkin:0:1".

(** An import with both update flags off into the store MLZG. *)
Definition plain_args : Args :=
  {| gid := u "0"; source_type := u "auto"; update_store := false;
     update_existing := false; store_id := u "store-mlzg"; store_name := u "MLZG" |}.

(** Draws whose identifiers carry a tag and the number of the record. *)
Definition draws_with (tag : str) (k : nat) : Draw :=
  {| now_influencer := later; id_influencer := u "inf_" ++ tag ++ List.repeat 48%N k;
     now_booking := later; id_booking := u "bk_" ++ tag ++ List.repeat 48%N k;
     now_traffic := later; id_traffic := u "trf_" ++ tag ++ List.repeat 48%N k |}.

Definition sheet_header : list str :=
  [u "序号"; u "达人主页"; u "昵称"; u "联系方式"; u "报价"; u "授权"; u "服务";
   u "到访时间"; u "视频发布日期"; u "视频链接"; u "播放"; u "点赞"].


(** A sheet whose one record has a profile URL, a video and metrics. *)
Definition linh_sheet : list (list str) :=
  [sheet_header;
   [u "1"; u "https://www.tiktok.com/@linh"; u "Linh"; u "zalo"; u "2"; []; [];
    u "12月21日 18:00"; u "2023/12/22"; u "https://www.tiktok.com/@linh/video/7";
    u "1.2k"; u "30"]].

(** The database and the outcomes of the first import of [linh_sheet]. *)
Definition linh_db : db :=
  Eval vm_compute in
    match run_import plain_args (draws_with (u "a")) empty_db linh_sheet with
    | Ok (d, _) => d
    | Raise _ => empty_db
    end.

Definition linh_outcomes : list Outcome :=
  Eval vm_compute in
    match run_import plain_args (draws_with (u "a")) empty_db linh_sheet with
    | Ok (_, os) => os
    | Raise _ => []
    end.

End Examples.
Export Examples.

(** ** Notions used by the statements about the normalizers *)

Module FieldSpec.

(** A date as the parsers write it: four digits, a dash, two digits, a
    dash, two digits, for a year below 10000 and two numbers below 100. *)
Definition iso_shaped (t : str) : Prop :=
  exists y mo d : Z,
    (0 <= y < 10000)%Z /\ (0 <= mo < 100)%Z /\ (0 <= d < 100)%Z /\
    t = four_digits y ++ 45%N :: two_digits mo ++ 45%N :: two_digits d.

(** A year that [format(year, "04d")] writes with four digits and that is
    truthy. *)
Definition four_digit_year (y : option Z) : Prop :=
  forall v, y = Some v -> (0 <= v < 10000)%Z.



End FieldSpec.
Export FieldSpec.

(** ** Notions used by the statements about the sheet *)

Module SheetSpec.

(** The rows of a sheet whose first cell, trimmed, is a whole number. *)
Definition numbered_rows (csv_rows : list (list str)) : list (list str) :=
  List.filter (fun r => is_sequence_number (normalize_text (cell r 0))) csv_rows.

(** What a record takes from its row whatever the layout of the sheet. *)
Definition read_from (row : list str) (item : ImportRow) : Prop :=
  seq item = normalize_text (cell row 0) /\
  profile_url item = cell row 1 /\
  views_raw item = cell row 10 /\ likes_raw item = cell row 11 /\
  comments_raw item = cell row 12 /\ saves_raw item = cell row 13 /\
  shares_raw item = cell row 14 /\
  (item = import_row_of Booking (seq item) (read_rows [row] !!! 0)
   \/ item = import_row_of Walkin (seq item) (read_rows [row] !!! 0)).

End SheetSpec.
Export SheetSpec.

(** ** The influencer-only reading of a sheet *)

Module InfluencerSheet.

Record InfluencerOnlyRow : Type :=
  { io_profile_url : str; io_contact_raw : str; io_notes : str }.

(** The inner function [find_col] of [detect_columns], on the normalized
    header: the first column, from [i] on, whose cell is not empty and
    contains one of the needles. *)
Fixpoint find_col_from (i : nat) (header : list str) (needles : list str)
    : option nat :=
  match header with
  | [] => None
  | h :: rest =>
      if truthy h && existsb (fun n => truthy n && contains n h) needles
      then Some i
      else find_col_from (S i) rest needles
  end.

Definition find_col (header : list str) (needles : list str) : option nat :=
  find_col_from 0 header needles.

(** The dictionary [detect_columns] returns; an absent column is [None]. *)
Record Columns : Type :=
  { col_id : option nat; col_contact : option nat; col_price : option nat;
    col_service : option nat; col_rights : option nat; col_visit : option nat;
    col_post : option nat; col_video : option nat; col_result : option nat;
    col_note : option nat }.

Definition detect_columns (header_row : list str) : Columns :=
  let header := List.map normalize_header_cell header_row in
  {| col_id := find_col header [u "ID"; u "链接"; u "主页"];
     col_contact := find_col header [u "联系方式"; u "联系"];
     col_price := find_col header [u "价格"; u "报价"];
     col_service := find_col header [u "具体服务"; u "服务"];
     col_rights := find_col header [u "视频授权"; u "授权"];
     col_visit := find_col header [u "到访时间"; u "到访"];
     col_post := find_col header [u "视频发布日期"; u "发布日期"];
     col_video := find_col header [u "视频链接"; u "链接"];
     col_result := find_col header [u "视频结果"; u "结果"];
     col_note := find_col header [u "备注"] |}.

(** The default positions used when no header row came first. *)
Definition default_columns : Columns :=
  {| col_id := Some 1; col_contact := Some 3; col_price := Some 4;
     col_service := Some 6; col_rights := Some 5; col_visit := Some 7;
     col_post := Some 8; col_video := Some 9; col_result := Some 10;
     col_note := None |}.

Definition is_tiktok_profile_url (value : str) : bool :=
  contains (u "tiktok.com/@") (normalize_text value).

(** [normalize_text(row[idx]) if isinstance(idx, int) and idx < len(row)] *)
Definition cell_at (row : list str) (idx : option nat) : option str :=
  match idx with
  | Some i => if i <? length row then Some (normalize_text (List.nth i row [])) else None
  | None => None
  end.

(** The loop variables of [extract_influencer_only_rows]. *)
Record Scan : Type :=
  { scan_cols : option Columns;
    scan_rows : list InfluencerOnlyRow;
    scan_current : option (str * str);
    scan_notes : list str }.

(** The inner function [flush]. *)
Definition flush (st : Scan) : Scan :=
  match scan_current st with
  | None =>
      {| scan_cols := scan_cols st; scan_rows := scan_rows st;
         scan_current := None; scan_notes := [] |}
  | Some (profile, contact) =>
      let notes :=
        strip (join [10%N]
                 (List.filter (fun n => truthy (normalize_text n)) (scan_notes st))) in
      {| scan_cols := scan_cols st;
         scan_rows :=
           scan_rows st
           ++ [{| io_profile_url := profile; io_contact_raw := contact;
                  io_notes := notes |}];
         scan_current := None; scan_notes := [] |}
  end.

(** The labelled columns that are captured as notes, in order; the flag
    marks the video-link column, whose TikTok links are left out. *)
Definition note_columns : list ((Columns -> option nat) * str * bool) :=
  [(col_price, u "价格", false); (col_rights, u "视频授权", false);
   (col_service, u "具体服务", false); (col_visit, u "到访时间", false);
   (col_post, u "视频发布日期", false); (col_video, u "视频链接", true);
   (col_result, u "视频结果", false); (col_note, u "备注", false)].

Definition note_parts (cols : Columns) (row : list str) : list str :=
  List.flat_map
    (fun '(key, label, is_video) =>
       match cell_at row (key cols) with
       | Some val =>
           if truthy val && (negb is_video || negb (contains (u "tiktok.com/") val))
           then [label ++ u "：" ++ val]
           else []
       | None => []
       end)
    note_columns.

Definition is_influencer_header (first : str) : bool :=
  truthy first
  && (contains (u "ID") first || contains (u "序号") first || contains (u "链接") first).

(** The body of the loop once the columns are known. *)
Definition scan_data (cols : Columns) (st : Scan) (row : list str) : Scan :=
  let profile_url := default [] (cell_at row (col_id cols)) in
  if is_tiktok_profile_url profile_url then
    let st := flush st in
    let contact_raw := default [] (cell_at row (col_contact cols)) in
    {| scan_cols := Some cols; scan_rows := scan_rows st;
       scan_current := Some (profile_url, contact_raw);
       scan_notes := scan_notes st ++ note_parts cols row |}
  else
    match scan_current st with
    | Some _ =>
        let extra :=
          join [32%N]
            (List.filter truthy (List.map normalize_text row)) in
        {| scan_cols := Some cols; scan_rows := scan_rows st;
           scan_current := scan_current st;
           scan_notes :=
             if truthy extra then scan_notes st ++ [extra] else scan_notes st |}
    | None =>
        {| scan_cols := Some cols; scan_rows := scan_rows st;
           scan_current := None; scan_notes := scan_notes st |}
    end.

(** One iteration of the loop over the rows. *)
Definition scan_row (st : Scan) (row : list str) : Scan :=
  let first := normalize_text (cell row 0) in
  match scan_cols st with
  | None =>
      if is_influencer_header first then
        {| scan_cols := Some (detect_columns row); scan_rows := scan_rows st;
           scan_current := scan_current st; scan_notes := scan_notes st |}
      else scan_data default_columns st row
  | Some cols => scan_data cols st row
  end.

(** The removal of duplicates by profile URL; [seen] is the set of the
    URLs kept so far. *)
Fixpoint unique_rows (seen : gset (list N)) (rows : list InfluencerOnlyRow)
    : list InfluencerOnlyRow :=
  match rows with
  | [] => []
  | r :: rest =>
      let key := normalize_text (io_profile_url r) in
      if negb (truthy key) || bool_decide (key ∈ seen) then unique_rows seen rest
      else r :: unique_rows ({[key]} ∪ seen) rest
  end.

Definition scanned (csv_rows : list (list str)) : Scan :=
  flush
    (fold_left scan_row (read_rows csv_rows)
       {| scan_cols := None; scan_rows := []; scan_current := None;
          scan_notes := [] |}).

Definition extract_influencer_only_rows (csv_rows : list (list str))
    : list InfluencerOnlyRow :=
  unique_rows ∅ (scan_rows (scanned csv_rows)).

End InfluencerSheet.
Export InfluencerSheet.

(** ** Notions used by the statements about the influencer-only reading *)

Module InfluencerSheetSpec.



End InfluencerSheetSpec.
Export InfluencerSheetSpec.

(** ** Notions used by the statements about the reconciler *)

Module ReconcilerSpec.

(** The three ways in which a booking answers a lookup: by import key (its
    video link is the placeholder of the key, or its notes match the tag
    under [LIKE]), by video link, or by the fallback tuple. *)
Definition answers_key (r : booking) (ext : str) : Prop :=
  ext <> [] /\
  (bk_videoLink r = u "import:" ++ ext \/
   sql_like (u "%" ++ build_import_tag ext ++ u "%") (bk_notes r) = true).

Definition answers_link (r : booking) (link : str) : Prop :=
  link <> [] /\ bk_videoLink r = link.

Definition answers_tuple (r : booking) (h p s t : str) : Prop :=
  h <> [] /\ s <> [] /\ t <> [] /\
  bk_handle r = h /\ bk_postDate r = p /\ bk_storeId r = s /\ bk_sourceType r = t.

End ReconcilerSpec.
Export ReconcilerSpec.

(** ** The influencer-only import *)

Module InfluencerImport.

(** The loop of [main] under [--only-influencers]: every row goes through
    [create_or_patch_influencer] with its notes; the outcome of a row is the
    pair [(patched, created)]. *)
Fixpoint influencers_loop (draws : nat -> Draw) (n : nat) (d : db)
    (rows : list InfluencerOnlyRow) : result (db * list (bool * bool)) :=
  match rows with
  | [] => Ok (d, [])
  | row :: rest =>
      let handle := parse_tiktok_handle (io_profile_url row) in
      '(d1, (_, patched, created)) ←
        create_or_patch_influencer (now_influencer (draws n)) (id_influencer (draws n))
          d handle (io_contact_raw row) (io_profile_url row) (io_notes row);
      '(d2, os) ← influencers_loop draws (S n) d1 rest;
      Ok (d2, (patched, created) :: os)
  end.

Definition run_influencers_only (draws : nat -> Draw) (d : db)
    (csv_rows : list (list str)) : result (db * list (bool * bool)) :=
  influencers_loop draws 0 d (extract_influencer_only_rows csv_rows).

(** The two counters of that loop: created, else patched. *)
Definition created_count (os : list (bool * bool)) : nat :=
  length (List.filter (fun o => snd o) os).

Definition patched_count (os : list (bool * bool)) : nat :=
  length (List.filter (fun o => negb (snd o) && fst o) os).

End InfluencerImport.
Export InfluencerImport.

(** ** More examples *)

Module MoreExamples.

(** A sheet of profiles: a header, an influencer with a line of notes, the
    same profile again, and a second influencer. *)
Definition profiles_sheet : list (list str) :=
  [[u "序号"; u "ID"; u "昵称"; u "联系方式"; u "价格"; u "备注"];
   [u "1"; u "https://www.tiktok.com/@linh"; u "Linh"; u "zalo"; u "2"; u "好"];
   [[]; []; u "second line"];
   [u "2"; u "https://www.tiktok.com/@linh"; u "Linh"; u "fb"; u "3"; u "x"];
   [u "3"; u " https://www.tiktok.com/@an "; u "An"; u "ig"]].

(** The database and the outcomes of the influencer-only import of
    [profiles_sheet] into the empty database. *)
Definition profiles_db : db :=
  Eval vm_compute in
    match run_influencers_only (draws_with (u "a")) empty_db profiles_sheet with
    | Ok (d, _) => d
    | Raise _ => empty_db
    end.

Definition profiles_outcomes : list (bool * bool) :=
  Eval vm_compute in
    match run_influencers_only (draws_with (u "a")) empty_db profiles_sheet with
    | Ok (_, os) => os
    | Raise _ => []
    end.

(** The booking that the import of [linh_sheet] created, and the database
    after its traffic snapshot is refreshed with other metrics. *)
Definition linh_booking : booking :=
  Eval vm_compute in
    match bookings linh_db with
    | b :: _ => b
    | [] => video1
    end.

Definition linh_db_refreshed : db :=
  Eval vm_compute in
    match upsert_traffic_for_booking later (u "trf_b") linh_db linh_booking
            5000 40 0 0 0 [] with
    | Ok (d, _) => d
    | Raise _ => linh_db
    end.

End MoreExamples.
Export MoreExamples.

(** ** What a second influencer-only import finds *)

Module InfluencerImportSpec.

(** One influencer row after a patch of any call: same id and handle, and
    every text field, the notes too, unchanged or filled from blank to
    non-blank. *)
Definition fills_any (r r' : influencer) : Prop :=
  inf_id r' = inf_id r /\ inf_handle r' = inf_handle r /\
  kept_or_filled (inf_displayName r) (inf_displayName r') /\
  kept_or_filled (inf_contactMethod r) (inf_contactMethod r') /\
  kept_or_filled (inf_contactInfo r) (inf_contactInfo r') /\
  kept_or_filled (inf_profileLink r) (inf_profileLink r') /\
  kept_or_filled (inf_notes r) (inf_notes r').

Definition grows_any (t t' : list influencer) : Prop :=
  exists t1 l, Forall2 fills_any t t1 /\ t' = t1 ++ l.

(** The handle the influencer-only import reads from a row. *)
Definition io_handle (row : InfluencerOnlyRow) : str :=
  parse_tiktok_handle (io_profile_url row).

(** A row's influencer is in the database with nothing left to fill from
    the row. *)
Definition row_settled (d : db) (row : InfluencerOnlyRow) : Prop :=
  exists r,
    find_influencer_by_handle d (io_handle row) = Some r /\
    influencer_updates r (io_handle row) (io_contact_raw row) (io_profile_url row)
      (io_notes row) = ∅.

End InfluencerImportSpec.
Export InfluencerImportSpec.

(** ** Contacts that read as phone numbers *)

Module ContactSpec.

(** The characters of [[0-9\s+()-]]. *)
Definition phone_char (c : char) : bool :=
  is_ascii_digit c || is_space c || one_of (u "+()-") c.

(** Six or more such characters and nothing else. *)
Definition phone_like (s : str) : Prop :=
  6 <= length s /\ Forall (fun c => phone_char c = true) s.

Definition unnamed : str := u "未命名达人".

End ContactSpec.
Export ContactSpec.

(** ** Moving a booking to another store *)

Module StoreMoveSpec.

(** Two booking rows that differ at most in the store id and name. *)
Definition same_but_store (b b' : booking) : Prop :=
  bk_id b' = bk_id b /\ bk_influencerId b' = bk_influencerId b /\
  bk_creatorName b' = bk_creatorName b /\ bk_handle b' = bk_handle b /\
  bk_contactMethod b' = bk_contactMethod b /\ bk_contactInfo b' = bk_contactInfo b /\
  bk_visitDate b' = bk_visitDate b /\ bk_visitWindow b' = bk_visitWindow b /\
  bk_sourceType b' = bk_sourceType b /\ bk_serviceDetail b' = bk_serviceDetail b /\
  bk_videoRights b' = bk_videoRights b /\ bk_postDate b' = bk_postDate b /\
  bk_videoLink b' = bk_videoLink b /\
  bk_budgetMillionVND b' = bk_budgetMillionVND b /\
  bk_notes b' = bk_notes b /\ bk_createdAt b' = bk_createdAt b.

(** Two traffic snapshots that differ at most in the store name. *)
Definition same_but_store_name (t t' : traffic) : Prop :=
  tr_id t' = tr_id t /\ tr_bookingId t' = tr_bookingId t /\
  tr_influencerId t' = tr_influencerId t /\
  tr_influencerName t' = tr_influencerName t /\
  tr_sourceType t' = tr_sourceType t /\ tr_postDate t' = tr_postDate t /\
  tr_videoLink t' = tr_videoLink t /\ tr_views t' = tr_views t /\
  tr_likes t' = tr_likes t /\ tr_comments t' = tr_comments t /\
  tr_saves t' = tr_saves t /\ tr_shares t' = tr_shares t /\
  tr_note t' = tr_note t /\ tr_capturedAt t' = tr_capturedAt t.

End StoreMoveSpec.
Export StoreMoveSpec.

(** * Theorems *)

(** ** Strings and patterns *)

Module ReFacts.

Lemma strip_prefix_Some p s s' : strip_prefix p s = Some s' -> s = p ++ s'.
Proof.
  revert s; induction p as [|x p IH]; intros [|c s] H; simpl in *; try congruence.
  destruct (N.eqb_spec x c); [|congruence].
  subst. f_equal. auto.
Qed.

Lemma strip_prefix_app p s : strip_prefix p (p ++ s) = Some s.
Proof.
  induction p as [|x p IH]; simpl; [done|]. by rewrite N.eqb_refl.
Qed.

Lemma rep_sound {A} p lo hi s (k : str -> option A) x :
  rep p lo hi s k = Some x ->
  exists s1 s2, s = s1 ++ s2 /\ Forall (fun c => p c = true) s1 /\
    lo <= length s1 /\ (forall h, hi = Some h -> length s1 <= h) /\
    k s2 = Some x.
Proof.
  revert lo hi; induction s as [|c s IH]; intros lo hi H.
  - exists [], []. simpl in *.
    assert (Hk : lo = 0 /\ k [] = Some x).
    { destruct hi as [[|h]|], lo; simpl in H; try congruence; auto. }
    destruct Hk as [-> Hk]. repeat split; auto. intros; simpl; lia.
  - assert (Hstop : (lo = 0 /\ k (c :: s) = Some x) ->
        exists s1 s2, c :: s = s1 ++ s2 /\ Forall (fun c => p c = true) s1 /\
          lo <= length s1 /\ (forall h, hi = Some h -> length s1 <= h) /\
          k s2 = Some x).
    { intros [-> Hk]. exists [], (c :: s). repeat split; auto. intros; simpl; lia. }
    simpl in H.
    destruct hi as [[|h]|].
    + apply Hstop. destruct lo; [auto|congruence].
    + destruct (p c) eqn:Hp.
      * destruct (rep p (Nat.pred lo) (Nat.pred <$> Some (S h)) s k) eqn:Hr.
        -- injection H as ->. apply IH in Hr as (s1 & s2 & -> & Hall & Hlo & Hhi & Hk).
           exists (c :: s1), s2. repeat split; auto.
           ++ simpl. lia.
           ++ intros h' [= <-]. simpl. specialize (Hhi h eq_refl). lia.
        -- apply Hstop. destruct lo; [auto|congruence].
      * apply Hstop. destruct lo; [auto|congruence].
    + destruct (p c) eqn:Hp.
      * destruct (rep p (Nat.pred lo) (Nat.pred <$> None) s k) eqn:Hr.
        -- injection H as ->. apply IH in Hr as (s1 & s2 & -> & Hall & Hlo & Hhi & Hk).
           exists (c :: s1), s2. repeat split; auto.
           ++ simpl. lia.
           ++ intros h' [=].
        -- apply Hstop. destruct lo; [auto|congruence].
      * apply Hstop. destruct lo; [auto|congruence].
Qed.

Lemma rep_complete {A} p lo hi s1 s2 (k : str -> option A) :
  Forall (fun c => p c = true) s1 ->
  lo <= length s1 ->
  (forall h, hi = Some h -> length s1 <= h) ->
  is_Some (k s2) ->
  is_Some (rep p lo hi (s1 ++ s2) k).
Proof.
  intros Hall; revert lo hi; induction Hall as [|c s1 Hp Hall IH]; intros lo hi Hlo Hhi Hk.
  - simpl in Hlo. assert (lo = 0) as -> by lia. simpl.
    destruct s2 as [|c s2]; destruct hi as [[|h]|]; simpl; auto;
      destruct (p c); auto; destruct (rep p _ _ s2 k); auto.
  - simpl in Hlo. simpl.
    assert (Hrec : forall hi', (forall h, hi' = Some h -> length s1 <= h) ->
              is_Some (rep p (Nat.pred lo) hi' (s1 ++ s2) k)).
    { intros hi' Hhi'. apply IH; auto. lia. }
    destruct hi as [[|h]|].
    + specialize (Hhi 0 eq_refl). simpl in Hhi. lia.
    + rewrite Hp.
      destruct (Hrec (Nat.pred <$> Some (S h))) as [y ->]; [|eauto].
      intros h' [= <-]. specialize (Hhi (S h) eq_refl). simpl in Hhi. lia.
    + rewrite Hp.
      destruct (Hrec (Nat.pred <$> None)) as [y ->]; [|eauto].
      intros h' [=].
Qed.

Lemma firstn_app_minus (s1 s2 : str) :
  List.firstn (length (s1 ++ s2) - length s2) (s1 ++ s2) = s1.
Proof.
  rewrite length_app.
  replace (length s1 + length s2 - length s2) with (length s1) by lia.
  by rewrite take_app_length.
Qed.

(** Soundness of the matcher: a success consumed a prefix in the language
    of the pattern and handed the rest to the continuation. *)
Lemma run_sound {A} r : forall s caps (k : str -> list str -> option A) x,
  run r s caps k = Some x ->
  exists s1 s2 g, s = s1 ++ s2 /\ matches r s1 g /\ k s2 (caps ++ g) = Some x.
Proof.
  induction r as [p|l|r1 IH1 r2 IH2|p lo hi|r IH|r IH]; intros s caps k x H; simpl in H.
  - destruct s as [|c s]; [congruence|]. destruct (p c) eqn:Hp; [|congruence].
    exists [c], s, []. rewrite app_nil_r. repeat split; auto. by constructor.
  - destruct (strip_prefix l s) as [s'|] eqn:Hl; [|congruence].
    apply strip_prefix_Some in Hl as ->.
    exists l, s', []. rewrite app_nil_r. repeat split; auto. constructor.
  - apply IH1 in H as (a & rest & g1 & -> & Ha & H).
    apply IH2 in H as (b & s2 & g2 & -> & Hb & H).
    exists (a ++ b), s2, (g1 ++ g2). rewrite <- !app_assoc. repeat split; auto.
    + by constructor.
    + by rewrite <- app_assoc in H.
  - apply rep_sound in H as (s1 & s2 & -> & Hall & Hlo & Hhi & Hk).
    exists s1, s2, []. rewrite app_nil_r. repeat split; auto. by constructor.
  - destruct (run r s caps k) as [y|] eqn:Hr.
    + injection H as ->. apply IH in Hr as (s1 & s2 & g & -> & Hm & Hk).
      exists s1, s2, g. repeat split; auto. by constructor.
    + exists [], s, []. rewrite app_nil_r. split; [done|]. split; [apply M_Opt_none|done].
  - apply IH in H as (s1 & s2 & g & -> & Hm & Hk).
    rewrite firstn_app_minus in Hk.
    exists s1, s2, (g ++ [s1]). repeat split; auto.
    + by constructor.
    + by rewrite app_assoc.
Qed.

(** Completeness of the matcher: if some prefix in the language leads the
    continuation to success, the matcher succeeds. *)
Lemma run_complete {A} r s1 g : matches r s1 g ->
  forall s2 caps (k : str -> list str -> option A),
  is_Some (k s2 (caps ++ g)) -> is_Some (run r (s1 ++ s2) caps k).
Proof.
  induction 1 as [p c Hp|l|r1 r2 a b g1 g2 Ha IHa Hb IHb|p lo hi s Hall Hlo Hhi
                 |r s g Hm IH|r|r s g Hm IH]; intros s2 caps k Hk; simpl.
  - rewrite Hp. by rewrite app_nil_r in Hk.
  - rewrite strip_prefix_app. by rewrite app_nil_r in Hk.
  - rewrite <- app_assoc. apply IHa. apply IHb. by rewrite <- app_assoc.
  - apply rep_complete; auto. by rewrite app_nil_r in Hk.
  - destruct (IH s2 caps k Hk) as [y ->]. eauto.
  - rewrite app_nil_r in Hk. destruct (run r s2 caps k); eauto.
  - apply IH. rewrite firstn_app_minus. by rewrite <- app_assoc.
Qed.

Lemma match_at_sound r pre s m :
  match_at r pre s = Some m ->
  m_pre m = pre /\ s = m_text m ++ m_post m /\ matches r (m_text m) (m_groups m).
Proof.
  unfold match_at. intros H.
  apply run_sound in H as (s1 & s2 & g & -> & Hm & [= <-]). simpl.
  rewrite firstn_app_minus. auto.
Qed.


Lemma search_from_sound r : forall s pre_rev m,
  search_from r pre_rev s = Some m ->
  rev pre_rev ++ s = m_pre m ++ m_text m ++ m_post m /\
  matches r (m_text m) (m_groups m).
Proof.
  induction s as [|c s IH]; intros pre_rev m H; simpl in H.
  - destruct (match_at r (rev pre_rev) []) eqn:Hm; [|congruence].
    injection H as ->. apply match_at_sound in Hm as (-> & -> & Hm). auto.
  - destruct (match_at r (rev pre_rev) (c :: s)) eqn:Hm.
    + injection H as ->. apply match_at_sound in Hm as (-> & -> & Hm). auto.
    + apply IH in H as [H1 H2]. split; auto.
      rewrite <- H1. simpl. by rewrite <- app_assoc.
Qed.


Lemma search_sound r s m :
  search r s = Some m ->
  s = m_pre m ++ m_text m ++ m_post m /\ matches r (m_text m) (m_groups m).
Proof. intros H. by apply search_from_sound in H. Qed.




Lemma fullmatch_sound r s g : fullmatch r s = Some g -> matches r s g.
Proof.
  unfold fullmatch. intros H.
  apply run_sound in H as (s1 & s2 & g' & -> & Hm & Hk).
  destruct s2; [|congruence]. injection Hk as <-. by rewrite app_nil_r.
Qed.

Lemma fullmatch_complete r s g : matches r s g -> is_Some (fullmatch r s).
Proof.
  intros Hm. unfold fullmatch.
  rewrite <- (app_nil_r s). eapply run_complete; eauto.
Qed.

End ReFacts.
Export ReFacts.
(** ** Strings *)

Module StrFacts.

Lemma startswith_true p s : startswith p s = true <-> exists b, s = p ++ b.
Proof.
  unfold startswith. split.
  - destruct (strip_prefix p s) as [b|] eqn:E; [|discriminate].
    intros _. exists b. by apply strip_prefix_Some.
  - intros [b ->]. by rewrite strip_prefix_app.
Qed.

Lemma contains_true sub s : contains sub s = true <-> occurs_in sub s.
Proof.
  induction s as [|c s IH].
  - simpl. rewrite orb_false_r, startswith_true. split.
    + intros [b H]. exists [], b. done.
    + intros (a & b & H). destruct a; [|discriminate]. exists b. done.
  - simpl. rewrite orb_true_iff, startswith_true, IH. split.
    + intros [[b H]|(a & b & H)].
      * exists [], b. done.
      * exists (c :: a), b. simpl. by rewrite H.
    + intros (a & b & H). destruct a as [|c' a].
      * left. exists b. done.
      * right. injection H as -> ->. by exists a, b.
Qed.

Lemma contains_false sub s : contains sub s = false <-> ~ occurs_in sub s.
Proof.
  rewrite <- contains_true. destruct (contains sub s); split; intros; try done.
Qed.


Lemma is_space_In c : is_space c = true <-> In c spaces.
Proof.
  unfold is_space. rewrite existsb_exists. split.
  - intros (x & Hx & E). apply N.eqb_eq in E. by subst.
  - intros H. exists c. split; [done|apply N.eqb_refl].
Qed.


Lemma lstrip_id c s : is_space c = false -> lstrip (c :: s) = c :: s.
Proof. intros H. simpl. by rewrite H. Qed.


Lemma rstrip_snoc s c : is_space c = false -> rstrip (s ++ [c]) = s ++ [c].
Proof.
  intros H. unfold rstrip. rewrite rev_app_distr. simpl. rewrite H.
  simpl. by rewrite rev_involutive.
Qed.

(** Stripping leaves alone a text that neither starts nor ends with a space. *)
Lemma strip_id c s c' :
  is_space c = false -> is_space c' = false -> strip (c :: s ++ [c']) = c :: s ++ [c'].
Proof.
  intros H H'. unfold strip. rewrite lstrip_id by done.
  by rewrite (app_comm_cons s [c'] c), rstrip_snoc.
Qed.

Lemma strip_id1 c : is_space c = false -> strip [c] = [c].
Proof. intros H. unfold strip, rstrip. simpl. rewrite H. simpl. by rewrite H. Qed.

Lemma replace_char_notin old new s :
  Forall (fun c => c <> old) s -> replace_char old new s = s.
Proof.
  induction 1 as [|c s Hc Hs IH]; [done|].
  unfold replace_char in *. simpl. rewrite IH.
  destruct (N.eqb_spec c old); [done|done].
Qed.

Lemma replace_char_app old new a b :
  replace_char old new (a ++ b) = replace_char old new a ++ replace_char old new b.
Proof. unfold replace_char. by rewrite flat_map_app. Qed.

End StrFacts.
Export StrFacts.
(** ** Date parsers *)

Module DateFacts.

(** When the longest run leads to success, that success is the result. *)
Lemma rep_greedy {A} p M : forall lo hi rest (k : str -> option A) x,
  Forall (fun c => p c = true) M ->
  lo <= length M ->
  (forall h, hi = Some h -> length M <= h) ->
  hi = Some (length M) \/ stops p rest ->
  k rest = Some x ->
  rep p lo hi (M ++ rest) k = Some x.
Proof.
  induction M as [|c M IH]; intros lo hi rest k x Hall Hlo Hhi Hstop Hk.
  - simpl in *. assert (lo = 0) as -> by lia.
    destruct Hstop as [->|Hstop].
    + by destruct rest.
    + destruct rest as [|c rest]; destruct hi as [[|h]|]; simpl in *; try done;
        by rewrite Hstop.
  - apply Forall_cons in Hall as [Hc Hall]. simpl in Hlo.
    assert (Hrec : rep p (Nat.pred lo) (Nat.pred <$> hi) (M ++ rest) k = Some x).
    { apply IH; auto.
      - lia.
      - intros h Hh. destruct hi as [h'|]; [|done]. injection Hh as <-.
        specialize (Hhi h' eq_refl). simpl in Hhi. lia.
      - destruct Hstop as [->|Hstop]; [left; done|by right]. }
    simpl. destruct hi as [[|h]|].
    + specialize (Hhi 0 eq_refl). simpl in Hhi. lia.
    + by rewrite Hc, Hrec.
    + by rewrite Hc, Hrec.
Qed.




Lemma search_at_start r s m : match_at r [] s = Some m -> search r s = Some m.
Proof.
  unfold search. destruct s; simpl; intros ->; done.
Qed.




Lemma date_sep_not_space c : date_sep c = true -> is_space c = false.
Proof.
  unfold date_sep, one_of. rewrite existsb_exists.
  intros (x & Hx & E). apply N.eqb_eq in E. subst x.
  vm_compute in Hx. destruct Hx as [<-|[<-|[]]]; vm_compute; reflexivity.
Qed.




End DateFacts.
Export DateFacts.

(** ** Formatting of numbers *)

Module FormatFacts.

Local Open Scope N_scope.

Lemma dec_fuel_step f n acc :
  dec_fuel (S f) n acc
  = if n / 10 =? 0 then (48 + n mod 10) :: acc
    else dec_fuel f (n / 10) ((48 + n mod 10) :: acc).
Proof. reflexivity. Qed.

Lemma log2_fuel n k : 2 ^ k <= n -> (N.to_nat k <= N.to_nat (N.log2 n))%nat.
Proof.
  intros H. assert (k <= N.log2 n); [|lia].
  apply N.log2_le_pow2; [|done].
  assert (0 < 2 ^ k) by (apply N.neq_0_lt_0, N.pow_nonzero; lia). lia.
Qed.

Lemma dec_below_10000 n :
  n < 10000 ->
  dec n =
    if n / 10 =? 0 then [48 + n mod 10]
    else if n / 10 / 10 =? 0 then [48 + n / 10 mod 10; 48 + n mod 10]
    else if n / 10 / 10 / 10 =? 0
         then [48 + n / 10 / 10 mod 10; 48 + n / 10 mod 10; 48 + n mod 10]
         else [48 + n / 10 / 10 / 10 mod 10; 48 + n / 10 / 10 mod 10;
               48 + n / 10 mod 10; 48 + n mod 10].
Proof.
  intros Hn. unfold dec. rewrite dec_fuel_step.
  destruct (N.eqb_spec (n / 10) 0) as [|H1]; [done|].
  assert (10 <= n).
  { destruct (N.le_gt_cases 10 n); [done|]. rewrite N.div_small in H1; done. }
  pose proof (log2_fuel n 3 ltac:(simpl; lia)) as L3.
  destruct (N.to_nat (N.log2 n)) as [|f1] eqn:E1; [simpl in L3; lia|].
  rewrite dec_fuel_step.
  destruct (N.eqb_spec (n / 10 / 10) 0) as [|H2]; [done|].
  assert (100 <= n).
  { destruct (N.le_gt_cases 100 n); [done|]. exfalso. apply H2.
    apply N.div_small. apply N.Div0.div_lt_upper_bound. lia. }
  pose proof (log2_fuel n 6 ltac:(simpl; lia)) as L6. rewrite E1 in L6.
  destruct f1 as [|f2]; [simpl in L6; lia|].
  rewrite dec_fuel_step.
  destruct (N.eqb_spec (n / 10 / 10 / 10) 0) as [|H3]; [done|].
  assert (1000 <= n).
  { destruct (N.le_gt_cases 1000 n); [done|]. exfalso. apply H3.
    apply N.div_small. apply N.Div0.div_lt_upper_bound.
    apply N.Div0.div_lt_upper_bound. lia. }
  pose proof (log2_fuel n 9 ltac:(simpl; lia)) as L9. rewrite E1 in L9.
  destruct f2 as [|f3]; [simpl in L9; lia|].
  rewrite dec_fuel_step.
  assert (n / 10 / 10 / 10 / 10 = 0) as ->; [|done].
  apply N.div_small. do 3 apply N.Div0.div_lt_upper_bound. lia.
Qed.

Lemma fmt_d_4 v : (0 <= v < 10000)%Z -> fmt_d 4 v = four_digits v.
Proof.
  intros Hv. unfold fmt_d, four_digits.
  destruct (Z.ltb_spec v 0); [lia|].
  rewrite Z.abs_eq by lia.
  rewrite dec_below_10000 by lia.
  set (n := Z.to_N v).
  assert (Hn : n < 10000) by lia.
  replace (Z.to_N (v / 1000)) with (n / 10 / 10 / 10).
  2:{ subst n. rewrite !N.Div0.div_div. rewrite Z2N.inj_div by lia. done. }
  replace (Z.to_N (v / 100 mod 10)) with (n / 10 / 10 mod 10).
  2:{ subst n. rewrite !N.Div0.div_div.
      rewrite Z2N.inj_mod, Z2N.inj_div; try lia; [done|].
      apply Z.div_pos; lia. }
  replace (Z.to_N (v / 10 mod 10)) with (n / 10 mod 10).
  2:{ subst n. rewrite Z2N.inj_mod, Z2N.inj_div; try lia; [done|].
      apply Z.div_pos; lia. }
  replace (Z.to_N (v mod 10)) with (n mod 10).
  2:{ subst n. rewrite Z2N.inj_mod; try lia. done. }
  destruct (N.eqb_spec (n / 10) 0) as [E1|E1].
  { simpl. rewrite !E1. simpl. done. }
  destruct (N.eqb_spec (n / 10 / 10) 0) as [E2|E2].
  { simpl. rewrite !E2. simpl. done. }
  destruct (N.eqb_spec (n / 10 / 10 / 10) 0) as [E3|E3].
  { simpl. rewrite !E3. simpl. done. }
  assert (n / 10 / 10 / 10 mod 10 = n / 10 / 10 / 10) as ->; [|done].
  apply N.mod_small. do 3 apply N.Div0.div_lt_upper_bound. lia.
Qed.

End FormatFacts.
Export FormatFacts.

Module DateTheorems.




Lemma digit_value_lt c : (digit_value c < 10)%N.
Proof.
  unfold digit_value. destruct (List.find (in_block c) digit_blocks) as [b|] eqn:E; [|lia].
  apply find_some in E as [_ E]. unfold in_block in E.
  apply andb_true_iff in E as [E1 E2].
  apply N.leb_le in E1. apply N.ltb_lt in E2. lia.
Qed.

Lemma int_of_digits_app s c :
  int_of_digits (s ++ [c]) = (int_of_digits s * 10 + Z.of_N (digit_value c))%Z.
Proof. unfold int_of_digits. by rewrite fold_left_app. Qed.

Lemma int_of_digits_bound s :
  (0 <= int_of_digits s < 10 ^ Z.of_nat (length s))%Z.
Proof.
  induction s as [|c s IH] using rev_ind.
  - simpl. cbn. lia.
  - rewrite int_of_digits_app, length_app. simpl.
    pose proof (digit_value_lt c).
    replace (Z.of_nat (length s + 1)) with (Z.succ (Z.of_nat (length s))) by lia.
    rewrite Z.pow_succ_r by lia. lia.
Qed.





Lemma forallb_below (f : Z -> bool) (n : Z) :
  forallb (fun i => f (Z.of_nat i)) (List.seq 0 (Z.to_nat n)) = true ->
  forall v, (0 <= v < n)%Z -> f v = true.
Proof.
  intros H v Hv. rewrite forallb_forall in H.
  specialize (H (Z.to_nat v)). rewrite Z2Nat.id in H by lia.
  apply H. apply in_seq. lia.
Qed.

Lemma fmt_d_2 v : (0 <= v < 100)%Z -> fmt_d 2 v = two_digits v.
Proof.
  intros Hv.
  pose proof (forallb_below (fun w => bool_decide (fmt_d 2 w = two_digits w)) 100%Z) as H.
  specialize (H ltac:(vm_compute; reflexivity) v ltac:(lia)).
  by apply bool_decide_eq_true in H.
Qed.


Lemma matches_grp_rep_inv p lo hi t g :
  matches (Grp (Rep p lo (Some hi))) t g ->
  g = [t] /\ Forall (fun c => p c = true) t /\ lo <= length t <= hi.
Proof.
  intros H. inversion H as [| | | |? ? ? H1|? |? ? ? H1]; subst.
  inversion H1; subst. simpl. repeat split; auto.
Qed.

Lemma matches_three_inv p1 p2 lo1 hi1 lo2 hi2 lo3 hi3 t g :
  matches
    (Grp (Rep is_digit lo1 (Some hi1)) >> Chr p1 >>
     Grp (Rep is_digit lo2 (Some hi2)) >> Chr p2 >>
     Grp (Rep is_digit lo3 (Some hi3))) t g ->
  exists A c1 B c2 C,
    t = A ++ c1 :: B ++ c2 :: C /\ g = [A; B; C] /\
    digits lo1 hi1 A /\ digits lo2 hi2 B /\ digits lo3 hi3 C /\
    p1 c1 = true /\ p2 c2 = true.
Proof.
  intros H.
  inversion H as [| |? ? A r1 gA g1 HA H1| | | |]; subst; clear H.
  inversion H1 as [| |? ? x1 r2 gx g2 Hx H2| | | |]; subst; clear H1.
  inversion H2 as [| |? ? B r3 gB g3 HB H3| | | |]; subst; clear H2.
  inversion H3 as [| |? ? x2 C gy gC Hy HC| | | |]; subst; clear H3.
  apply matches_grp_rep_inv in HA as (-> & FA & LA).
  apply matches_grp_rep_inv in HB as (-> & FB & LB).
  apply matches_grp_rep_inv in HC as (-> & FC & LC).
  inversion Hx; subst. inversion Hy; subst.
  eexists A, _, B, _, C. simpl. repeat split; eauto; lia.
Qed.
Lemma group_nth pre t g post i :
  group {| m_pre := pre; m_text := t; m_groups := g; m_post := post |} i
  = List.nth (i - 1) g [].
Proof. reflexivity. Qed.





Lemma digits_bound lo hi s n :
  digits lo hi s -> hi <= n -> (0 <= int_of_digits s < 10 ^ Z.of_nat n)%Z.
Proof.
  intros [_ [_ H]] Hn. pose proof (int_of_digits_bound s) as [H0 H1].
  split; [done|]. eapply Z.lt_le_trans; [exact H1|].
  apply Z.pow_le_mono_r; lia.
Qed.

Lemma day_month_cases a b pdf :
  day_month a b pdf = (a, b) \/ day_month a b pdf = (b, a).
Proof.
  unfold day_month.
  destruct (_ && _); [auto|]. destruct (_ && _); [auto|]. destruct pdf; auto.
Qed.







End DateTheorems.

Module SheetTheorems.

(** ** Sheet mode *)

(** C8, as stated, fails: a header with a visit-date label, no visit-time
    label, a post-date label and a video-link label meets the stated
    condition for a walk-in sheet, and [detect_sheet_mode] returns
    [booking]. *)
Lemma detect_sheet_mode_visit_date_header :
  stated_walkin_condition visit_date_header /\
  detect_sheet_mode visit_date_header <> Walkin.
Proof.
  split; [|by vm_compute].
  unfold stated_walkin_condition. cbv zeta.
  rewrite <- !contains_false, <- !contains_true. by vm_compute.
Qed.

(** C8, amended.  [detect_sheet_mode] returns [walkin] exactly when the
    normalized header blob contains neither a visit-time label (到访时间) nor
    a visit-date label (到访日期) and contains both a post-date label
    (视频发布日期) and a video-link label (视频链接); in every other case,
    and so whenever a visit-time or a visit-date label is present, it
    returns [booking]. *)
Theorem detect_sheet_mode_rule (header_row : list str) :
  (detect_sheet_mode header_row = Walkin <->
   ~ occurs_in visit_time_label (header_blob header_row) /\
   ~ occurs_in visit_date_label (header_blob header_row) /\
   occurs_in post_date_label (header_blob header_row) /\
   occurs_in video_link_label (header_blob header_row)) /\
  (detect_sheet_mode header_row = Booking <->
   occurs_in visit_time_label (header_blob header_row) \/
   occurs_in visit_date_label (header_blob header_row) \/
   ~ occurs_in post_date_label (header_blob header_row) \/
   ~ occurs_in video_link_label (header_blob header_row)).
Proof.
  unfold detect_sheet_mode. cbv zeta.
  rewrite <- !contains_false, <- !contains_true.
  destruct (contains visit_time_label _), (contains visit_date_label _),
    (contains post_date_label _), (contains video_link_label _); simpl;
    intuition congruence.
Qed.

End SheetTheorems.

(** ** Integer metrics *)

Module MetricTheorems.

Import DateTheorems.

Local Open Scope Z_scope.

Lemma round_half_even_nonneg a b : 0 <= a -> 0 < b -> 0 <= round_half_even a b.
Proof.
  intros Ha Hb. unfold round_half_even.
  assert (0 <= a / b) by (apply Z.div_pos; lia).
  repeat destruct (_ <? _); try destruct (Z.even _); lia.
Qed.

Lemma round64_pos_nonneg n d : 0 < n -> 0 < d -> nonneg (round64_pos n d).
Proof.
  intros Hn Hd. unfold round64_pos.
  set (q := Z.max _ _).
  destruct (_ && _); [done|]. simpl.
  destruct (0 <=? q) eqn:Hq.
  - apply round_half_even_nonneg; [lia|].
    apply Z.leb_le in Hq. apply Z.mul_pos_pos; [lia|]. by apply Z.pow_pos_nonneg.
  - apply round_half_even_nonneg; [|lia].
    apply Z.mul_nonneg_nonneg; [lia|]. apply Z.pow_nonneg. lia.
Qed.

Lemma round64_nonneg n d : 0 <= n -> 0 < d -> nonneg (round64 n d).
Proof.
  intros Hn Hd. unfold round64. destruct n as [|p|p]; [simpl; lia| |lia].
  apply round64_pos_nonneg; lia.
Qed.

Lemma round_dyadic_nonneg m e : 0 <= m -> nonneg (round_dyadic m e).
Proof.
  intros Hm. unfold round_dyadic. destruct (0 <=? e) eqn:He.
  - apply round64_nonneg; [|lia]. apply Z.mul_nonneg_nonneg; [lia|].
    apply Z.pow_nonneg. lia.
  - apply round64_nonneg; [lia|]. apply Z.pow_pos_nonneg; [lia|].
    apply Z.leb_gt in He. lia.
Qed.

Lemma round_decimal_nonneg m e : 0 <= m -> nonneg (round_decimal m e).
Proof.
  intros Hm. unfold round_decimal. destruct (0 <=? e) eqn:He.
  - apply round64_nonneg; [|lia]. apply Z.mul_nonneg_nonneg; [lia|].
    apply Z.pow_nonneg. lia.
  - apply round64_nonneg; [lia|]. apply Z.pow_pos_nonneg; [lia|].
    apply Z.leb_gt in He. lia.
Qed.

Lemma fsign_nonneg x : nonneg x -> 0 <= fsign x.
Proof.
  destruct x as [m e|s|]; simpl; intros H; [|by subst|lia].
  apply Z.sgn_nonneg. lia.
Qed.

Lemma fmul_nonneg x y : nonneg x -> nonneg y -> nonneg (fmul x y).
Proof.
  intros Hx Hy.
  pose proof (fsign_nonneg x Hx) as Sx. pose proof (fsign_nonneg y Hy) as Sy.
  assert (Hs : 0 <= fsign x * fsign y) by lia.
  destruct x as [m1 e1|s1|], y as [m2 e2|s2|]; try done.
  - apply round_dyadic_nonneg. simpl in *. lia.
  - unfold fmul. destruct (fsign _ * fsign _); simpl; try done; lia.
  - unfold fmul. destruct (fsign _ * fsign _); simpl; try done; lia.
  - unfold fmul. destruct (fsign _ * fsign _); simpl; try done; lia.
Qed.

Lemma py_round_nonneg x n : nonneg x -> py_round x = Ok n -> 0 <= n.
Proof.
  destruct x as [m e|s|]; simpl; try done. intros Hm.
  destruct (0 <=? e) eqn:He; intros [= <-].
  - apply Z.mul_nonneg_nonneg; [lia|]. apply Z.pow_nonneg. lia.
  - apply Z.mul_nonneg_nonneg; [by apply Z.sgn_nonneg|].
    apply round_half_even_nonneg; [lia|].
    apply Z.pow_pos_nonneg; [lia|]. apply Z.leb_gt in He. lia.
Qed.

Lemma py_int_nonneg x n : nonneg x -> py_int x = Ok n -> 0 <= n.
Proof.
  destruct x as [m e|s|]; simpl; try done. intros Hm.
  destruct (0 <=? e) eqn:He; intros [= <-].
  - apply Z.mul_nonneg_nonneg; [lia|]. apply Z.pow_nonneg. lia.
  - apply Z.quot_pos; [lia|]. apply Z.pow_pos_nonneg; [lia|].
    apply Z.leb_gt in He. lia.
Qed.


Section Keeps.
Variable P : char -> Prop.

Lemma lstrip_keeps s : Forall P s -> Forall P (lstrip s).
Proof.
  induction 1 as [|c s Hc Hs IH]; simpl; [done|].
  destruct (is_space c); [done|by constructor].
Qed.

Lemma strip_keeps s : Forall P s -> Forall P (strip s).
Proof.
  intros H. unfold strip, rstrip.
  apply Forall_rev, lstrip_keeps, Forall_rev, lstrip_keeps, H.
Qed.

Lemma replace_char_keeps old new s :
  Forall P new -> Forall P s -> Forall P (replace_char old new s).
Proof.
  intros Hn. induction 1 as [|c s Hc Hs IH]; [constructor|].
  unfold replace_char in *. simpl. apply Forall_app. split; [|done].
  destruct (c =? old)%N; [done|by constructor].
Qed.

Lemma span_keeps p s : Forall P s -> Forall P (fst (span p s)) /\ Forall P (snd (span p s)).
Proof.
  induction 1 as [|c s Hc Hs [IH1 IH2]]; simpl; [by split|].
  destruct (p c); [|split; [constructor|by constructor]].
  destruct (span p s) as [a b]. simpl in *. split; [by constructor|done].
Qed.

Lemma drop_underscores_keeps s : forall prev t,
  drop_underscores prev s = Some t -> Forall P s -> Forall P t.
Proof.
  induction s as [|c s IH]; intros prev t H Hs; simpl in H.
  - destruct (prev =? 95)%N; [done|]. injection H as <-. constructor.
  - apply Forall_cons in Hs as [Hc Hs].
    destruct (c =? 95)%N.
    + destruct (is_ascii_digit prev); [eauto|done].
    + destruct (_ && _); [done|].
      destruct (drop_underscores c s) as [t'|] eqn:E; [|done].
      injection H as <-. constructor; eauto.
Qed.

Lemma matches_keeps r s g :
  matches r s g -> Forall P s -> Forall (Forall P) g.
Proof.
  induction 1 as [| |r1 r2 a b g1 g2 Ha IHa Hb IHb| | | |r s g Hm IH]; intros Hs;
    try by constructor.
  - apply Forall_app in Hs as [? ?]. apply Forall_app; auto.
  - auto.
  - apply Forall_app. split; [auto|]. by constructor.
Qed.

End Keeps.

Lemma to_ascii_not_minus c c' : to_ascii c = Some c' -> not_minus c -> not_minus c'.
Proof.
  unfold to_ascii, not_minus.
  destruct (c <? 127)%N; [by intros [= <-]|].
  destruct (is_space c); [by intros [= <-]|].
  destruct (is_digit c); [|done]. intros [= <-] _. lia.
Qed.

Lemma mapM_to_ascii_not_minus s t :
  mapM to_ascii s = Some t -> Forall not_minus s -> Forall not_minus t.
Proof.
  intros H. apply mapM_Some in H.
  induction H as [|c c' s t Hc Hst IH]; intros Hs; [constructor|].
  apply Forall_cons in Hs as [? ?]. constructor; eauto using to_ascii_not_minus.
Qed.

Lemma lower_not_minus s : Forall not_minus s -> Forall not_minus (lower s).
Proof.
  induction 1 as [|c s Hc Hs IH]; [constructor|].
  unfold lower in *. simpl. apply Forall_app. split; [|done].
  unfold lower_char, not_minus in *.
  destruct (_ && _) eqn:E.
  - apply andb_true_iff in E as [E _]. apply N.leb_le in E.
    constructor; [lia|constructor].
  - destruct (c =? 8490)%N; [repeat constructor; lia|].
    destruct (c =? 304)%N; repeat constructor; lia.
Qed.

Lemma int_of_digits_nonneg s : 0 <= int_of_digits s.
Proof. apply int_of_digits_bound. Qed.

Lemma parse_number_nonneg s m e rest : parse_number s = Some (m, e, rest) -> 0 <= m.
Proof.
  unfold parse_number.
  destruct (span is_ascii_digit s) as [ip r].
  destruct (match r with [] => _ | _ => _ end) as [fp r1].
  destruct (ip ++ fp) eqn:E; [done|].
  destruct (parse_exponent r1). intros [= <- _ _]. apply int_of_digits_nonneg.
Qed.

Lemma float_of_body_nonneg body f :
  float_of_body false body = Some f -> nonneg f.
Proof.
  unfold float_of_body.
  destruct (parse_number body) as [[[m e] [|]]|] eqn:E; try done.
  - intros [= <-]. apply round_decimal_nonneg. by apply parse_number_nonneg in E.
  - repeat case_bool_decide; simpl; intros Hf; simplify_eq; done.
Qed.

Lemma split_sign_not_minus t :
  Forall not_minus t -> fst (split_sign t) = false.
Proof.
  intros H. destruct t as [|c r]; [done|].
  apply Forall_cons in H as [Hc _]. unfold not_minus in Hc. simpl.
  destruct (N.eqb_spec c 45); [done|]. by destruct (c =? 43)%N.
Qed.

(** [float] of a text without a minus sign is not negative. *)
Lemma py_float_nonneg s f :
  py_float s = Some f -> Forall not_minus s -> nonneg f.
Proof.
  unfold py_float. intros H Hs.
  apply bind_Some in H as (t & E1 & H). apply bind_Some in H as (t' & E2 & H).
  apply mapM_to_ascii_not_minus in E1; [|done].
  assert (H2 : Forall not_minus t').
  { destruct (one_of t 95%N); [|by injection E2 as <-].
    eapply drop_underscores_keeps; eauto. }
  assert (H3 : Forall not_minus (c_strip t')).
  { apply Forall_rev, span_keeps, Forall_rev, span_keeps, H2. }
  apply split_sign_not_minus in H3.
  destruct (split_sign (c_strip t')) as [neg body]. simpl in H3. subst neg.
  by apply float_of_body_nonneg in H.
Qed.

Lemma except_ValueError_Ok {A} (r : result A) d a :
  except_ValueError r d = Ok a -> r = Ok a \/ (r = Raise ValueError /\ a = d).
Proof.
  destruct r as [x|[]]; simpl; intros [= <-]; auto.
Qed.

Lemma scaled_metric_nonneg num scale n :
  Forall not_minus num -> 0 <= scale ->
  scaled_metric num scale = Ok n -> 0 <= n.
Proof.
  intros Hnum Hscale H. unfold scaled_metric in H.
  apply except_ValueError_Ok in H as [H|[_ ->]]; [|lia].
  destruct (py_float (fix_separator num)) as [f|] eqn:E; [|done].
  assert (Hf : nonneg f).
  { eapply py_float_nonneg; [exact E|].
    unfold fix_separator. change (u ".") with [46%N].
    destruct (_ && _); apply replace_char_keeps; auto.
    repeat constructor. unfold not_minus. lia. }
  eapply py_round_nonneg; [|exact H]. apply fmul_nonneg; [done|]. simpl. lia.
Qed.

(** A metric read from a text without a minus sign is not negative. *)
Lemma parse_int_metric_nonneg raw n :
  Forall not_minus raw -> parse_int_metric raw = Ok n -> 0 <= n.
Proof.
  intros Hraw. unfold parse_int_metric.
  assert (H0 : Forall not_minus (replace_char 34%N [] (normalize_text raw))).
  { apply replace_char_keeps; [constructor|]. by apply strip_keeps. }
  destruct (replace_char 34%N [] (normalize_text raw)) as [|c0 r0];
    [intros [= <-]; lia|].
  set (s1 := replace_char 32%N [] (c0 :: r0)).
  assert (H1 : Forall not_minus s1).
  { subst s1. apply replace_char_keeps; [by constructor|exact H0]. }
  assert (Hl : Forall not_minus (lower s1)) by by apply lower_not_minus.
  assert (Hgroup : forall sfx g, fullmatch (re_scaled sfx) (lower s1) = Some g ->
            Forall not_minus (List.nth 0 g [])).
  { intros sfx g Hg. apply fullmatch_sound in Hg.
    eapply matches_keeps in Hg; [|exact Hl].
    destruct g as [|x g]; [constructor|]. simpl. by apply Forall_cons in Hg as [? _]. }
  destruct (fullmatch (re_scaled 107%N) (lower s1)) as [g|] eqn:Ek.
  { apply scaled_metric_nonneg; [eauto|lia]. }
  destruct (fullmatch (re_scaled 109%N) (lower s1)) as [g|] eqn:Em.
  { apply scaled_metric_nonneg; [eauto|lia]. }
  intros H. apply except_ValueError_Ok in H as [H|[_ ->]]; [|lia].
  destruct (py_float (replace_char 44%N [] s1)) as [f|] eqn:E; [|done].
  eapply py_int_nonneg; [|exact H].
  eapply py_float_nonneg; [exact E|]. apply replace_char_keeps; [constructor|done].
Qed.
Lemma ascii_digit_range c : is_ascii_digit c = true <-> (48 <= c <= 57)%N.
Proof.
  unfold is_ascii_digit. rewrite andb_true_iff, !N.leb_le. done.
Qed.

Lemma ascii_digit_cases c :
  is_ascii_digit c = true -> In c [48; 49; 50; 51; 52; 53; 54; 55; 56; 57]%N.
Proof.
  rewrite ascii_digit_range. intros [H1 H2]. simpl.
  assert (c = 48 \/ c = 49 \/ c = 50 \/ c = 51 \/ c = 52 \/ c = 53 \/ c = 54
          \/ c = 55 \/ c = 56 \/ c = 57)%N by lia.
  intuition.
Qed.

Lemma ascii_digit_plain c :
  is_ascii_digit c = true ->
  plain_char c /\ is_digit c = true /\ digit_value c = (c - 48)%N /\ c <> 44%N /\ c <> 46%N.
Proof.
  intros H. apply ascii_digit_cases in H. simpl in H.
  repeat (destruct H as [<-|H]; [vm_compute; repeat split; congruence|]). done.
Qed.

Lemma plain_sep c : c = 44%N \/ c = 46%N -> plain_char c /\ is_ascii_digit c = false.
Proof. intros [-> | ->]; vm_compute; repeat split; congruence. Qed.

Lemma lower_app a b : lower (a ++ b) = lower a ++ lower b.
Proof. unfold lower. apply flat_map_app. Qed.

Lemma lower_plain s : Forall plain_char s -> lower s = s.
Proof.
  induction 1 as [|c s Hc Hs IH]; [done|].
  unfold lower in *. simpl. rewrite IH. destruct Hc as (_ & -> & _). done.
Qed.

Lemma mapM_to_ascii_plain s : Forall plain_char s -> mapM to_ascii s = Some s.
Proof.
  intros H. apply mapM_Some. induction H as [|c s Hc Hs IH]; constructor; auto.
  apply Hc.
Qed.

Lemma one_of_false cs s : Forall (fun c => ~ In c cs) s -> forallb (fun c => negb (one_of cs c)) s = true.
Proof.
  induction 1 as [|c s Hc Hs IH]; [done|]. simpl. rewrite IH, andb_true_r.
  apply negb_true_iff. unfold one_of.
  destruct (existsb (N.eqb c) cs) eqn:E; [|done].
  apply existsb_exists in E as (x & Hx & E). apply N.eqb_eq in E. by subst.
Qed.

Lemma span_app p a rest :
  Forall (fun c => p c = true) a -> stops p rest -> span p (a ++ rest) = (a, rest).
Proof.
  intros Ha Hr. induction Ha as [|c a Hc Ha IH]; simpl.
  - destruct rest as [|c rest]; [done|]. simpl in *. by rewrite Hr.
  - by rewrite Hc, IH.
Qed.

Lemma span_none p c s : p c = false -> span p (c :: s) = ([], c :: s).
Proof. intros H. simpl. by rewrite H. Qed.
Lemma one_of_none s x : Forall (fun c => c <> x) s -> one_of s x = false.
Proof.
  induction 1 as [|c s Hc Hs IH]; [done|].
  unfold one_of in *. simpl. rewrite IH, orb_false_r. by apply N.eqb_neq.
Qed.

Lemma c_strip_id c mid c' :
  is_c_space c = false -> is_c_space c' = false ->
  c_strip (c :: mid ++ [c']) = c :: mid ++ [c'].
Proof.
  intros H H'. unfold c_strip. rewrite span_none by done.
  unfold snd at 2.
  assert (Hrev : rev (c :: mid ++ [c']) = c' :: rev (c :: mid)).
  { rewrite app_comm_cons. by rewrite rev_app_distr. }
  rewrite Hrev, span_none by done. unfold snd.
  rewrite <- Hrev. apply rev_involutive.
Qed.

Lemma c_strip_id1 c : is_c_space c = false -> c_strip [c] = [c].
Proof.
  intros H. unfold c_strip. rewrite span_none by done. simpl.
  by rewrite H.
Qed.

(** A text that starts and ends with plain characters is read by [float]
    as its body, without sign. *)
Lemma py_float_plain s c mid c' :
  s = c :: mid ++ [c'] \/ (s = [c] /\ c' = c) ->
  Forall plain_char s ->
  py_float s = float_of_body false s.
Proof.
  intros Hs Hp. unfold py_float.
  rewrite mapM_to_ascii_plain by done. simpl.
  rewrite one_of_none by (eapply Forall_impl; [exact Hp|]; intros x Hx; apply Hx).
  simpl.
  assert (Hc : plain_char c /\ plain_char c').
  { destruct Hs as [-> | [-> ->]].
    - apply Forall_cons in Hp as [? Hp]. apply Forall_app in Hp as [_ Hp].
      by apply Forall_cons in Hp as [? _].
    - by apply Forall_cons in Hp as [? _]. }
  destruct Hc as [Hc Hc'].
  assert (Hstrip : c_strip s = s).
  { destruct Hs as [-> | [-> ->]].
    - apply c_strip_id; [apply Hc|apply Hc'].
    - apply c_strip_id1, Hc. }
  rewrite Hstrip.
  assert (Hsign : split_sign s = (false, s)).
  { destruct Hc as (_ & _ & _ & _ & _ & _ & _ & H45 & H43).
    destruct Hs as [-> | [-> ->]]; simpl;
      destruct (N.eqb_spec c 45); try done; destruct (N.eqb_spec c 43); done. }
  by rewrite Hsign.
Qed.

Lemma ascii_digits_plain s : Forall (fun c => is_ascii_digit c = true) s -> Forall plain_char s.
Proof. intros H. eapply Forall_impl; [exact H|]. intros c Hc. by apply ascii_digit_plain. Qed.

Lemma edges (s : str) : s <> [] ->
  exists c mid c', s = c :: mid ++ [c'] \/ (s = [c] /\ c' = c).
Proof.
  intros H. destruct s as [|c s]; [done|].
  destruct s as [|x s _] using rev_ind.
  - exists c, [], c. auto.
  - exists c, s, x. auto.
Qed.

Lemma float_of_body_decimal ip fp :
  ascii_digits ip -> ascii_digits fp ->
  float_of_body false (ip ++ 46%N :: fp)
  = Some (round_decimal (int_of_digits (ip ++ fp)) (- Z.of_nat (length fp))).
Proof.
  intros [Hip Nip] [Hfp Nfp]. unfold float_of_body, parse_number.
  rewrite span_app by (auto; by vm_compute).
  change (46 =? 46)%N with true. cbv beta iota.
  rewrite <- (app_nil_r fp) at 1. rewrite span_app by (auto; done).
  destruct (ip ++ fp) as [|d ds] eqn:E.
  { by destruct ip. }
  simpl parse_exponent. cbv beta iota. done.
Qed.

Lemma float_of_body_integer ip :
  ascii_digits ip ->
  float_of_body false ip = Some (round_decimal (int_of_digits ip) 0).
Proof.
  intros [Hip Nip]. unfold float_of_body, parse_number.
  rewrite <- (app_nil_r ip) at 1. rewrite span_app by (auto; done).
  rewrite app_nil_r.
  destruct ip as [|d ds] eqn:E; [done|].
  simpl parse_exponent. cbv beta iota. done.
Qed.

Lemma py_float_decimal ip fp :
  ascii_digits ip -> ascii_digits fp ->
  py_float (ip ++ 46%N :: fp)
  = Some (round_decimal (int_of_digits (ip ++ fp)) (- Z.of_nat (length fp))).
Proof.
  intros Hip Hfp.
  destruct (edges (ip ++ 46%N :: fp)) as (c & mid & c' & Hs); [by destruct ip|].
  rewrite (py_float_plain _ c mid c' Hs).
  - by apply float_of_body_decimal.
  - apply Forall_app. split; [apply ascii_digits_plain, Hip|].
    constructor; [apply plain_sep; auto|apply ascii_digits_plain, Hfp].
Qed.

Lemma py_float_integer ip :
  ascii_digits ip -> py_float ip = Some (round_decimal (int_of_digits ip) 0).
Proof.
  intros Hip.
  destruct (edges ip) as (c & mid & c' & Hs); [apply Hip|].
  rewrite (py_float_plain _ c mid c' Hs).
  - by apply float_of_body_integer.
  - apply ascii_digits_plain, Hip.
Qed.
Lemma nonempty_length (s : str) : s <> [] -> (1 <= length s)%nat.
Proof. destruct s; [done|simpl; lia]. Qed.

Lemma take_snoc_minus (s : str) (x : char) :
  List.firstn (length (s ++ [x]) - length [x]) (s ++ [x]) = s.
Proof. apply firstn_app_minus. Qed.

Lemma fullmatch_scaled_decimal x ip sep fp :
  ascii_digits ip -> ascii_digits fp -> sep = 44%N \/ sep = 46%N ->
  is_ascii_digit x = false ->
  fullmatch (re_scaled x) (ip ++ sep :: fp ++ [x]) = Some [ip ++ sep :: fp].
Proof.
  intros [Hip Nip] [Hfp Nfp] Hsep Hx. unfold fullmatch, re_scaled. cbn [run].
  assert (Hsepc : one_of (u ".,") sep = true) by (by destruct Hsep as [-> | ->]).
  assert (Hsepd : is_ascii_digit sep = false) by (by destruct Hsep as [-> | ->]).
  apply rep_greedy;
    [done|by apply nonempty_length|done|by right|].
  rewrite Hsepc.
  rewrite (rep_greedy is_ascii_digit fp 1 None [x] _ [ip ++ sep :: fp]);
    [done|done|by apply nonempty_length|done|by right|].
  unfold is_char. rewrite N.eqb_refl. simpl app at 1.
  replace (ip ++ sep :: fp ++ [x]) with ((ip ++ sep :: fp) ++ [x])
    by (by rewrite <- app_assoc).
  by rewrite take_snoc_minus.
Qed.

Lemma fullmatch_scaled_integer x ip :
  ascii_digits ip -> is_ascii_digit x = false -> one_of (u ".,") x = false ->
  fullmatch (re_scaled x) (ip ++ [x]) = Some [ip].
Proof.
  intros [Hip Nip] Hx Hxs. unfold fullmatch, re_scaled. cbn [run].
  apply rep_greedy;
    [done|by apply nonempty_length|done|by right|].
  rewrite Hxs. unfold is_char. rewrite N.eqb_refl. simpl app at 1.
  by rewrite take_snoc_minus.
Qed.

(** A text that does not end with the suffix letter is not matched. *)
Lemma fullmatch_scaled_other x s y :
  y <> x -> fullmatch (re_scaled x) (s ++ [y]) = None.
Proof.
  intros Hy. destruct (fullmatch (re_scaled x) (s ++ [y])) as [g|] eqn:E; [|done].
  apply fullmatch_sound in E. unfold re_scaled in E.
  inversion E; subst.
  match goal with H : matches (Chr _) _ _ |- _ => inversion H as [? c Hc| | | | | |]; subst end.
  match goal with H : _ ++ [_] = _ ++ [_] |- _ => apply app_inj_tail in H as [_ ->] end.
  unfold is_char in Hc. apply N.eqb_eq in Hc. done.
Qed.
Lemma In_occurs (x : char) (s : str) : occurs_in [x] s <-> In x s.
Proof.
  split.
  - intros (a & b & ->). apply in_app_iff. right. by left.
  - intros H. apply in_split in H as (a & b & ->). by exists a, b.
Qed.

Lemma ascii_digits_not x s :
  is_ascii_digit x = false -> Forall (fun c => is_ascii_digit c = true) s ->
  Forall (fun c => c <> x) s.
Proof.
  intros Hx H. eapply Forall_impl; [exact H|]. intros c Hc ->. congruence.
Qed.

Lemma fix_separator_decimal ip sep fp :
  ascii_digits ip -> ascii_digits fp -> sep = 44%N \/ sep = 46%N ->
  fix_separator (ip ++ sep :: fp) = ip ++ 46%N :: fp.
Proof.
  intros [Hip _] [Hfp _] Hsep. unfold fix_separator.
  change (u ",") with [44%N]. change (u ".") with [46%N].
  pose proof (ascii_digits_not 44%N ip eq_refl Hip) as Hip44.
  pose proof (ascii_digits_not 44%N fp eq_refl Hfp) as Hfp44.
  pose proof (ascii_digits_not 46%N ip eq_refl Hip) as Hip46.
  pose proof (ascii_digits_not 46%N fp eq_refl Hfp) as Hfp46.
  destruct Hsep as [-> | ->].
  - assert (H1 : contains [44%N] (ip ++ 44%N :: fp) = true).
    { apply contains_true. by exists ip, fp. }
    assert (H2 : contains [46%N] (ip ++ 44%N :: fp) = false).
    { apply contains_false. rewrite In_occurs, in_app_iff. simpl.
      rewrite List.Forall_forall in Hip46, Hfp46.
      intros [H|[H|H]]; [by apply Hip46 in H|done|by apply Hfp46 in H]. }
    rewrite H1, H2. simpl negb. simpl andb.
    rewrite replace_char_app, (replace_char_notin _ _ ip) by done.
    change (44%N :: fp) with ([44%N] ++ fp).
    rewrite replace_char_app, (replace_char_notin _ _ fp) by done. done.
  - assert (H1 : contains [44%N] (ip ++ 46%N :: fp) = false).
    { apply contains_false. rewrite In_occurs, in_app_iff. simpl.
      rewrite List.Forall_forall in Hip44, Hfp44.
      intros [H|[H|H]]; [by apply Hip44 in H|done|by apply Hfp44 in H]. }
    rewrite H1. simpl andb.
    apply replace_char_notin. apply Forall_app. split; [done|]. by constructor.
Qed.

Lemma fix_separator_integer ip : ascii_digits ip -> fix_separator ip = ip.
Proof.
  intros [Hip _]. unfold fix_separator. change (u ",") with [44%N].
  pose proof (ascii_digits_not 44%N ip eq_refl Hip) as Hip44.
  assert (H1 : contains [44%N] ip = false).
  { apply contains_false. rewrite In_occurs. rewrite List.Forall_forall in Hip44.
    intros H. by apply Hip44 in H. }
  rewrite H1. simpl andb. by apply replace_char_notin.
Qed.

Lemma scaled_metric_decimal ip sep fp scale :
  ascii_digits ip -> ascii_digits fp -> sep = 44%N \/ sep = 46%N ->
  scaled_metric (ip ++ sep :: fp) scale
  = scaled_value (int_of_digits (ip ++ fp)) (- Z.of_nat (length fp)) scale.
Proof.
  intros Hip Hfp Hsep. unfold scaled_metric, scaled_value.
  by rewrite fix_separator_decimal, py_float_decimal.
Qed.

Lemma scaled_metric_integer ip scale :
  ascii_digits ip ->
  scaled_metric ip scale = scaled_value (int_of_digits ip) 0 scale.
Proof.
  intros Hip. unfold scaled_metric, scaled_value.
  by rewrite fix_separator_integer, py_float_integer.
Qed.

(** The facts about a suffix letter that the parser relies on. *)
Lemma suffix_facts sfx scale :
  In (sfx, scale) suffix_scales ->
  is_space sfx = false /\ sfx <> 34%N /\ sfx <> 32%N /\
  ((lower_char sfx = [107%N] /\ scale = 1000) \/
   (lower_char sfx = [109%N] /\ scale = 1000000)).
Proof.
  simpl. intros H.
  repeat (destruct H as [[= <- <-]|H];
          [vm_compute; repeat split; (congruence || auto)|]). done.
Qed.

(** The common steps of the suffixed forms: for a text [num] of plain
    characters that starts with a digit, followed by the suffix letter. *)
Lemma parse_int_metric_suffixed num sfx scale c rest :
  num = c :: rest -> is_ascii_digit c = true ->
  Forall plain_char num ->
  In (sfx, scale) suffix_scales ->
  (forall x, x = 107%N \/ x = 109%N -> fullmatch (re_scaled x) (num ++ [x]) = Some [num]) ->
  parse_int_metric (num ++ [sfx]) = scaled_metric num scale.
Proof.
  intros Hnum Hc Hplain Hsfx Hmatch.
  destruct (suffix_facts _ _ Hsfx) as (Hsp & H34 & H32 & Hlow).
  assert (Hstrip : normalize_text (num ++ [sfx]) = num ++ [sfx]).
  { subst num. simpl. apply strip_id; [|done].
    by apply ascii_digit_plain in Hc as [[? _] _]. }
  assert (Hq : replace_char 34%N [] (num ++ [sfx]) = num ++ [sfx]).
  { apply replace_char_notin, Forall_app. split; [|by constructor].
    eapply Forall_impl; [exact Hplain|]. intros x Hx. apply Hx. }
  assert (Hs : replace_char 32%N [] (num ++ [sfx]) = num ++ [sfx]).
  { apply replace_char_notin, Forall_app. split; [|by constructor].
    eapply Forall_impl; [exact Hplain|]. intros x Hx. apply Hx. }
  unfold parse_int_metric. rewrite Hstrip, Hq.
  destruct (num ++ [sfx]) as [|y ys] eqn:E; [by destruct num|].
  cbv beta iota zeta. rewrite Hs, <- E, lower_app, lower_plain by done.
  change (lower [sfx]) with (lower_char sfx ++ []). rewrite app_nil_r.
  destruct Hlow as [[-> ->] | [-> ->]].
  - rewrite Hmatch by auto. done.
  - rewrite fullmatch_scaled_other by done. rewrite Hmatch by auto. done.
Qed.

Lemma parse_int_metric_decimal_suffix ip sep fp sfx scale :
  ascii_digits ip -> ascii_digits fp -> sep = 44%N \/ sep = 46%N ->
  In (sfx, scale) suffix_scales ->
  parse_int_metric (ip ++ sep :: fp ++ [sfx])
  = scaled_value (int_of_digits (ip ++ fp)) (- Z.of_nat (length fp)) scale.
Proof.
  intros Hip Hfp Hsep Hsfx.
  replace (ip ++ sep :: fp ++ [sfx]) with ((ip ++ sep :: fp) ++ [sfx])
    by (by rewrite <- app_assoc).
  destruct ip as [|c ip'] eqn:E; [by destruct Hip|]. rewrite <- E in *.
  rewrite (parse_int_metric_suffixed _ sfx scale c (ip' ++ sep :: fp)).
  - by apply scaled_metric_decimal.
  - by rewrite E.
  - destruct Hip as [Hip _]. rewrite E in Hip. by apply Forall_cons in Hip as [? _].
  - apply Forall_app. split; [apply ascii_digits_plain, Hip|].
    constructor; [by apply plain_sep|apply ascii_digits_plain, Hfp].
  - done.
  - intros x Hx. rewrite <- app_assoc. simpl.
    apply fullmatch_scaled_decimal; auto. by destruct Hx as [-> | ->].
Qed.

Lemma parse_int_metric_integer_suffix ip sfx scale :
  ascii_digits ip -> In (sfx, scale) suffix_scales ->
  parse_int_metric (ip ++ [sfx]) = scaled_value (int_of_digits ip) 0 scale.
Proof.
  intros Hip Hsfx.
  destruct ip as [|c ip'] eqn:E; [by destruct Hip|]. rewrite <- E in *.
  rewrite (parse_int_metric_suffixed _ sfx scale c ip').
  - by apply scaled_metric_integer.
  - done.
  - destruct Hip as [Hip _]. rewrite E in Hip. by apply Forall_cons in Hip as [? _].
  - apply ascii_digits_plain, Hip.
  - done.
  - intros x Hx. apply fullmatch_scaled_integer; auto;
      by destruct Hx as [-> | ->].
Qed.
(** *** Exact arithmetic on integers below 2^53 *)

Lemma round_half_even_exact b c : 0 < c -> round_half_even (b * c) c = b.
Proof.
  intros Hc. unfold round_half_even.
  rewrite Z.div_mul, Z.mod_mul by lia.
  destruct (Z.ltb_spec (2 * 0) c); [done|lia].
Qed.

Lemma log2_mul_pow2 a k : 0 < a -> 0 <= k -> Z.log2 (a * 2 ^ k) = Z.log2 a + k.
Proof. intros Ha Hk. rewrite Z.log2_mul_pow2 by done. lia. Qed.

Lemma floor_log2_dyadic a k :
  0 < a -> 0 <= k -> floor_log2 (a * 2 ^ k) (2 ^ k) = Z.log2 a.
Proof.
  intros Ha Hk. unfold floor_log2.
  rewrite log2_mul_pow2, Z.log2_pow2 by lia.
  replace (Z.log2 a + k - k) with (Z.log2 a) by lia.
  pose proof (Z.log2_nonneg a) as Hl.
  rewrite (Z.max_l _ 0), (Z.max_r _ 0) by lia.
  pose proof (Z.log2_spec a Ha) as [Hlo _].
  assert (0 < 2 ^ k) by (apply Z.pow_pos_nonneg; lia).
  destruct (Z.leb_spec (2 ^ k * 2 ^ Z.log2 a) (a * 2 ^ k * 2 ^ 0)); [done|].
  rewrite Z.pow_0_r in *. nia.
Qed.

(** An integer below 2^53 given as the fraction [a * 2^k / 2^k] is
    represented exactly. *)
Lemma round64_exact a k :
  0 < a < 2 ^ 53 -> 0 <= k ->
  round64 (a * 2 ^ k) (2 ^ k) = Fin (a * 2 ^ (52 - Z.log2 a)) (Z.log2 a - 52).
Proof.
  intros [Ha Hb] Hk.
  assert (Hk2 : 0 < 2 ^ k) by (apply Z.pow_pos_nonneg; lia).
  assert (Hl : 0 <= Z.log2 a < 53).
  { split; [apply Z.log2_nonneg|]. by apply Z.log2_lt_pow2. }
  unfold round64. destruct (a * 2 ^ k) as [|p|p] eqn:E; [nia| |nia].
  rewrite <- E. unfold round64_pos. rewrite floor_log2_dyadic by lia.
  rewrite Z.max_l by lia.
  destruct (Z.leb_spec 0 (Z.log2 a - 52)) as [Hq|Hq].
  - assert (Z.log2 a = 52) as -> by lia. simpl (52 - 52). simpl (2 ^ 0).
    rewrite !Z.mul_1_r, round_half_even_exact by done.
    destruct (Z.leb_spec (2 ^ 1024) a); [|done].
    assert (2 ^ 53 < 2 ^ 1024) by (apply Z.pow_lt_mono_r; lia). lia.
  - simpl andb. f_equal.
    replace (- (Z.log2 a - 52)) with (52 - Z.log2 a) by lia.
    replace (a * 2 ^ k * 2 ^ (52 - Z.log2 a)) with (a * 2 ^ (52 - Z.log2 a) * 2 ^ k) by lia.
    by apply round_half_even_exact.
Qed.

Lemma py_round_exact a :
  0 < a < 2 ^ 53 ->
  py_round (Fin (a * 2 ^ (52 - Z.log2 a)) (Z.log2 a - 52)) = Ok a.
Proof.
  intros [Ha Hb].
  assert (Hl : 0 <= Z.log2 a < 53).
  { split; [apply Z.log2_nonneg|]. by apply Z.log2_lt_pow2. }
  unfold py_round.
  destruct (Z.leb_spec 0 (Z.log2 a - 52)) as [Hq|Hq].
  - assert (Z.log2 a = 52) as -> by lia. f_equal. simpl. lia.
  - f_equal. replace (- (Z.log2 a - 52)) with (52 - Z.log2 a) by lia.
    assert (0 < 2 ^ (52 - Z.log2 a)) by (apply Z.pow_pos_nonneg; lia).
    rewrite Z.abs_eq, round_half_even_exact by nia.
    rewrite Z.sgn_pos by nia. lia.
Qed.

Lemma py_int_exact a :
  0 < a < 2 ^ 53 ->
  py_int (Fin (a * 2 ^ (52 - Z.log2 a)) (Z.log2 a - 52)) = Ok a.
Proof.
  intros [Ha Hb].
  assert (Hl : 0 <= Z.log2 a < 53).
  { split; [apply Z.log2_nonneg|]. by apply Z.log2_lt_pow2. }
  unfold py_int.
  destruct (Z.leb_spec 0 (Z.log2 a - 52)) as [Hq|Hq].
  - assert (Z.log2 a = 52) as -> by lia. f_equal. simpl. lia.
  - f_equal. replace (- (Z.log2 a - 52)) with (52 - Z.log2 a) by lia.
    assert (0 < 2 ^ (52 - Z.log2 a)) by (apply Z.pow_pos_nonneg; lia).
    apply Z.quot_mul. lia.
Qed.

Lemma round64_int a : 0 < a < 2 ^ 53 ->
  round64 a 1 = Fin (a * 2 ^ (52 - Z.log2 a)) (Z.log2 a - 52).
Proof.
  intros Ha. pose proof (round64_exact a 0 Ha ltac:(lia)) as H.
  by rewrite Z.pow_0_r, Z.mul_1_r in H.
Qed.

Lemma fmul_exact a s :
  0 < a < 2 ^ 53 -> 0 < a * s < 2 ^ 53 ->
  fmul (Fin (a * 2 ^ (52 - Z.log2 a)) (Z.log2 a - 52)) (of_int s)
  = Fin (a * s * 2 ^ (52 - Z.log2 (a * s))) (Z.log2 (a * s) - 52).
Proof.
  intros Ha Has.
  assert (Hl : 0 <= Z.log2 a < 53).
  { split; [apply Z.log2_nonneg|]. apply Z.log2_lt_pow2; lia. }
  unfold fmul, of_int, round_dyadic. rewrite Z.add_0_r.
  destruct (Z.leb_spec 0 (Z.log2 a - 52)) as [Hq|Hq].
  - assert (Z.log2 a = 52) as -> by lia. simpl (52 - 52). simpl (2 ^ 0).
    rewrite !Z.mul_1_r. by apply round64_int.
  - replace (- (Z.log2 a - 52)) with (52 - Z.log2 a) by lia.
    replace (a * 2 ^ (52 - Z.log2 a) * s) with (a * s * 2 ^ (52 - Z.log2 a)) by lia.
    apply round64_exact; lia.
Qed.

(** A whole number times the factor of its suffix, when the product is
    below 2^53, is computed exactly. *)
Lemma scaled_value_exact n scale :
  0 <= n -> 0 < scale -> n * scale < 2 ^ 53 ->
  scaled_value n 0 scale = Ok (n * scale).
Proof.
  intros Hn Hs Hb. unfold scaled_value, round_decimal.
  change (0 <=? 0) with true. cbv iota. rewrite Z.pow_0_r, Z.mul_1_r.
  destruct (Z.eq_dec n 0) as [->|Hn0].
  - by vm_compute.
  - assert (Ha : 0 < n < 2 ^ 53) by nia.
    rewrite round64_int, fmul_exact, py_round_exact by nia. done.
Qed.

Lemma plain_value_exact n :
  0 <= n < 2 ^ 53 -> py_int (round_decimal n 0) = Ok n.
Proof.
  intros [Hn Hb]. unfold round_decimal.
  change (0 <=? 0) with true. cbv iota. rewrite Z.pow_0_r, Z.mul_1_r.
  destruct (Z.eq_dec n 0) as [->|Hn0]; [done|].
  rewrite round64_int, py_int_exact by lia. done.
Qed.
(** The steps of the form without suffix, for a text of plain characters
    that ends with a digit. *)
Lemma parse_int_metric_unsuffixed num body c :
  num = body ++ [c] -> is_ascii_digit c = true ->
  Forall plain_char num ->
  parse_int_metric num
  = except_ValueError
      (match py_float (replace_char 44%N [] num) with
       | None => Raise ValueError
       | Some f => py_int f
       end) 0.
Proof.
  intros Hnum Hc Hplain.
  assert (Hstrip : normalize_text num = num).
  { unfold normalize_text, strip.
    destruct num as [|x xs] eqn:E; [done|].
    apply Forall_cons in Hplain as [Hx Hxs].
    rewrite lstrip_id by apply Hx. rewrite Hnum.
    apply rstrip_snoc. by apply ascii_digit_plain in Hc as [[? _] _]. }
  assert (Hq : replace_char 34%N [] num = num).
  { apply replace_char_notin.
    eapply Forall_impl; [exact Hplain|]. intros x Hx. apply Hx. }
  assert (Hs : replace_char 32%N [] num = num).
  { apply replace_char_notin.
    eapply Forall_impl; [exact Hplain|]. intros x Hx. apply Hx. }
  unfold parse_int_metric. rewrite Hstrip, Hq.
  destruct num as [|y ys] eqn:E; [by destruct body|].
  cbv beta iota zeta. rewrite Hs, lower_plain by done.
  rewrite Hnum.
  assert (Hk : c <> 107%N) by (intros ->; done).
  assert (Hm : c <> 109%N) by (intros ->; done).
  by rewrite !fullmatch_scaled_other.
Qed.

Lemma parse_int_metric_whole ip :
  ascii_digits ip ->
  parse_int_metric ip
  = except_ValueError (py_int (round_decimal (int_of_digits ip) 0)) 0.
Proof.
  intros Hip. destruct Hip as [Hip Nip].
  destruct ip as [|c body _] using rev_ind; [done|].
  rewrite (parse_int_metric_unsuffixed _ body c); auto.
  - rewrite replace_char_notin by by apply (ascii_digits_not 44%N).
    by rewrite py_float_integer.
  - apply Forall_app in Hip as [_ Hc]. by apply Forall_cons in Hc as [? _].
  - by apply ascii_digits_plain.
Qed.

(** In the form without suffix a comma is dropped: it separates
    thousands. *)
Lemma parse_int_metric_thousands a b :
  ascii_digits a -> ascii_digits b ->
  parse_int_metric (a ++ 44%N :: b) = parse_int_metric (a ++ b).
Proof.
  intros [Ha Na] [Hb Nb].
  assert (Hab : ascii_digits (a ++ b)).
  { split; [by apply Forall_app|by destruct a]. }
  rewrite (parse_int_metric_whole (a ++ b)) by done.
  destruct b as [|c body _] using rev_ind; [done|].
  apply Forall_app in Hb as [Hbody Hc]. apply Forall_cons in Hc as [Hc _].
  rewrite (parse_int_metric_unsuffixed _ (a ++ 44%N :: body) c).
  - rewrite replace_char_app, (replace_char_notin _ _ a)
      by by apply (ascii_digits_not 44%N).
    change (44%N :: body ++ [c]) with ([44%N] ++ body ++ [c]).
    rewrite replace_char_app, (replace_char_notin _ _ (body ++ [c])).
    + simpl. by rewrite py_float_integer.
    + apply (ascii_digits_not 44%N); [done|]. apply Forall_app. auto.
  - by rewrite <- app_assoc.
  - done.
  - apply Forall_app. split; [by apply ascii_digits_plain|].
    constructor; [apply plain_sep; auto|].
    apply ascii_digits_plain, Forall_app. auto.
Qed.
(** C6, as stated, fails: the text "-5" is read as the negative number
    -5. *)
Lemma parse_int_metric_negative :
  parse_int_metric (u "-5") = Ok (-5) /\
  ~ (exists n, parse_int_metric (u "-5") = Ok n /\ 0 <= n).
Proof.
  assert (H : parse_int_metric (u "-5") = Ok (-5)) by (by vm_compute).
  split; [done|]. intros (n & Hn & Hpos). rewrite H in Hn. injection Hn as <-. lia.
Qed.

(** Two more ways in which the parser departs from the stated contract:
    an infinite value is not caught, and a number without suffix is cut,
    not rounded. *)
Lemma parse_int_metric_inf_raises : parse_int_metric (u "inf") = Raise OverflowError.
Proof. by vm_compute. Qed.

Lemma parse_int_metric_truncates : parse_int_metric (u "9240.7") = Ok 9240.
Proof. by vm_compute. Qed.

(** C6, amended.  Whenever [parse_int_metric] returns, it returns an
    integer, and one that is not negative unless the text holds a minus
    sign.  A number followed by [k] or [m] in either case is scaled by 1,000
    or 1,000,000: its decimal point may be written [.] or [,], the binary64
    value nearest to the number is multiplied by the factor and the binary64
    product is rounded to the nearest integer, ties to even; a whole number
    whose product stays below 2^53 gives exactly that product.  Without a
    suffix commas are dropped as thousands separators and the value is cut
    toward zero, so a whole number below 2^53 is returned as it is and
    "9240.7" gives 9240.  "25,8k", "122.8k", "50k" and "9240" give 25800,
    122800, 50000 and 9240; the empty text and "abc" give 0. *)
Theorem parse_int_metric_contract :
  parse_int_metric (u "25,8k") = Ok 25800 /\
  parse_int_metric (u "122.8k") = Ok 122800 /\
  parse_int_metric (u "50k") = Ok 50000 /\
  parse_int_metric (u "9240") = Ok 9240 /\
  parse_int_metric (u "") = Ok 0 /\
  parse_int_metric (u "abc") = Ok 0 /\
  parse_int_metric (u "9240.7") = Ok 9240 /\
  (forall raw n,
     Forall not_minus raw -> parse_int_metric raw = Ok n -> 0 <= n) /\
  (forall ip sep fp sfx scale,
     ascii_digits ip -> ascii_digits fp -> sep = 44%N \/ sep = 46%N ->
     In (sfx, scale) suffix_scales ->
     parse_int_metric (ip ++ sep :: fp ++ [sfx])
     = scaled_value (int_of_digits (ip ++ fp)) (- Z.of_nat (length fp)) scale) /\
  (forall ip sfx scale,
     ascii_digits ip -> In (sfx, scale) suffix_scales ->
     int_of_digits ip * scale < 2 ^ 53 ->
     parse_int_metric (ip ++ [sfx]) = Ok (int_of_digits ip * scale)) /\
  (forall ip,
     ascii_digits ip -> int_of_digits ip < 2 ^ 53 ->
     parse_int_metric ip = Ok (int_of_digits ip)) /\
  (forall a b,
     ascii_digits a -> ascii_digits b ->
     parse_int_metric (a ++ 44%N :: b) = parse_int_metric (a ++ b)).
Proof.
  do 7 (split; [by vm_compute|]).
  split; [intros raw n; apply parse_int_metric_nonneg|].
  split; [apply parse_int_metric_decimal_suffix|].
  split; [|split; [|apply parse_int_metric_thousands]].
  - intros ip sfx scale Hip Hsfx Hb.
    rewrite (parse_int_metric_integer_suffix ip sfx scale) by done.
    apply scaled_value_exact; [apply int_of_digits_nonneg| |done].
    apply suffix_facts in Hsfx as (_ & _ & _ & [[_ ->]|[_ ->]]); lia.
  - intros ip Hip Hb. rewrite parse_int_metric_whole by done.
    rewrite plain_value_exact; [done|].
    split; [apply int_of_digits_nonneg|done].
Qed.

End MetricTheorems.

(** ** Reconciler *)

Module ReconcilerTheorems.

Lemma lookup_assign_if (cond : bool) (k : string) (v : value)
    (m : gmap string value) (k' : string) :
  assign_if cond k v m !! k'
  = if cond && bool_decide (k = k') then Some v else m !! k'.
Proof.
  unfold assign_if. destruct cond; simpl; [|done].
  case_bool_decide as E.
  - subst. apply lookup_insert_eq.
  - by apply lookup_insert_ne.
Qed.

Lemma set_influencer_updates now e handle contact_raw profile_url notes :
  set_influencer
    (<["updatedAt"%string := VText now]>
       (influencer_updates e handle contact_raw profile_url notes)) e
  = {| inf_id := inf_id e;
       inf_displayName := filled (inf_displayName e) (display_name_of handle);
       inf_handle := filled (inf_handle e) handle;
       inf_avatarData := inf_avatarData e;
       inf_contactMethod := filled (inf_contactMethod e) (fst (split_contact contact_raw));
       inf_contactInfo := filled (inf_contactInfo e) (snd (split_contact contact_raw));
       inf_notes := filled (inf_notes e) (normalize_text notes);
       inf_profileLink := filled (inf_profileLink e) (normalize_text profile_url);
       inf_createdAt := inf_createdAt e;
       inf_updatedAt := now |}.
Proof.
  unfold set_influencer, influencer_updates, filled.
  destruct (split_contact contact_raw) as [cm ci]. simpl fst. simpl snd.
  f_equal; rewrite ?lookup_insert_eq, ?lookup_insert_ne by done;
    rewrite ?lookup_assign_if, ?lookup_empty;
    repeat (case_bool_decide as X; [try discriminate X|try done]);
    rewrite ?andb_false_r, ?andb_true_r;
    try (by repeat destruct (_ && _)).
Qed.

Lemma assign_if_empty (cond : bool) (k : string) (v : value) (m : gmap string value) :
  assign_if cond k v m = ∅ <-> cond = false /\ m = ∅.
Proof.
  unfold assign_if. destruct cond.
  - split; [|by intros [? _]]. intros H. by apply insert_non_empty in H.
  - tauto.
Qed.

Lemma influencer_updates_empty e handle contact_raw profile_url notes :
  influencer_updates e handle contact_raw profile_url notes = ∅ <->
  blank (inf_displayName e) && truthy (display_name_of handle) = false /\
  blank (inf_handle e) && truthy handle = false /\
  blank (inf_contactMethod e) && truthy (fst (split_contact contact_raw)) = false /\
  blank (inf_contactInfo e) && truthy (snd (split_contact contact_raw)) = false /\
  blank (inf_profileLink e) && truthy (normalize_text profile_url) = false /\
  blank (inf_notes e) && truthy (normalize_text notes) = false.
Proof.
  unfold influencer_updates. destruct (split_contact contact_raw) as [cm ci].
  rewrite !assign_if_empty. simpl. tauto.
Qed.

Section Tables.
Context {R : Type} (key : R -> str).

Lemma select_first_In (c : R -> bool) t r :
  select_first c t = Some r -> In r t /\ c r = true.
Proof. apply find_some. Qed.

Lemma select_first_app (c : R -> bool) t t' :
  select_first c (t ++ t')
  = match select_first c t with Some r => Some r | None => select_first c t' end.
Proof.
  unfold select_first. induction t as [|r t IH]; simpl; [done|].
  by destruct (c r).
Qed.

Lemma update_where_keys (c : R -> bool) f t :
  (forall r, key (f r) = key r) ->
  List.map key (update_where c f t) = List.map key t.
Proof.
  intros Hf. unfold update_where. rewrite List.map_map.
  apply List.map_ext. intros r. by destruct (c r).
Qed.

(** With unique keys, the row read back after an update by key is the
    updated row. *)
Lemma select_updated i f t e :
  NoDup (List.map key t) -> In e t -> key e = i ->
  (forall r, key (f r) = key r) ->
  select_first (fun r => bool_decide (key r = i))
    (update_where (fun r => bool_decide (key r = i)) f t) = Some (f e).
Proof.
  intros Hnd Hin He Hf. induction t as [|r t IH]; [done|].
  simpl in Hnd. apply NoDup_cons in Hnd as [Hr Hnd].
  simpl. destruct (decide (key r = i)) as [Hk|Hk].
  - rewrite (bool_decide_eq_true_2 _ Hk).
    assert (r = e) as ->.
    { destruct Hin as [|Hin]; [done|]. exfalso. apply Hr.
      apply list_elem_of_In, in_map_iff. exists e. split; [congruence|done]. }
    by rewrite Hf, bool_decide_eq_true_2.
  - rewrite !(bool_decide_eq_false_2 _ Hk).
    destruct Hin as [->|Hin]; [done|]. by apply IH.
Qed.

Lemma update_where_other (c : R -> bool) f t r :
  In r t -> c r = false -> In r (update_where c f t).
Proof.
  intros Hin Hc. unfold update_where. apply in_map_iff. exists r.
  by rewrite Hc.
Qed.

End Tables.

(** *** More on stripping *)

Lemma lstrip_head s :
  lstrip s = [] \/ exists c r, lstrip s = c :: r /\ is_space c = false.
Proof.
  induction s as [|c s IH]; simpl; [by left|].
  destruct (is_space c) eqn:E; [done|]. right. eauto.
Qed.

Lemma lstrip_snoc a c :
  is_space c = false -> exists a', lstrip (a ++ [c]) = a' ++ [c].
Proof.
  intros Hc. induction a as [|x a [a' IH]]; simpl.
  - rewrite Hc. by exists [].
  - destruct (is_space x); [eauto|]. by exists (x :: a).
Qed.

(** The shape of a stripped text: empty, or with a first and a last
    character that are not spaces. *)
Lemma strip_shape s :
  strip s = [] \/
  (exists c, strip s = [c] /\ is_space c = false) \/
  (exists c mid c', strip s = c :: mid ++ [c'] /\ is_space c = false /\ is_space c' = false).
Proof.
  unfold strip, rstrip.
  destruct (lstrip_head s) as [->|(c & r & -> & Hc)]; [by left|].
  right.
  assert (Hrev : rev (c :: r) = rev r ++ [c]) by done.
  destruct (lstrip_snoc (rev r) c Hc) as [a' Ha]. rewrite Hrev, Ha.
  rewrite rev_app_distr. simpl.
  destruct (lstrip_head (rev r ++ [c])) as [E|(c' & r' & E & Hc')].
  { rewrite Ha in E. by destruct a'. }
  rewrite Ha in E.
  destruct a' as [|x a'].
  - left. exists c. done.
  - right. injection E as -> _. exists c, (rev a'), c'. done.
Qed.

Lemma strip_idem s : strip (strip s) = strip s.
Proof.
  destruct (strip_shape s) as [->|[(c & -> & Hc)|(c & mid & c' & -> & Hc & Hc')]].
  - done.
  - by apply strip_id1.
  - by apply strip_id.
Qed.

Lemma normalize_text_idem s : normalize_text (normalize_text s) = normalize_text s.
Proof. apply strip_idem. Qed.





Lemma find_booking_In d video_link handle post_date store_id source_type external_key e :
  find_booking d video_link handle post_date store_id source_type external_key = Some e ->
  In e (bookings d).
Proof.
  unfold find_booking, find_booking_by_video_link.
  repeat match goal with
  | |- context [select_first ?c ?t] =>
      let E := fresh "E" in
      destruct (select_first c t) eqn:E; [apply select_first_In in E as [? _]|]
  | |- context [if ?b then _ else _] => destruct b
  | |- context [match ?x with [] => _ | _ :: _ => _ end] => destruct x
  end; intros; simplify_eq; done.
Qed.




(** C5.  [upsert_traffic_for_booking] leaves the database as it is and
    reports neither a create nor an update when the five metrics are all
    zero, and also when the snapshot of the booking already holds the five
    incoming metrics, the booking's post date and video link, and the
    incoming note: no record is touched, so the capture time stands. *)
Theorem upsert_traffic_noops (now new_id : str) (d : db) (booking_row : booking)
    (views likes comments saves shares : Z) (note : str) :
  (views = 0%Z /\ likes = 0%Z /\ comments = 0%Z /\ saves = 0%Z /\ shares = 0%Z ->
   upsert_traffic_for_booking now new_id d booking_row views likes comments saves
     shares note = Ok (d, (false, false))) /\
  (forall existing,
     select_first (fun t => bool_decide (tr_bookingId t = bk_id booking_row))
       (traffic_logs d) = Some existing ->
     tr_views existing = views /\ tr_likes existing = likes /\
     tr_comments existing = comments /\ tr_saves existing = saves /\
     tr_shares existing = shares /\
     tr_postDate existing = bk_postDate booking_row /\
     tr_videoLink existing = bk_videoLink booking_row /\
     tr_note existing = note ->
     upsert_traffic_for_booking now new_id d booking_row views likes comments saves
       shares note = Ok (d, (false, false))).
Proof.
  split.
  - intros (-> & -> & -> & -> & ->). reflexivity.
  - intros existing Hsel (<- & <- & <- & <- & <- & Hp & Hv & <-).
    unfold upsert_traffic_for_booking.
    destruct (_ <=? 0)%Z; [done|].
    rewrite Hsel, !Z.eqb_refl, Hp, Hv. simpl.
    by rewrite !bool_decide_eq_true_2.
Qed.


Lemma find_influencer_by_handle_Some d handle e :
  find_influencer_by_handle d handle = Some e ->
  In e (influencers d) /\ inf_handle e = handle /\ handle <> [].
Proof.
  unfold find_influencer_by_handle. destruct handle as [|c h]; [done|].
  intros H. apply select_first_In in H as [Hin Hc].
  apply bool_decide_eq_true in Hc. done.
Qed.

(** C2.  When the handle lookup finds an influencer (and ids are unique,
    as the primary key makes them), [create_or_patch_influencer] never
    creates; the row it returns, which is the row now stored, has each of
    display name, handle, contact method, contact info, profile link and
    notes equal to its old value unless the old value was blank (empty once
    trimmed) and the candidate from the incoming row is not empty, in which
    case it holds the candidate; so non-blank notes are kept whatever notes
    the row carries.  Id, avatar and creation time are kept, every other
    influencer and the other two tables are untouched, and when no field
    qualifies the call reports unchanged and returns the database and the
    row as they were. *)
Theorem influencer_merge_never_clobbers (now new_id : str) (d : db)
    (handle contact_raw profile_url notes : str) (existing : influencer) :
  find_influencer_by_handle d handle = Some existing ->
  NoDup (List.map inf_id (influencers d)) ->
  exists d' row patched,
    create_or_patch_influencer now new_id d handle contact_raw profile_url notes
    = Ok (d', (row, patched, false)) /\
    inf_displayName row = filled (inf_displayName existing) (display_name_of handle) /\
    inf_handle row = filled (inf_handle existing) handle /\
    inf_contactMethod row
    = filled (inf_contactMethod existing) (fst (split_contact contact_raw)) /\
    inf_contactInfo row
    = filled (inf_contactInfo existing) (snd (split_contact contact_raw)) /\
    inf_profileLink row = filled (inf_profileLink existing) (normalize_text profile_url) /\
    inf_notes row = filled (inf_notes existing) (normalize_text notes) /\
    (blank (inf_notes existing) = false -> inf_notes row = inf_notes existing) /\
    inf_id row = inf_id existing /\
    inf_avatarData row = inf_avatarData existing /\
    inf_createdAt row = inf_createdAt existing /\
    (patched = false <->
     blank (inf_displayName existing) && truthy (display_name_of handle) = false /\
     blank (inf_handle existing) && truthy handle = false /\
     blank (inf_contactMethod existing) && truthy (fst (split_contact contact_raw)) = false /\
     blank (inf_contactInfo existing) && truthy (snd (split_contact contact_raw)) = false /\
     blank (inf_profileLink existing) && truthy (normalize_text profile_url) = false /\
     blank (inf_notes existing) && truthy (normalize_text notes) = false) /\
    (patched = false -> d' = d /\ row = existing) /\
    select_first (has_id_inf (inf_id existing)) (influencers d') = Some row /\
    (forall r, In r (influencers d) -> inf_id r <> inf_id existing ->
               In r (influencers d')) /\
    List.map inf_id (influencers d') = List.map inf_id (influencers d) /\
    bookings d' = bookings d /\ traffic_logs d' = traffic_logs d.
Proof.
  intros Hfind Hnd.
  pose proof (find_influencer_by_handle_Some _ _ _ Hfind) as (Hin & Hh & Hne).
  pose proof (influencer_updates_empty existing handle contact_raw profile_url notes)
    as Hempty.
  unfold create_or_patch_influencer. rewrite Hfind.
  case_bool_decide as Hupd.
  - (* nothing to write *)
    apply Hempty in Hupd as (H1 & H2 & H3 & H4 & H5 & H6).
    exists d, existing, false. unfold filled.
    rewrite H1, H2, H3, H4, H5, H6.
    repeat split; try done.
    apply (select_updated inf_id (inf_id existing) (fun r => r)) in Hin; try done.
    unfold update_where in Hin.
    rewrite (List.map_ext _ id), List.map_id in Hin; [done|].
    intros r. by destruct (bool_decide _).
  - (* some field is filled *)
    set (upd := <["updatedAt"%string := VText now]> _).
    assert (Hsel : select_first (has_id_inf (inf_id existing))
                     (update_where (has_id_inf (inf_id existing)) (set_influencer upd)
                        (influencers d)) = Some (set_influencer upd existing)).
    { apply (select_updated inf_id); auto. }
    rewrite Hsel. simpl default.
    eexists _, _, true. split; [reflexivity|].
    subst upd. rewrite set_influencer_updates. simpl.
    repeat split; try done.
    + intros Hb. unfold filled. by rewrite Hb.
    + intros H. by apply Hempty in H.
    + rewrite Hsel. by rewrite set_influencer_updates.
    + intros r Hr Hid. apply update_where_other; [done|].
      unfold has_id_inf. by apply bool_decide_eq_false_2.
    + by apply update_where_keys.
Qed.

Lemma assign_if_nonempty (cond : bool) (k : string) (v : value) (m : gmap string value) :
  m <> ∅ -> assign_if cond k v m <> ∅.
Proof. intros Hm H. apply assign_if_empty in H as [_ H]. done. Qed.





Lemma influencer_merge_never_clobbers_witness :
  exists d' row patched,
    create_or_patch_influencer later (u "inf-2") small_db (u "@alice") (u "zalo")
      (u "https://www.tiktok.com/@alice") (u "new notes")
    = Ok (d', (row, patched, false)) /\
    inf_notes row = u "met at the fair".
Proof.
  destruct (influencer_merge_never_clobbers later (u "inf-2") small_db (u "@alice")
              (u "zalo") (u "https://www.tiktok.com/@alice") (u "new notes") alice)
    as (d' & row & patched & H & _ & _ & _ & _ & _ & _ & Hnotes & _).
  - vm_compute. reflexivity.
  - apply NoDup_singleton.
  - exists d', row, patched. split; [exact H|]. apply Hnotes. vm_compute. reflexivity.
Defined.

(** C3: the lookup for a second video of the same creator, posted on the
    same day for the same store, falls through to the handle, post date,
    store and source type of the booking of the first video, although a
    video link was given and differs. *)
Lemma find_booking_falls_back_despite_link :
  find_booking small_db (u "https://www.tiktok.com/@alice/video/2") (u "@alice")
    (u "2023-12-21") (u "store-mlzg") scheduled []
  = Some video1 /\
  bk_videoLink video1 <> u "https://www.tiktok.com/@alice/video/2".
Proof. split; by vm_compute. Qed.

End ReconcilerTheorems.

(** ** The import run twice *)

Module DriverTheorems.
Import ReconcilerTheorems.

(** *** Texts that trimming leaves alone *)

Lemma lstrip_nospace s : nospace s -> lstrip s = s.
Proof. intros H. destruct H as [|c s Hc _]; [done|]. by apply lstrip_id. Qed.

Lemma strip_nospace s : nospace s -> strip s = s.
Proof.
  intros H. unfold strip, rstrip. rewrite (lstrip_nospace s H).
  rewrite lstrip_nospace.
  - apply rev_involutive.
  - by apply Forall_rev.
Qed.

Lemma dash_digit_not_space c : (45 <= c <= 57)%N -> is_space c = false.
Proof.
  intros Hc. destruct (is_space c) eqn:Hs; [|done].
  apply is_space_In in Hs.
  assert (H : forallb (fun w => negb ((45 <=? w)%N && (w <=? 57)%N)) spaces = true)
    by (vm_compute; reflexivity).
  rewrite forallb_forall in H. apply H in Hs.
  apply negb_true_iff, andb_false_iff in Hs.
  destruct Hs as [Hs|Hs]; [apply N.leb_gt in Hs|apply N.leb_gt in Hs]; lia.
Qed.

Lemma dec_fuel_nospace fuel : forall n acc,
  nospace acc -> nospace (dec_fuel fuel n acc).
Proof.
  induction fuel as [|f IH]; intros n acc Hacc; cbn [dec_fuel]; [done|].
  assert (Hd : nospace ((48 + n mod 10)%N :: acc)).
  { constructor; [|done]. apply dash_digit_not_space.
    assert (n mod 10 < 10)%N as Hm by (apply N.mod_upper_bound; lia).
    revert Hm. generalize (n mod 10)%N. intros x Hx. lia. }
  destruct (n / 10 =? 0)%N; [done|]. by apply IH.
Qed.

Lemma repeat_nospace k : nospace (repeat 48%N k).
Proof. induction k; simpl; constructor; [by apply dash_digit_not_space|done]. Qed.

Lemma fmt_d_nospace w z : nospace (fmt_d w z).
Proof.
  unfold fmt_d.
  assert (Hd : nospace (dec (Z.to_N (Z.abs z)))) by (apply dec_fuel_nospace; constructor).
  destruct (z <? 0)%Z.
  - constructor; [by apply dash_digit_not_space|].
    apply Forall_app_2; [apply repeat_nospace|done].
  - apply Forall_app_2; [apply repeat_nospace|done].
Qed.

Lemma iso_format_nospace y mo d : nospace (iso_format y mo d).
Proof.
  unfold iso_format.
  repeat (apply Forall_app_2); try apply fmt_d_nospace;
    (constructor; [by apply dash_digit_not_space|constructor]).
Qed.

Lemma to_iso_date_nospace value p : nospace (to_iso_date value p).
Proof.
  unfold to_iso_date.
  destruct (normalize_text value); [constructor|].
  destruct (search re_ymd _); [apply iso_format_nospace|].
  destruct (search re_dmy _).
  { destruct (day_month _ _ _). apply iso_format_nospace. }
  destruct (search re_cn _); [apply iso_format_nospace|constructor].
Qed.

Lemma parse_day_month_with_year_nospace value y p :
  nospace (parse_day_month_with_year value y p).
Proof.
  unfold parse_day_month_with_year.
  destruct (normalize_text value); [constructor|].
  destruct (search re_dm _); [|constructor].
  destruct (day_month _ _ _). apply iso_format_nospace.
Qed.

Lemma parse_post_date_nospace value cy fy : nospace (parse_post_date value cy fy).
Proof.
  unfold parse_post_date.
  destruct (normalize_text value) as [|c raw]; [constructor|].
  pose proof (to_iso_date_nospace (c :: raw) true) as H.
  destruct (to_iso_date (c :: raw) true); [|done].
  destruct (truthy_year _); [|constructor].
  apply parse_day_month_with_year_nospace.
Qed.

(** A date the import parsed is left alone by a further trim. *)
Lemma parse_post_date_trimmed value cy fy :
  normalize_text (parse_post_date value cy fy) = parse_post_date value cy fy.
Proof. apply strip_nospace, parse_post_date_nospace. Qed.

(** *** Texts that end in a character that is not a space *)

Lemma strip_ends s : strip s <> [] -> ends_nonspace (strip s).
Proof.
  destruct (strip_shape s) as [->|[(c & -> & Hc)|(c & mid & c' & -> & Hc & Hc')]].
  - done.
  - intros _. by exists [], c.
  - intros _. by exists (c :: mid), c'.
Qed.

Lemma lstrip_char_suffix x s : exists a, s = a ++ lstrip_char x s.
Proof.
  induction s as [|c s [a IH]]; simpl; [by exists []|].
  destruct (c =? x)%N.
  - exists (c :: a). simpl. by rewrite <- IH.
  - by exists [].
Qed.

Lemma lstrip_char_idem x s : lstrip_char x (lstrip_char x s) = lstrip_char x s.
Proof.
  induction s as [|c s IH]; simpl; [done|].
  destruct (c =? x)%N eqn:E; [done|]. simpl. by rewrite E.
Qed.

Lemma suffix_ends (a s : str) : s <> [] -> ends_nonspace (a ++ s) -> ends_nonspace s.
Proof.
  intros Hs (y & c & E & Hc).
  destruct (exists_last Hs) as (s' & c' & ->).
  rewrite app_assoc in E. apply app_inj_tail in E as [_ ->].
  by exists s', c.
Qed.

Lemma ends_strip_nonempty s : ends_nonspace s -> strip s <> [].
Proof.
  intros (y & c & -> & Hc). unfold strip.
  destruct (lstrip_snoc y c Hc) as [a' ->].
  rewrite rstrip_snoc by done. by destruct a'.
Qed.

Lemma strip_cons_ends c s :
  is_space c = false -> ends_nonspace s -> strip (c :: s) = c :: s.
Proof. intros Hc (y & c' & -> & Hc'). by apply strip_id. Qed.

(** A text that a trim produced, if it is not empty, is not blank. *)
Lemma normalized_not_blank s : normalize_text s <> [] -> blank (normalize_text s) = false.
Proof.
  intros H. unfold blank. rewrite normalize_text_idem.
  by destruct (normalize_text s).
Qed.

Lemma trimmed_not_blank s : normalize_text s = s -> s <> [] -> blank s = false.
Proof. intros E H. rewrite <- E. apply normalized_not_blank. by rewrite E. Qed.

Lemma truthy_true (s : str) : truthy s = true <-> s <> [].
Proof. by destruct s. Qed.

Lemma truthy_false (s : str) : truthy s = false <-> s = [].
Proof. by destruct s. Qed.

(** *** The handle of a record *)

Lemma parse_tiktok_handle_good p :
  parse_tiktok_handle p <> [] -> good_handle (parse_tiktok_handle p).
Proof.
  unfold parse_tiktok_handle.
  destruct (normalize_text p) as [|c0 s0]; [done|].
  destruct (search re_handle (c0 :: s0)) as [m|]; [|done].
  destruct (lstrip_char 64%N (strip (group m 1))) as [|c x] eqn:E; [done|].
  intros _.
  assert (Hends : ends_nonspace (c :: x)).
  { destruct (lstrip_char_suffix 64%N (strip (group m 1))) as [a Ha].
    rewrite E in Ha. apply (suffix_ends a); [done|].
    rewrite <- Ha. apply strip_ends. rewrite Ha. by destruct a. }
  assert (Hx : lstrip_char 64%N (c :: x) = c :: x).
  { rewrite <- E. apply lstrip_char_idem. }
  split; [done|]. split.
  - apply strip_cons_ends; [by vm_compute|done].
  - change (display_name_of (64%N :: c :: x)) with (lstrip_char 64%N (c :: x)).
    rewrite Hx.
    unfold blank, normalize_text.
    pose proof (ends_strip_nonempty _ Hends) as H.
    by destruct (strip (c :: x)).
Qed.

Lemma good_handle_not_blank h : good_handle h -> blank h = false.
Proof. intros (H1 & H2 & _). by apply trimmed_not_blank. Qed.

(** *** The candidates of a record are empty or not blank *)

Lemma lower_word_not_blank s :
  s ∈ contact_words -> blank s = false.
Proof.
  unfold contact_words. intros H.
  repeat (apply elem_of_cons in H as [->|H]; [by vm_compute|]).
  by apply elem_of_nil in H.
Qed.

Lemma normalize_contact_method_not_blank raw :
  normalize_contact_method raw <> [] -> blank (normalize_contact_method raw) = false.
Proof.
  unfold normalize_contact_method.
  destruct (normalize_text raw) as [|c s] eqn:E; [done|].
  case_bool_decide as Hw.
  - case_bool_decide; [by vm_compute|]. intros _. by apply lower_word_not_blank.
  - intros _. rewrite <- E. apply normalized_not_blank. by rewrite E.
Qed.

Lemma split_contact_not_blank raw cm ci :
  split_contact raw = (cm, ci) ->
  (cm = [] \/ blank cm = false) /\ (ci = [] \/ blank ci = false).
Proof.
  unfold split_contact. intros H.
  pose proof (normalize_contact_method_not_blank raw) as Hn.
  destruct (normalize_contact_method raw) as [|c s] eqn:E.
  - simpl in H. injection H as <- <-. by split; left.
  - destruct (_ && _); injection H as <- <-.
    + split; [by left|right; by apply Hn].
    + split; [right; by apply Hn|by left].
Qed.

(** *** The influencer of a record *)



Lemma kept_or_filled_filled old cand :
  cand = [] \/ blank cand = false -> kept_or_filled old (filled old cand).
Proof.
  intros H. unfold kept_or_filled, filled.
  destruct (blank old) eqn:Ho; [|by left].
  destruct cand as [|c cand]; [by left|]. simpl.
  right. destruct H as [H|H]; done.
Qed.

Lemma filled_saturated old cand :
  cand = [] \/ blank cand = false -> blank (filled old cand) && truthy cand = false.
Proof.
  intros H. unfold filled.
  destruct (blank old) eqn:Ho; simpl; [|by rewrite Ho].
  destruct cand as [|c cand]; simpl; [by rewrite andb_false_r|].
  destruct H as [H|H]; [done|]. by rewrite H.
Qed.

Lemma kept_saturated old new cand :
  kept_or_filled old new ->
  blank old && truthy cand = false -> blank new && truthy cand = false.
Proof. intros [->|[_ ->]]; done. Qed.

Lemma normalize_profile_not_blank p :
  normalize_text p = [] \/ blank (normalize_text p) = false.
Proof.
  destruct (normalize_text p) eqn:E; [by left|]. right.
  rewrite <- E. apply normalized_not_blank. by rewrite E.
Qed.

Section Candidates.
Context (h c p : str) (Hgood : good_handle h).

Lemma candidates_not_blank :
  (display_name_of h = [] \/ blank (display_name_of h) = false) /\
  (fst (split_contact c) = [] \/ blank (fst (split_contact c)) = false) /\
  (snd (split_contact c) = [] \/ blank (snd (split_contact c)) = false) /\
  (normalize_text p = [] \/ blank (normalize_text p) = false).
Proof.
  destruct Hgood as (_ & _ & Hd).
  destruct (split_contact c) as [cm ci] eqn:E.
  apply split_contact_not_blank in E as [E1 E2].
  split; [by right|]. split; [done|]. split; [done|].
  apply normalize_profile_not_blank.
Qed.




End Candidates.

Lemma NoDup_same_key {R} (key : R -> str) t (e r : R) :
  NoDup (List.map key t) -> In e t -> In r t -> key r = key e -> r = e.
Proof.
  intros Hnd. induction t as [|x t IH]; [done|].
  simpl in Hnd. apply NoDup_cons in Hnd as [Hx Hnd].
  intros [->|He] [->|Hr] Hk; try done.
  - exfalso. apply Hx, list_elem_of_In, in_map_iff. exists r. done.
  - exfalso. apply Hx, list_elem_of_In, in_map_iff. exists e. done.
  - by apply IH.
Qed.

Lemma select_first_map {R} (c : R -> bool) (g : R -> R) t :
  (forall r, In r t -> c (g r) = c r) ->
  select_first c (List.map g t) = option_map g (select_first c t).
Proof.
  unfold select_first. induction t as [|r t IH]; intros H; [done|].
  simpl. rewrite (H r) by (by left).
  destruct (c r); [done|]. apply IH. intros x Hx. apply H. by right.
Qed.

Lemma insert_row_Ok {R} (key : R -> str) (r : R) t t' :
  insert_row key r t = Ok t' ->
  t' = t ++ [r] /\ ~ In (key r) (List.map key t).
Proof.
  unfold insert_row. destruct (existsb _ t) eqn:E; [done|].
  intros [= <-]. split; [done|].
  intros Hin. apply in_map_iff in Hin as (x & Hk & Hx).
  assert (existsb (fun x => bool_decide (key x = key r)) t = true); [|congruence].
  apply existsb_exists. exists x. split; [done|]. by apply bool_decide_eq_true_2.
Qed.

Lemma insert_row_fresh {R} (key : R -> str) (r : R) t :
  ~ In (key r) (List.map key t) -> insert_row key r t = Ok (t ++ [r]).
Proof.
  intros H. unfold insert_row. destruct (existsb _ t) eqn:E; [|done].
  exfalso. apply H. apply existsb_exists in E as (x & Hx & Hk).
  apply bool_decide_eq_true in Hk. apply in_map_iff. by exists x.
Qed.

Lemma select_first_new {R} (key : R -> str) (r : R) t :
  ~ In (key r) (List.map key t) ->
  select_first (fun x => bool_decide (key x = key r)) (t ++ [r]) = Some r.
Proof.
  intros H. rewrite select_first_app.
  destruct (select_first _ t) as [x|] eqn:E.
  - apply select_first_In in E as [Hx Hk]. apply bool_decide_eq_true in Hk.
    exfalso. apply H, in_map_iff. by exists x.
  - simpl. by rewrite bool_decide_eq_true_2.
Qed.





(** *** The booking of a record *)









Lemma effective_source_type_cases st :
  effective_source_type_of st = scheduled \/ effective_source_type_of st = organic.
Proof.
  unfold effective_source_type_of.
  case_bool_decide as H1; [by left|]. case_bool_decide as H2; [by right|]. by left.
Qed.

Lemma effective_source_type_trimmed st :
  normalize_text (effective_source_type_of st) = effective_source_type_of st /\
  effective_source_type_of st <> [].
Proof. destruct (effective_source_type_cases st) as [-> | ->]; by vm_compute. Qed.




(** *** One record of the import *)

Lemma import_item_eq a mode w d entry :
  import_item a mode w d entry =
  ('(d1, (ir, patched, created)) ←
     create_or_patch_influencer (now_influencer w) (id_influencer w) d
       (entry_handle entry) (contact_raw (snd entry)) (profile_url (snd entry)) [];
   '(d2, (b, cb, su)) ← entry_booking a mode w d1 ir entry;
   '(v, l, c, s, sh) ← entry_metrics entry;
   '(d3, (ct, ut)) ←
     upsert_traffic_for_booking (now_traffic w) (id_traffic w) d2 b v l c s sh [];
   Ok (d3, outcome_of created patched b cb su ct ut)).
Proof.
  destruct entry as [cy item].
  unfold import_item, entry_booking, entry_visit, entry_metrics, entry_handle,
    entry_post_date. cbn [fst snd].
  destruct (create_or_patch_influencer _ _ _ _ _ _ _) as [[d1 [[ir patched] created]]|x];
    [|done].
  cbn [mbind result_bind bind].
  destruct mode; cbv beta iota zeta.
  - destruct (parse_visit_date_and_window _ _ _) as [vd vw]. cbv beta iota zeta.
    destruct (create_or_update_booking _ _ _ _ _ _ _ _ _ _ _ _ _ _ _ _ _ _)
      as [[d2 [[b cb] su]]|x]; [|done].
    cbn [mbind result_bind bind].
    destruct (parse_int_metric (views_raw item)); [|done].
    destruct (parse_int_metric (likes_raw item)); [|done].
    destruct (parse_int_metric (comments_raw item)); [|done].
    destruct (parse_int_metric (saves_raw item)); [|done].
    destruct (parse_int_metric (shares_raw item)); [|done].
    done.
  - destruct (create_or_update_booking _ _ _ _ _ _ _ _ _ _ _ _ _ _ _ _ _ _)
      as [[d2 [[b cb] su]]|x]; [|done].
    cbn [mbind result_bind bind].
    destruct (parse_int_metric (views_raw item)); [|done].
    destruct (parse_int_metric (likes_raw item)); [|done].
    destruct (parse_int_metric (comments_raw item)); [|done].
    destruct (parse_int_metric (saves_raw item)); [|done].
    destruct (parse_int_metric (shares_raw item)); [|done].
    done.
Qed.

Lemma bind_Ok {A B} (r : result A) (f : A -> result B) b :
  r ≫= f = Ok b <-> exists a, r = Ok a /\ f a = Ok b.
Proof.
  destruct r as [a|x]; simpl; split.
  - intros H. by exists a.
  - by intros (a' & [= <-] & H).
  - done.
  - by intros (a' & [=] & _).
Qed.

(** *** The traffic snapshot of a record *)


Lemma select_first_exists {R} (c : R -> bool) t x :
  In x t -> c x = true -> is_Some (select_first c t).
Proof.
  intros Hx Hc. unfold select_first.
  destruct (List.find c t) eqn:E; [done|].
  by rewrite (find_none _ _ E x Hx) in Hc.
Qed.




(** *** One record, with both update flags off *)






Section NoFlags.
Context (a : Args) (mode : sheet_mode).
Context (Hstore : update_store a = false) (Hexisting : update_existing a = false).





(** *** The two runs *)



End NoFlags.





End DriverTheorems.

(** * Further properties of the importer *)

(** ** Field normalizers *)

Module NormalizerTheorems.
Import DateTheorems MetricTheorems ReconcilerTheorems DriverTheorems.

Lemma lstrip_split s :
  exists a, s = a ++ lstrip s /\ Forall (fun c => is_space c = true) a.
Proof.
  induction s as [|c s (a & Ha & Hsp)]; [by exists []|].
  simpl. destruct (is_space c) eqn:E.
  - exists (c :: a). split; [simpl; by rewrite <- Ha|by constructor].
  - by exists [].
Qed.

Lemma rstrip_split s :
  exists b, s = rstrip s ++ b /\ Forall (fun c => is_space c = true) b.
Proof.
  unfold rstrip. destruct (lstrip_split (rev s)) as (a & Ha & Hsp).
  exists (rev a). split.
  - rewrite <- rev_app_distr, <- Ha. by rewrite rev_involutive.
  - by apply Forall_rev.
Qed.

Lemma strip_split s :
  exists a b, s = a ++ strip s ++ b /\
    Forall (fun c => is_space c = true) a /\ Forall (fun c => is_space c = true) b.
Proof.
  unfold strip.
  destruct (lstrip_split s) as (a & Ha & Hsa).
  destruct (rstrip_split (lstrip s)) as (b & Hb & Hsb).
  exists a, b. split; [|done]. by rewrite <- Hb.
Qed.

(** X1.  [normalize_text] removes whitespace from the two ends of a text
    and nothing else: the text is the result between two runs of
    whitespace, the result neither starts nor ends with whitespace, and
    normalizing again changes nothing. *)
Theorem normalize_text_trims (s : str) :
  (exists a b, s = a ++ normalize_text s ++ b /\
     Forall (fun c => is_space c = true) a /\
     Forall (fun c => is_space c = true) b) /\
  (forall c t, normalize_text s = c :: t -> is_space c = false) /\
  (forall t c, normalize_text s = t ++ [c] -> is_space c = false) /\
  normalize_text (normalize_text s) = normalize_text s.
Proof.
  split; [|split; [|split]].
  - apply strip_split.
  - intros c t E. unfold normalize_text in E.
    destruct (strip_shape s) as [H|[(c0 & H & Hc)|(c0 & mid & c' & H & Hc & Hc')]];
      rewrite H in E; [done| |]; by injection E as <- _.
  - intros t c E. unfold normalize_text in E.
    destruct (strip_shape s) as [H|[(c0 & H & Hc)|(c0 & mid & c' & H & Hc & Hc')]];
      rewrite H in E.
    + by destruct t.
    + change [c0] with ([] ++ [c0]) in E. by apply app_inj_tail in E as [_ <-].
    + rewrite (app_comm_cons mid [c'] c0) in E. by apply app_inj_tail in E as [_ <-].
  - apply normalize_text_idem.
Qed.

(** *** The budget *)

Lemma round64_pos_not_nan n d : round64_pos n d <> NaN.
Proof. unfold round64_pos. by destruct (_ && _). Qed.

Lemma round_decimal_not_nan m e : (0 <= m)%Z -> round_decimal m e <> NaN.
Proof.
  intros Hm. unfold round_decimal, round64.
  destruct (0 <=? e)%Z.
  - destruct (m * 10 ^ e)%Z eqn:E; [done|apply round64_pos_not_nan|].
    assert (0 <= m * 10 ^ e)%Z by (apply Z.mul_nonneg_nonneg; lia). lia.
  - destruct m; [done|apply round64_pos_not_nan|lia].
Qed.

Lemma matches_amount_inv t g :
  matches re_amount t g ->
  g = [t] /\
  (ascii_digits t \/
   exists ip fp, t = ip ++ 46%N :: fp /\ ascii_digits ip /\ ascii_digits fp).
Proof.
  unfold re_amount. intros H.
  inversion H as [| | | | | |r s g0 H1]; subst.
  inversion H1 as [| |r1 r2 s1 s2 g1 g2 Ha Hb| | | |]; subst.
  inversion Ha as [| | |p lo hi s Hall Hlo Hhi| | |]; subst.
  assert (Hip : ascii_digits s1).
  { split; [done|]. destruct s1; [simpl in Hlo; lia|done]. }
  inversion Hb as [| | | |r s g0 Hc| |]; subst.
  - inversion Hc as [| |r1 r2 s3 s4 g3 g4 Hd He| | | |]; subst.
    inversion Hd; subst. inversion He as [| | |p lo hi s Hall' Hlo' Hhi'| | |]; subst.
    split; [done|]. right.
    match goal with Hp : is_char 46%N ?c = true |- _ =>
      apply N.eqb_eq in Hp; subst end.
    exists s1, s4. split; [done|]. split; [done|].
    split; [done|]. destruct s4; [simpl in Hlo'; lia|done].
  - split; [by rewrite !app_nil_r|]. left. by rewrite app_nil_r.
Qed.

Lemma occurs_in_head c m s : occurs_in (c :: m) s -> In c s.
Proof. intros (a & b & ->). apply in_or_app. right. by left. Qed.

Lemma plain_text_budget s :
  s <> [] -> Forall plain_char s ->
  Forall (fun c => c <> 44%N) s ->
  Forall (fun c => (c < 128)%N) s ->
  parse_budget_wan s
  = match search re_amount s with
    | None => Fin 0 0
    | Some m => match py_float (group m 1) with Some f => f | None => Fin 0 0 end
    end.
Proof.
  intros Hne Hplain Hcomma Hascii. unfold parse_budget_wan, normalize_text.
  assert (Hstrip : strip s = s).
  { apply strip_nospace. eapply Forall_impl; [exact Hplain|]. by intros c (H & _). }
  rewrite Hstrip. destruct s as [|c0 s0] eqn:Es; [done|]. rewrite <- Es in *.
  assert (Hm : forall mk, (exists c m, mk = c :: m /\ (128 <= c)%N) -> contains mk s = false).
  { intros mk (c & m & -> & Hc). apply contains_false. intros Ho.
    apply occurs_in_head in Ho. rewrite List.Forall_forall in Hascii.
    apply Hascii in Ho. lia. }
  rewrite !Hm; [|by eexists _, _; split; [reflexivity|vm_compute]..].
  cbn [orb]. by rewrite replace_char_notin.
Qed.

Section Amounts.
Context (ip fp : str) (Hip : ascii_digits ip) (Hfp : ascii_digits fp).

Lemma ascii_digit_facts c :
  is_ascii_digit c = true -> plain_char c /\ c <> 44%N /\ (c < 128)%N.
Proof.
  intros H. split; [by apply ascii_digit_plain|].
  apply ascii_digit_range in H. lia.
Qed.

Lemma search_amount_decimal :
  search re_amount (ip ++ 46%N :: fp)
  = Some {| m_pre := []; m_text := ip ++ 46%N :: fp;
            m_groups := [ip ++ 46%N :: fp]; m_post := [] |}.
Proof.
  destruct Hip as [Aip Nip], Hfp as [Afp Nfp].
  apply search_at_start. unfold match_at, re_amount. cbn [run].
  apply rep_greedy; [done|by apply nonempty_length|done|by right|].
  cbn [is_char N.eqb Pos.eqb].
  rewrite <- (app_nil_r fp) at 1.
  rewrite (rep_greedy is_ascii_digit fp 1 None [] _
             {| m_pre := []; m_text := ip ++ 46%N :: fp;
                m_groups := [ip ++ 46%N :: fp]; m_post := [] |});
    [done|done|by apply nonempty_length|done|by right|].
  cbn [length app]. rewrite !Nat.sub_0_r. by rewrite !firstn_all.
Qed.

Lemma search_amount_integer :
  search re_amount ip
  = Some {| m_pre := []; m_text := ip; m_groups := [ip]; m_post := [] |}.
Proof.
  destruct Hip as [Aip Nip].
  apply search_at_start. unfold match_at, re_amount. cbn [run].
  rewrite <- (app_nil_r ip) at 1.
  apply rep_greedy; [done|by apply nonempty_length|done|by right|].
  cbn [length app]. rewrite !Nat.sub_0_r, ?app_nil_r. by rewrite !firstn_all.
Qed.

End Amounts.

Lemma ascii_digits_app a b : ascii_digits a -> ascii_digits b -> ascii_digits (a ++ b).
Proof.
  intros [Ha Na] [Hb Nb]. split; [by apply Forall_app|]. by destruct a.
Qed.

Lemma ascii_digits_facts s :
  ascii_digits s ->
  Forall plain_char s /\ Forall (fun c => c <> 44%N) s /\ Forall (fun c => (c < 128)%N) s.
Proof.
  intros [H _]. repeat split; eapply Forall_impl; try exact H;
    intros c Hc; by apply ascii_digit_facts in Hc as (? & ? & ?).
Qed.

Lemma budget_of_amount t g :
  matches re_amount t g ->
  exists m e, (0 <= m)%Z /\ py_float (List.nth 0 g []) = Some (round_decimal m e).
Proof.
  intros H. apply matches_amount_inv in H as [-> [Hd|(ip & fp & -> & Hip & Hfp)]].
  - exists (int_of_digits t), 0%Z. split; [apply int_of_digits_nonneg|].
    by apply py_float_integer.
  - exists (int_of_digits (ip ++ fp)), (- Z.of_nat (length fp))%Z.
    split; [apply int_of_digits_nonneg|]. by apply py_float_decimal.
Qed.

Lemma parse_budget_wan_decimal raw :
  exists m e, (0 <= m)%Z /\ parse_budget_wan raw = round_decimal m e.
Proof.
  assert (Hz : exists m e, (0 <= m)%Z /\ Fin 0 0 = round_decimal m e)
    by (by exists 0%Z, 0%Z).
  unfold parse_budget_wan.
  destruct (normalize_text raw) as [|c s]; [done|].
  destruct (_ || _); [done|].
  destruct (search re_amount _) as [m|] eqn:E; [|done].
  apply search_sound in E as [_ Hm].
  apply budget_of_amount in Hm as (v & e & Hv & Hf).
  unfold group. simpl Nat.sub. rewrite Hf. by exists v, e.
Qed.

(** X2.  [parse_budget_wan] never fails and never gives a negative number
    or a NaN: the budget is always the binary64 value nearest to a decimal
    number that is not negative (a minus sign is not read, "-3" gives 3).
    A text that mentions 不收费 or 免费 gives 0 whatever numbers it holds.
    A whole number gives its value, a number with a decimal point the
    nearest float, and a comma between digits is dropped as a thousands
    separator. *)
Theorem parse_budget_wan_reads_an_amount :
  (forall raw, exists m e, (0 <= m)%Z /\ parse_budget_wan raw = round_decimal m e) /\
  (forall raw, nonneg (parse_budget_wan raw) /\ parse_budget_wan raw <> NaN) /\
  (forall raw,
     occurs_in (u "不收费") (normalize_text raw) \/
     occurs_in (u "免费") (normalize_text raw) ->
     parse_budget_wan raw = Fin 0 0) /\
  (forall ip, ascii_digits ip ->
     parse_budget_wan ip = round_decimal (int_of_digits ip) 0) /\
  (forall ip fp, ascii_digits ip -> ascii_digits fp ->
     parse_budget_wan (ip ++ 46%N :: fp)
     = round_decimal (int_of_digits (ip ++ fp)) (- Z.of_nat (length fp))) /\
  (forall a b, ascii_digits a -> ascii_digits b ->
     parse_budget_wan (a ++ 44%N :: b) = round_decimal (int_of_digits (a ++ b)) 0) /\
  parse_budget_wan (u "-3") = round_decimal 3 0 /\
  parse_budget_wan (u "免费 2") = Fin 0 0 /\
  parse_budget_wan (u "1,500") = round_decimal 1500 0 /\
  parse_budget_wan [] = Fin 0 0.
Proof.
  split; [apply parse_budget_wan_decimal|].
  split.
  { intros raw. destruct (parse_budget_wan_decimal raw) as (m & e & Hm & ->).
    split; [by apply round_decimal_nonneg|by apply round_decimal_not_nan]. }
  split.
  { intros raw H. unfold parse_budget_wan.
    destruct (normalize_text raw) as [|c s]; [done|].
    rewrite <- !contains_true in H.
    by destruct H as [-> | ->]; rewrite ?orb_true_r. }
  split.
  { intros ip Hip. pose proof (ascii_digits_facts ip Hip) as (H1 & H2 & H3).
    rewrite plain_text_budget by (done || apply Hip).
    rewrite search_amount_integer by done. unfold group. simpl.
    by rewrite py_float_integer. }
  split.
  { intros ip fp Hip Hfp.
    pose proof (ascii_digits_facts ip Hip) as (H1 & H2 & H3).
    pose proof (ascii_digits_facts fp Hfp) as (H4 & H5 & H6).
    rewrite plain_text_budget.
    - rewrite search_amount_decimal by done. unfold group. simpl.
      by rewrite py_float_decimal.
    - by destruct ip.
    - apply Forall_app. split; [done|]. constructor; [apply plain_sep; auto|done].
    - apply Forall_app. split; [done|]. by constructor.
    - apply Forall_app. split; [done|]. by constructor. }
  split; [|by vm_compute].
  intros a b Ha Hb.
  pose proof (ascii_digits_facts a Ha) as (H1 & H2 & H3).
  pose proof (ascii_digits_facts b Hb) as (H4 & H5 & H6).
  pose proof (ascii_digits_app a b Ha Hb) as Hab.
  unfold parse_budget_wan, normalize_text.
  assert (Hstrip : strip (a ++ 44%N :: b) = a ++ 44%N :: b).
  { apply strip_nospace. apply Forall_app. split.
    - eapply Forall_impl; [exact H1|]. by intros c (H & _).
    - constructor; [done|]. eapply Forall_impl; [exact H4|]. by intros c (H & _). }
  rewrite Hstrip.
  destruct (a ++ 44%N :: b) as [|c0 s0] eqn:Es; [by destruct a|]. rewrite <- Es.
  assert (Hm : forall mk, (exists c m, mk = c :: m /\ (128 <= c)%N) ->
                 contains mk (a ++ 44%N :: b) = false).
  { intros mk (c & m & -> & Hc). apply contains_false. intros Ho.
    apply occurs_in_head in Ho. apply in_app_or in Ho as [Ho|[<-|Ho]].
    - rewrite List.Forall_forall in H3. apply H3 in Ho. lia.
    - lia.
    - rewrite List.Forall_forall in H6. apply H6 in Ho. lia. }
  rewrite !Hm; [|by eexists _, _; split; [reflexivity|vm_compute]..].
  cbn [orb].
  rewrite replace_char_app. change (44%N :: b) with ([44%N] ++ b).
  rewrite replace_char_app.
  rewrite (replace_char_notin 44%N [] a), (replace_char_notin 44%N [] b) by done.
  change (replace_char 44%N [] [44%N]) with (@nil char). cbn [app].
  rewrite search_amount_integer by done. unfold group. simpl.
  by rewrite py_float_integer.
Qed.

(** *** The handle *)













(** *** The contact method *)

Lemma contact_words_cases (P : str -> Prop) w :
  w ∈ contact_words ->
  P (u "zalo") -> P (u "tiktok") -> P (u "ig") -> P (u "instagram") -> P (u "fb") ->
  P (u "facebook") -> P w.
Proof.
  unfold contact_words. intros H.
  repeat (apply elem_of_cons in H as [->|H]; [done|]).
  by apply elem_of_nil in H.
Qed.

Lemma contact_word_fixed w :
  w ∈ contact_words ->
  normalize_contact_method (if bool_decide (w = u "instagram") then u "ig" else w)
  = (if bool_decide (w = u "instagram") then u "ig" else w).
Proof.
  unfold contact_words. intros H.
  repeat (apply elem_of_cons in H as [->|H]; [by vm_compute|]).
  by apply elem_of_nil in H.
Qed.

(** X4.  [normalize_contact_method] is idempotent.  It gives the empty text
    exactly for a blank text; a text that is, once trimmed and in lower
    case, one of zalo, tiktok, ig, instagram, fb, facebook gives that word
    in lower case, with ig for instagram, so the result is never
    "instagram"; any other text is only trimmed and keeps its case. *)
Theorem normalize_contact_method_canonical :
  (forall raw,
     normalize_contact_method (normalize_contact_method raw)
     = normalize_contact_method raw) /\
  (forall raw, normalize_contact_method raw = [] <-> normalize_text raw = []) /\
  (forall raw, normalize_contact_method raw <> u "instagram") /\
  (forall raw,
     lower (normalize_text raw) ∈ contact_words ->
     normalize_contact_method raw
     = if bool_decide (lower (normalize_text raw) = u "instagram") then u "ig"
       else lower (normalize_text raw)) /\
  (forall raw,
     lower (normalize_text raw) ∉ contact_words ->
     normalize_contact_method raw = normalize_text raw) /\
  normalize_contact_method (u "  Zalo ") = u "zalo" /\
  normalize_contact_method (u "INSTAGRAM") = u "ig" /\
  normalize_contact_method (u "WeChat") = u "WeChat".
Proof.
  assert (Hin : forall raw, lower (normalize_text raw) ∈ contact_words ->
     normalize_contact_method raw
     = if bool_decide (lower (normalize_text raw) = u "instagram") then u "ig"
       else lower (normalize_text raw)).
  { intros raw H. unfold normalize_contact_method.
    destruct (normalize_text raw) as [|c s] eqn:E.
    - exfalso. by apply (contact_words_cases (fun w => [] = w -> False) _ H).
    - by rewrite bool_decide_eq_true_2. }
  assert (Hout : forall raw, lower (normalize_text raw) ∉ contact_words ->
     normalize_contact_method raw = normalize_text raw).
  { intros raw H. unfold normalize_contact_method.
    destruct (normalize_text raw) as [|c s] eqn:E; [done|].
    by rewrite bool_decide_eq_false_2. }
  split; [|split; [|split; [|split; [exact Hin|split; [exact Hout|by vm_compute]]]]].
  - intros raw. destruct (decide (lower (normalize_text raw) ∈ contact_words)) as [H|H].
    + rewrite (Hin raw H). by apply contact_word_fixed.
    + rewrite (Hout raw H). rewrite Hout; rewrite normalize_text_idem; done.
  - intros raw. split.
    + intros H.
      destruct (decide (lower (normalize_text raw) ∈ contact_words)) as [Hw|Hw].
      * rewrite (Hin raw Hw) in H. case_bool_decide; [done|].
        exfalso. by apply (contact_words_cases (fun w => w = [] -> False) _ Hw).
      * by rewrite (Hout raw Hw) in H.
    + intros H. unfold normalize_contact_method. by rewrite H.
  - intros raw H. destruct (decide (lower (normalize_text raw) ∈ contact_words)) as [Hw|Hw].
    + rewrite (Hin raw Hw) in H. case_bool_decide; [done|]. congruence.
    + rewrite (Hout raw Hw) in H. apply Hw. rewrite H.
      change (lower (u "instagram")) with (u "instagram").
      unfold contact_words. set_solver.
Qed.

End NormalizerTheorems.

(** ** Dates *)

Module DateShapeTheorems.
Import DateTheorems MetricTheorems ReconcilerTheorems DriverTheorems NormalizerTheorems.

Lemma iso_format_shaped y mo d :
  (0 <= y < 10000)%Z -> (0 <= mo < 100)%Z -> (0 <= d < 100)%Z ->
  iso_shaped (iso_format y mo d).
Proof.
  intros Hy Hmo Hd. exists y, mo, d. split; [done|]. split; [done|]. split; [done|].
  unfold iso_format. change (u "-") with [45%N].
  by rewrite fmt_d_4, !fmt_d_2.
Qed.

Lemma matches_two_inv p1 lo1 hi1 lo2 hi2 t g :
  matches
    (Grp (Rep is_digit lo1 (Some hi1)) >> Chr p1 >>
     Grp (Rep is_digit lo2 (Some hi2))) t g ->
  exists A c1 B,
    t = A ++ c1 :: B /\ g = [A; B] /\
    digits lo1 hi1 A /\ digits lo2 hi2 B /\ p1 c1 = true.
Proof.
  intros H.
  inversion H as [| |? ? A r1 gA g1 HA H1| | | |]; subst; clear H.
  inversion H1 as [| |? ? x1 B gx gB Hx HB| | | |]; subst; clear H1.
  apply matches_grp_rep_inv in HA as (-> & FA & LA).
  apply matches_grp_rep_inv in HB as (-> & FB & LB).
  inversion Hx; subst.
  eexists A, _, B. simpl. repeat split; eauto; lia.
Qed.

Lemma day_month_bounds a b pdf :
  (0 <= a < 100)%Z -> (0 <= b < 100)%Z ->
  (0 <= fst (day_month a b pdf) < 100)%Z /\ (0 <= snd (day_month a b pdf) < 100)%Z.
Proof. intros Ha Hb. by destruct (day_month_cases a b pdf) as [-> | ->]. Qed.

Lemma to_iso_date_shaped value pdf :
  to_iso_date value pdf = [] \/ iso_shaped (to_iso_date value pdf).
Proof.
  unfold to_iso_date. destruct (normalize_text value) as [|c0 s0]; [by left|].
  destruct (search re_ymd _) as [m|] eqn:E1.
  { right. apply search_sound in E1 as [_ Hm].
    apply matches_three_inv in Hm as (A & c1 & B & c2 & C & _ & Hg & HA & HB & HC & _).
    unfold group. rewrite Hg. simpl List.nth.
    apply iso_format_shaped;
      [apply (digits_bound 4 4 A 4)|apply (digits_bound 1 2 B 2)
      |apply (digits_bound 1 2 C 2)]; done || lia. }
  destruct (search re_dmy _) as [m|] eqn:E2.
  { right. apply search_sound in E2 as [_ Hm].
    apply matches_three_inv in Hm as (A & c1 & B & c2 & C & _ & Hg & HA & HB & HC & _).
    unfold group. rewrite Hg. simpl List.nth.
    pose proof (digits_bound 1 2 A 2 HA ltac:(lia)) as BA.
    pose proof (digits_bound 1 2 B 2 HB ltac:(lia)) as BB.
    pose proof (day_month_bounds (int_of_digits A) (int_of_digits B) pdf BA BB) as [? ?].
    destruct (day_month _ _ _) as [d mo]. simpl in *.
    apply iso_format_shaped; [apply (digits_bound 4 4 C 4)|..]; done || lia. }
  destruct (search re_cn _) as [m|] eqn:E3; [|by left].
  right. apply search_sound in E3 as [_ Hm].
  apply matches_three_inv in Hm as (A & c1 & B & c2 & C & _ & Hg & HA & HB & HC & _).
  unfold group. rewrite Hg. simpl List.nth.
  apply iso_format_shaped;
    [apply (digits_bound 4 4 A 4)|apply (digits_bound 1 2 B 2)
    |apply (digits_bound 1 2 C 2)]; done || lia.
Qed.

Lemma parse_day_month_with_year_shaped value year pdf :
  (0 <= year < 10000)%Z ->
  parse_day_month_with_year value year pdf = [] \/
  iso_shaped (parse_day_month_with_year value year pdf).
Proof.
  intros Hy. unfold parse_day_month_with_year.
  destruct (normalize_text value) as [|c0 s0]; [by left|].
  destruct (search re_dm _) as [m|] eqn:E; [|by left].
  right. apply search_sound in E as [_ Hm].
  apply matches_two_inv in Hm as (A & c1 & B & _ & Hg & HA & HB & _).
  unfold group. rewrite Hg. simpl List.nth.
  pose proof (digits_bound 1 2 A 2 HA ltac:(lia)) as BA.
  pose proof (digits_bound 1 2 B 2 HB ltac:(lia)) as BB.
  pose proof (day_month_bounds (int_of_digits A) (int_of_digits B) pdf BA BB) as [? ?].
  destruct (day_month _ _ _) as [d mo]. simpl in *.
  by apply iso_format_shaped.
Qed.

Lemma year_or_four_digit cy fy v :
  four_digit_year cy -> four_digit_year fy ->
  truthy_year (year_or cy fy) = Some v -> (0 <= v < 10000)%Z.
Proof.
  intros Hc Hf. unfold truthy_year, year_or.
  destruct cy as [y|].
  - destruct (y =? 0)%Z eqn:E.
    + destruct fy as [z|]; [|done]. destruct (z =? 0)%Z; [done|].
      intros [= <-]. by apply Hf.
    + rewrite E. intros [= <-]. by apply Hc.
  - destruct fy as [z|]; [|done]. destruct (z =? 0)%Z; [done|].
    intros [= <-]. by apply Hf.
Qed.

Lemma parse_post_date_shaped value cy fy :
  four_digit_year cy -> four_digit_year fy ->
  parse_post_date value cy fy = [] \/ iso_shaped (parse_post_date value cy fy).
Proof.
  intros Hc Hf. unfold parse_post_date.
  destruct (normalize_text value) as [|c0 s0]; [by left|].
  destruct (to_iso_date_shaped (c0 :: s0) true) as [E|E].
  - rewrite E. destruct (truthy_year _) as [v|] eqn:Ey; [|by left].
    apply parse_day_month_with_year_shaped. by apply (year_or_four_digit cy fy).
  - destruct (to_iso_date (c0 :: s0) true) as [|c1 s1]; [|right; exact E].
    by destruct E as (y & mo & d & _ & _ & _ & E).
Qed.

Lemma digit_value_ascii k :
  (0 <= k < 10)%Z -> digit_value (48 + Z.to_N k)%N = Z.to_N k.
Proof.
  intros Hk.
  assert (H : forallb (fun i => (digit_value (48 + Z.to_N (Z.of_nat i))%N
                                 =? Z.to_N (Z.of_nat i))%N)
                (List.seq 0 (Z.to_nat 10)) = true) by (by vm_compute).
  apply (forallb_below (fun v => (digit_value (48 + Z.to_N v)%N =? Z.to_N v)%N) 10 H) in Hk.
  by apply N.eqb_eq in Hk.
Qed.

Lemma four_digits_value y :
  (0 <= y < 10000)%Z -> int_of_digits (four_digits y) = y.
Proof.
  intros Hy. unfold int_of_digits, four_digits. cbn [fold_left].
  assert (H3 : (0 <= y / 1000 < 10)%Z).
  { split; [apply Z.div_pos; lia|apply Z.div_lt_upper_bound; lia]. }
  assert (H2 : (0 <= y / 100 mod 10 < 10)%Z) by (apply Z.mod_pos_bound; lia).
  assert (H1 : (0 <= y / 10 mod 10 < 10)%Z) by (apply Z.mod_pos_bound; lia).
  assert (H0 : (0 <= y mod 10 < 10)%Z) by (apply Z.mod_pos_bound; lia).
  rewrite !digit_value_ascii by done. rewrite !Z2N.id by lia.
  pose proof (Z.div_mod y 10 ltac:(lia)).
  pose proof (Z.div_mod (y / 10) 10 ltac:(lia)).
  pose proof (Z.div_mod (y / 10 / 10) 10 ltac:(lia)).
  rewrite !Z.div_div in * by lia.
  change (10 * 10 * 10)%Z with 1000%Z in *. change (10 * 10)%Z with 100%Z in *.
  assert ((y / 1000) mod 10 = y / 1000)%Z by (apply Z.mod_small; lia).
  lia.
Qed.

Lemma four_digits_ascii y :
  (0 <= y < 10000)%Z -> Forall (fun c => is_ascii_digit c = true) (four_digits y).
Proof.
  intros Hy. unfold four_digits.
  assert (H3 : (0 <= y / 1000 < 10)%Z).
  { split; [apply Z.div_pos; lia|apply Z.div_lt_upper_bound; lia]. }
  assert (H2 : (0 <= y / 100 mod 10 < 10)%Z) by (apply Z.mod_pos_bound; lia).
  assert (H1 : (0 <= y / 10 mod 10 < 10)%Z) by (apply Z.mod_pos_bound; lia).
  assert (H0 : (0 <= y mod 10 < 10)%Z) by (apply Z.mod_pos_bound; lia).
  repeat constructor; apply ascii_digit_range; lia.
Qed.

Lemma to_iso_date_normalized value pdf :
  to_iso_date (normalize_text value) pdf = to_iso_date value pdf.
Proof. unfold to_iso_date. by rewrite normalize_text_idem. Qed.

Lemma parse_day_month_with_year_normalized value y pdf :
  parse_day_month_with_year (normalize_text value) y pdf
  = parse_day_month_with_year value y pdf.
Proof. unfold parse_day_month_with_year. by rewrite normalize_text_idem. Qed.

Lemma iso_format_length y mo d :
  (0 <= y < 10000)%Z -> (0 <= mo < 100)%Z -> (0 <= d < 100)%Z ->
  iso_format y mo d
  = four_digits y ++ 45%N :: two_digits mo ++ 45%N :: two_digits d.
Proof.
  intros Hy Hmo Hd. unfold iso_format. change (u "-") with [45%N].
  by rewrite fmt_d_4, !fmt_d_2.
Qed.

(** X5.  The dates the parsers return are well formed: the result of
    [to_iso_date], of [parse_day_month_with_year] for a year from 0 to 9999
    and of [parse_post_date] for context years in that range is the empty
    text or exactly ten characters, four ASCII digits, a dash, two digits,
    a dash and two digits (whatever digits of Unicode the text used); and
    the first four characters of such a date read back as its year. *)
Theorem parsed_dates_are_well_formed :
  (forall value pdf, to_iso_date value pdf = [] \/ iso_shaped (to_iso_date value pdf)) /\
  (forall value year pdf,
     (0 <= year < 10000)%Z ->
     parse_day_month_with_year value year pdf = [] \/
     iso_shaped (parse_day_month_with_year value year pdf)) /\
  (forall value cy fy,
     four_digit_year cy -> four_digit_year fy ->
     parse_post_date value cy fy = [] \/ iso_shaped (parse_post_date value cy fy)) /\
  (forall y mo d,
     (0 <= y < 10000)%Z -> (0 <= mo < 100)%Z -> (0 <= d < 100)%Z ->
     length (iso_format y mo d) = 10 /\
     Forall (fun c => is_ascii_digit c = true) (List.firstn 4 (iso_format y mo d)) /\
     int_of_digits (List.firstn 4 (iso_format y mo d)) = y) /\
  to_iso_date (u "２０２３/１２/２１") true = u "2023-12-21".
Proof.
  split; [apply to_iso_date_shaped|].
  split; [apply parse_day_month_with_year_shaped|].
  split; [apply parse_post_date_shaped|].
  split; [|by vm_compute].
  intros y mo d Hy Hmo Hd. rewrite iso_format_length by done.
  change (List.firstn 4 (four_digits y ++ 45%N :: two_digits mo ++ 45%N :: two_digits d))
    with (four_digits y).
  split; [done|]. split; [by apply four_digits_ascii|by apply four_digits_value].
Qed.

(** X6.  [parse_post_date] prefers a full date in the text to any year it
    is given: when [to_iso_date] reads the text, that is the result.
    Otherwise it reads a day/month pair with the context year, or with the
    fallback year when the context year is missing or 0, day first unless
    only the second number can be a day; without a usable year, or for a
    blank text, the result is empty.  The result carries no whitespace. *)
Theorem parse_post_date_year_precedence :
  (forall value cy fy,
     to_iso_date value true <> [] ->
     parse_post_date value cy fy = to_iso_date value true) /\
  (forall value cy fy y,
     to_iso_date value true = [] -> y <> 0%Z -> cy = Some y ->
     parse_post_date value cy fy = parse_day_month_with_year value y true) /\
  (forall value cy fy y,
     to_iso_date value true = [] -> y <> 0%Z -> cy = None \/ cy = Some 0%Z ->
     fy = Some y ->
     parse_post_date value cy fy = parse_day_month_with_year value y true) /\
  (forall value cy fy,
     to_iso_date value true = [] ->
     cy = None \/ cy = Some 0%Z -> fy = None \/ fy = Some 0%Z ->
     parse_post_date value cy fy = []) /\
  (forall value cy fy,
     normalize_text (parse_post_date value cy fy) = parse_post_date value cy fy) /\
  parse_post_date (u "11/7") (Some 2023%Z) (Some 2021%Z) = u "2023-07-11" /\
  parse_post_date (u "11/7") None (Some 2021%Z) = u "2021-07-11" /\
  parse_post_date (u "7/18") (Some 2023%Z) None = u "2023-07-18" /\
  parse_post_date (u "21/12/2022") (Some 2023%Z) None = u "2022-12-21" /\
  parse_post_date (u "11/7") None None = [].
Proof.
  assert (Hfall : forall value cy fy,
    to_iso_date value true = [] ->
    parse_post_date value cy fy
    = match truthy_year (year_or cy fy) with
      | Some y => parse_day_month_with_year value y true
      | None => []
      end).
  { intros value cy fy E. unfold parse_post_date.
    destruct (normalize_text value) as [|c0 s0] eqn:En.
    - destruct (truthy_year _); [|done].
      unfold parse_day_month_with_year. by rewrite En.
    - rewrite <- En, to_iso_date_normalized, E.
      destruct (truthy_year _); [|done]. apply parse_day_month_with_year_normalized. }
  split.
  { intros value cy fy H. unfold parse_post_date.
    destruct (normalize_text value) as [|c0 s0] eqn:En.
    - exfalso. apply H. unfold to_iso_date. by rewrite En.
    - rewrite <- En, to_iso_date_normalized.
      by destruct (to_iso_date value true). }
  split.
  { intros value cy fy y E Hy ->. rewrite Hfall by done.
    unfold year_or, truthy_year. apply Z.eqb_neq in Hy. by rewrite !Hy. }
  split.
  { intros value cy fy y E Hy Hcy ->. rewrite Hfall by done.
    apply Z.eqb_neq in Hy.
    destruct Hcy as [-> | ->]; unfold year_or, truthy_year; simpl; by rewrite Hy. }
  split.
  { intros value cy fy E Hcy Hfy. rewrite Hfall by done.
    by destruct Hcy as [-> | ->], Hfy as [-> | ->]. }
  split; [apply parse_post_date_trimmed|by vm_compute].
Qed.



Lemma extract_month_day_normalized v :
  extract_month_day (normalize_text v) = extract_month_day v.
Proof. unfold extract_month_day. by rewrite normalize_text_idem. Qed.

Lemma iso_shaped_nonempty t : iso_shaped t -> t <> [].
Proof. by intros (y & mo & d & _ & _ & _ & ->). Qed.

(** The date [parse_visit_date_and_window] settles on. *)
Lemma visit_date_cases v cy fy :
  normalize_text v <> [] ->
  fst (parse_visit_date_and_window v cy fy)
  = match to_iso_date v true with
    | [] =>
        match extract_month_day v, truthy_year (year_or cy fy) with
        | Some (mo, d), Some y => iso_format y mo d
        | _, _ => []
        end
    | iso => iso
    end /\
  (fst (parse_visit_date_and_window v cy fy) = [] ->
   snd (parse_visit_date_and_window v cy fy) = normalize_text v).
Proof.
  intros Hne. unfold parse_visit_date_and_window.
  destruct (normalize_text v) as [|c0 s0] eqn:En; [done|].
  rewrite <- En, to_iso_date_normalized, extract_month_day_normalized.
  cbv beta zeta.
  destruct (to_iso_date v true) as [|c1 s1]; [|done].
  destruct (extract_month_day v) as [[mo d]|]; [|done].
  destruct (truthy_year _) as [y|]; [|done].
  by destruct (iso_format y mo d).
Qed.

(** X8.  [parse_visit_date_and_window] gives two empty texts for a blank
    visit text.  Its date is the full date [to_iso_date] reads in the text
    if there is one; otherwise the first "M月D" of the text with the context
    year, or the fallback year when the context year is missing or 0;
    otherwise empty.  When the date is empty the window is the whole trimmed
    text, and for years from 0 to 9999 a date that is not empty is well
    formed. *)
Theorem visit_date_sources :
  (forall v cy fy,
     normalize_text v = [] -> parse_visit_date_and_window v cy fy = ([], [])) /\
  (forall v cy fy,
     to_iso_date v true <> [] ->
     fst (parse_visit_date_and_window v cy fy) = to_iso_date v true) /\
  (forall v cy fy mo d y,
     to_iso_date v true = [] -> extract_month_day v = Some (mo, d) ->
     truthy_year (year_or cy fy) = Some y ->
     fst (parse_visit_date_and_window v cy fy) = iso_format y mo d) /\
  (forall v cy fy,
     to_iso_date v true = [] ->
     extract_month_day v = None \/ truthy_year (year_or cy fy) = None ->
     parse_visit_date_and_window v cy fy = ([], normalize_text v)) /\
  (forall v cy fy,
     fst (parse_visit_date_and_window v cy fy) = [] ->
     snd (parse_visit_date_and_window v cy fy) = normalize_text v) /\
  (forall v cy fy,
     four_digit_year cy -> four_digit_year fy ->
     fst (parse_visit_date_and_window v cy fy) = [] \/
     iso_shaped (fst (parse_visit_date_and_window v cy fy))) /\
  parse_visit_date_and_window (u "12月21日 18:00") (Some 2023%Z) None
  = (u "2023-12-21", u "18:00") /\
  parse_visit_date_and_window (u "12月21日 18:00") None None
  = ([], u "12月21日 18:00") /\
  parse_visit_date_and_window (u "12/21 18:00") (Some 2023%Z) None
  = ([], u "12/21 18:00").
Proof.
  assert (Hblank : forall v cy fy,
     normalize_text v = [] -> parse_visit_date_and_window v cy fy = ([], [])).
  { intros v cy fy E. unfold parse_visit_date_and_window. by rewrite E. }
  split; [exact Hblank|]. split.
  { intros v cy fy H.
    destruct (decide (normalize_text v = [])) as [E|E].
    - exfalso. apply H. unfold to_iso_date. by rewrite E.
    - destruct (visit_date_cases v cy fy E) as [-> _].
      by destruct (to_iso_date v true). }
  split.
  { intros v cy fy mo d y E1 E2 E3.
    destruct (decide (normalize_text v = [])) as [E|E].
    - unfold extract_month_day in E2. rewrite E in E2. by vm_compute in E2.
    - destruct (visit_date_cases v cy fy E) as [-> _]. by rewrite E1, E2, E3. }
  split.
  { intros v cy fy E1 E2.
    destruct (decide (normalize_text v = [])) as [E|E].
    - rewrite E. by apply Hblank.
    - destruct (visit_date_cases v cy fy E) as [Hd Hw].
      rewrite E1 in Hd.
      assert (Hfst : fst (parse_visit_date_and_window v cy fy) = []).
      { rewrite Hd. destruct E2 as [-> | ->]; [done|].
        by destruct (extract_month_day v) as [[mo d]|]. }
      specialize (Hw Hfst).
      by rewrite (surjective_pairing (parse_visit_date_and_window v cy fy)), Hfst, Hw. }
  split.
  { intros v cy fy H.
    destruct (decide (normalize_text v = [])) as [E|E].
    - by rewrite E, (Hblank v cy fy E).
    - by apply (visit_date_cases v cy fy E). }
  split; [|by vm_compute].
  intros v cy fy Hc Hf.
  destruct (decide (normalize_text v = [])) as [E|E].
  { left. by rewrite (Hblank v cy fy E). }
  destruct (visit_date_cases v cy fy E) as [-> _].
  destruct (to_iso_date_shaped v true) as [Ei|Ei].
  - rewrite Ei.
    destruct (extract_month_day v) as [[mo d]|] eqn:Em; [|by left].
    destruct (truthy_year _) as [y|] eqn:Ey; [|by left].
    right. apply iso_format_shaped.
    + by apply (year_or_four_digit cy fy).
    + unfold extract_month_day in Em.
      destruct (search re_md_cn _) as [m|] eqn:Es; [|done].
      apply search_sound in Es as [_ Hm].
      apply matches_two_inv in Hm as (A & c1 & B & _ & Hg & HA & HB & _).
      unfold group in Em. rewrite Hg in Em. simpl in Em. injection Em as <- <-.
      apply (digits_bound 1 2 A 2); done || lia.
    + unfold extract_month_day in Em.
      destruct (search re_md_cn _) as [m|] eqn:Es; [|done].
      apply search_sound in Es as [_ Hm].
      apply matches_two_inv in Hm as (A & c1 & B & _ & Hg & HA & HB & _).
      unfold group in Em. rewrite Hg in Em. simpl in Em. injection Em as <- <-.
      apply (digits_bound 1 2 B 2); done || lia.
  - right. by destruct (to_iso_date v true) as [|c1 s1]; [apply iso_shaped_nonempty in Ei|].
Qed.

End DateShapeTheorems.

(** ** The sheet *)

Module SheetRowTheorems.
Import DateTheorems MetricTheorems ReconcilerTheorems DriverTheorems NormalizerTheorems
  DateShapeTheorems.

Lemma read_row_cell (row : list str) i :
  i < 15 ->
  cell (List.firstn 15 (row ++ List.repeat [] (15 - length row))) i = cell row i.
Proof.
  intros Hi. unfold cell. rewrite nth_firstn.
  apply Nat.ltb_lt in Hi as ->.
  destruct (Nat.lt_ge_cases i (length row)) as [H|H].
  - by rewrite app_nth1.
  - rewrite app_nth2 by done. rewrite (nth_overflow row) by done.
    by rewrite nth_repeat.
Qed.

Lemma read_row_length (row : list str) :
  length (List.firstn 15 (row ++ List.repeat [] (15 - length row))) = 15.
Proof. rewrite length_firstn, length_app, repeat_length. lia. Qed.

(** X9.  [read_rows] yields one row for each row of the sheet, in order, of
    exactly 15 cells: a short row is padded with empty cells and a long one
    is cut, so every cell up to column 15 is the cell of the sheet, or empty
    where the sheet has none, and reading columns 0 to 14 never fails. *)
Theorem read_rows_pads_to_15 (csv_rows : list (list str)) :
  Forall2
    (fun orig row =>
       length row = 15 /\
       (forall i, i < 15 -> cell row i = cell orig i) /\
       (forall i, i < 15 -> length orig <= i -> cell row i = []) /\
       (length orig = 15 -> row = orig))
    csv_rows (read_rows csv_rows).
Proof.
  unfold read_rows. induction csv_rows as [|r rows IH]; cbn [List.map]; constructor; [|done].
  cbv beta. split; [apply read_row_length|]. split; [intros i Hi; by apply read_row_cell|].
  split.
  - intros i Hi Hlen. rewrite read_row_cell by done. unfold cell.
    by apply nth_overflow.
  - intros Hlen. unfold str in *. rewrite Hlen, Nat.sub_diag. cbn [repeat].
    rewrite app_nil_r, <- Hlen. apply firstn_all.
Qed.

(** *** Which rows become records *)

Lemma digit_not_cased c :
  is_digit c = true -> lower_char c = [c].
Proof.
  intros Hd. unfold is_digit in Hd. apply existsb_exists in Hd as (b & Hb & Hin).
  unfold in_block in Hin. apply andb_true_iff in Hin as [H1 H2].
  apply N.leb_le in H1. apply N.ltb_lt in H2.
  assert (Hall : forallb (fun b => negb ((b <=? 90)%N && (65 <? b + 10)%N)
                                    && negb ((b <=? 0x212a)%N && (0x212a <? b + 10)%N)
                                    && negb ((b <=? 0x130)%N && (0x130 <? b + 10)%N))
                   digit_blocks = true) by (by vm_compute).
  rewrite forallb_forall in Hall. apply Hall in Hb.
  apply andb_true_iff in Hb as [Hb Hc]. apply andb_true_iff in Hb as [Ha Hb].
  apply negb_true_iff, andb_false_iff in Ha, Hb, Hc.
  rewrite !N.leb_gt, !N.ltb_ge in Ha, Hb, Hc.
  unfold lower_char.
  destruct ((65 <=? c)%N && (c <=? 90)%N) eqn:H3.
  { apply andb_true_iff in H3 as [H3 H4]. apply N.leb_le in H3, H4. lia. }
  destruct (N.eqb_spec c 0x212a); [lia|].
  destruct (N.eqb_spec c 0x130); [lia|]. done.
Qed.

Lemma is_sequence_number_digits f :
  is_sequence_number f = true <-> f <> [] /\ Forall (fun c => is_digit c = true) f.
Proof.
  unfold is_sequence_number. split.
  - destruct (fullmatch _ f) as [g|] eqn:E; [|done]. intros _.
    apply fullmatch_sound in E.
    inversion E as [| | |p lo hi s Hall Hlo Hhi| | |]; subst.
    split; [|done]. destruct f; [simpl in Hlo; lia|done].
  - intros [Hne Hall].
    destruct (fullmatch_complete (Rep is_digit 1 None) f []) as [g ->]; [|done].
    constructor; [done| |done]. destruct f; [done|simpl; lia].
Qed.

Lemma lower_digits f : Forall (fun c => is_digit c = true) f -> lower f = f.
Proof.
  induction 1 as [|c f Hc _ IH]; [done|].
  unfold lower in *. simpl. by rewrite digit_not_cased, IH.
Qed.

Lemma sequence_number_not_header f :
  is_sequence_number f = true -> is_header_first f = false.
Proof.
  intros H. apply is_sequence_number_digits in H as [Hne Hall].
  unfold is_header_first. destruct f as [|c0 f0] eqn:Ef; [done|]. rewrite <- Ef in *.
  rewrite (lower_digits f Hall).
  assert (H1 : contains (u "序号") f = false).
  { apply contains_false. intros Ho. apply occurs_in_head in Ho.
    rewrite List.Forall_forall in Hall. apply Hall in Ho. by vm_compute in Ho. }
  rewrite H1. cbn [orb].
  rewrite !bool_decide_eq_false_2; [done| |].
  - intros ->. by apply Forall_cons in Hall as [Hall _].
  - intros ->. by apply Forall_cons in Hall as [Hall _].
Qed.

Lemma import_row_of_read mode first row :
  let item := import_row_of mode first (List.firstn 15 (row ++ List.repeat [] (15 - length row))) in
  seq item = first /\
  profile_url item = cell row 1 /\
  views_raw item = cell row 10 /\ likes_raw item = cell row 11 /\
  comments_raw item = cell row 12 /\ saves_raw item = cell row 13 /\
  shares_raw item = cell row 14.
Proof.
  destruct mode; simpl; rewrite !read_row_cell by lia; done.
Qed.

Lemma extract_loop_numbered rows : forall cy mode,
  Forall2 (fun row e => read_from row (snd e))
    (numbered_rows rows) (extract_loop cy mode (read_rows rows)).
Proof.
  unfold numbered_rows, read_rows.
  induction rows as [|row rows IH]; intros cy mode; [constructor|].
  cbn [List.map List.filter extract_loop].
  rewrite read_row_cell by lia.
  destruct (is_sequence_number (normalize_text (cell row 0))) eqn:Hseq.
  - rewrite (sequence_number_not_header _ Hseq).
    apply is_sequence_number_digits in Hseq as [Hne _].
    destruct (normalize_text (cell row 0)) as [|c0 f0] eqn:Ef; [done|].
    cbn [negb]. constructor; [|apply IH].
    cbn [snd]. rewrite <- Ef.
    destruct (import_row_of_read (default Booking mode) (normalize_text (cell row 0)) row)
      as (H1 & H2 & H3 & H4 & H5 & H6 & H7).
    unfold read_from.
    split; [exact H1|]. split; [exact H2|]. split; [exact H3|]. split; [exact H4|].
    split; [exact H5|]. split; [exact H6|]. split; [exact H7|].
    rewrite H1. unfold read_rows. cbn [List.map lookup_total list_lookup_total].
    destruct (default Booking mode); [by left|by right].
  - destruct (is_header_first _); [apply IH|].
    destruct (normalize_text (cell row 0)) as [|c0 f0] eqn:Ef.
    + rewrite read_row_cell by lia.
      destruct (to_iso_date _ _); apply IH.
    + cbn [negb]. apply IH.
Qed.

(** X10.  [extract_import_rows] yields exactly one record for each row
    whose first cell, trimmed, is a whole number (one or more digits), in
    the order of the sheet, and nothing for any other row: header rows,
    context lines and free text never become records.  The sequence number
    of a record is that trimmed cell; in both layouts the profile URL is
    column 1 and the five metrics are columns 10 to 14 of the row, with
    empty text where the row is shorter. *)
Theorem extract_import_rows_numbered (csv_rows : list (list str)) :
  Forall2 (fun row e => read_from row (snd e))
    (numbered_rows csv_rows) (extract_import_rows csv_rows) /\
  length (extract_import_rows csv_rows) = length (numbered_rows csv_rows) /\
  Forall (fun e => seq (snd e) <> [] /\
                   Forall (fun c => is_digit c = true) (seq (snd e)) /\
                   is_header_first (seq (snd e)) = false)
    (extract_import_rows csv_rows).
Proof.
  pose proof (extract_loop_numbered csv_rows None None) as H.
  fold (extract_import_rows csv_rows) in H.
  split; [done|]. split; [symmetry; by eapply Forall2_length|].
  assert (Hn : Forall (fun r => is_sequence_number (normalize_text (cell r 0)) = true)
                 (numbered_rows csv_rows)).
  { unfold numbered_rows. apply List.Forall_forall. intros r Hr.
    by apply filter_In in Hr as [_ Hr]. }
  revert Hn. induction H as [|row e rows es Hre _ IH]; [constructor|].
  intros Hn. apply Forall_cons in Hn as [Hrow Hn].
  constructor; [|by apply IH].
  destruct Hre as (-> & _).
  pose proof (sequence_number_not_header _ Hrow).
  by apply is_sequence_number_digits in Hrow as [? ?].
Qed.

(** *** The years and the post dates of the records *)

Lemma iso_year_four_digit iso :
  iso_shaped iso -> four_digit_year (Some (int_of_digits (List.firstn 4 iso))).
Proof.
  intros (y & mo & d & Hy & Hmo & Hd & ->) v [= <-].
  change (0 <= int_of_digits (four_digits y) < 10000)%Z.
  by rewrite four_digits_value.
Qed.

Lemma extract_loop_years rows : forall cy mode,
  four_digit_year cy ->
  Forall (fun e => four_digit_year (fst e)) (extract_loop cy mode rows).
Proof.
  induction rows as [|row rows IH]; intros cy mode Hcy; [constructor|].
  cbn [extract_loop].
  destruct (is_header_first _); [by apply IH|].
  destruct (normalize_text (cell row 0)) as [|c0 f0].
  - destruct (to_iso_date_shaped (normalize_text (cell row 1)) true) as [E|E].
    + rewrite E. by apply IH.
    + destruct (to_iso_date _ _) as [|c1 s1] eqn:Ei; [by apply IH|].
      apply IH. by apply iso_year_four_digit.
  - destruct (negb _); [by apply IH|]. constructor; [done|by apply IH].
Qed.

(** X11.  The context year that [extract_import_rows] attaches to a record
    is absent or a number from 0 to 9999, and the post date [main] computes
    for the record is empty or a well-formed date of exactly ten characters
    that starts with four ASCII digits: the conversions [int(iso[:4])] of
    [extract_import_rows] and [int(post_date[:4])] of [main] never meet a
    text they cannot read. *)
Theorem record_years_are_readable (csv_rows : list (list str)) :
  Forall
    (fun e =>
       four_digit_year (fst e) /\
       (entry_post_date e = [] \/
        iso_shaped (entry_post_date e) /\
        length (entry_post_date e) = 10 /\
        Forall (fun c => is_ascii_digit c = true) (List.firstn 4 (entry_post_date e)) /\
        four_digit_year (Some (int_of_digits (List.firstn 4 (entry_post_date e))))))
    (extract_import_rows csv_rows).
Proof.
  pose proof (extract_loop_years (read_rows csv_rows) None None) as H.
  fold (extract_import_rows csv_rows) in H.
  eapply Forall_impl; [apply H; by intros v|].
  intros e He. simpl in He. split; [done|].
  destruct (parse_post_date_shaped (post_date_raw (snd e)) (fst e) (fst e) He He)
    as [E|E]; [by left|].
  right. fold (entry_post_date e) in E. split; [done|].
  pose proof (iso_year_four_digit _ E) as Hy.
  destruct E as (y & mo & d & Hy' & Hmo & Hd & E). rewrite E in *.
  split; [done|]. split; [|done].
  change (List.firstn 4 (four_digits y ++ 45%N :: two_digits mo ++ 45%N :: two_digits d))
    with (four_digits y).
  by apply four_digits_ascii.
Qed.

(** *** One header: the layout and the probed mode agree *)

Lemma header_first_is_probe f : is_header_first f = true -> is_probe_header f = true.
Proof.
  unfold is_header_first, is_probe_header. destruct f; [done|].
  intros ->. done.
Qed.

Lemma extract_loop_one_mode m rows : forall cy,
  Forall (fun r => is_header_first (normalize_text (cell r 0)) = false) rows ->
  Forall2
    (fun row e =>
       snd e = import_row_of m (normalize_text (cell row 0)) (read_rows [row] !!! 0))
    (numbered_rows rows) (extract_loop cy (Some m) (read_rows rows)).
Proof.
  unfold numbered_rows, read_rows.
  induction rows as [|row rows IH]; intros cy Hh; [constructor|].
  apply Forall_cons in Hh as [Hrow Hh].
  cbn [List.map List.filter extract_loop].
  rewrite read_row_cell by lia. rewrite Hrow.
  destruct (is_sequence_number (normalize_text (cell row 0))) eqn:Hseq.
  - apply is_sequence_number_digits in Hseq as [Hne _].
    destruct (normalize_text (cell row 0)) as [|c0 f0] eqn:Ef; [done|].
    cbn [negb]. constructor; [by rewrite Ef|by apply IH].
  - destruct (normalize_text (cell row 0)) as [|c0 f0] eqn:Ef.
    + rewrite read_row_cell by lia. destruct (to_iso_date _ _); by apply IH.
    + cbn [negb]. by apply IH.
Qed.

(** X12.  In a sheet that starts with its one header row (a first cell
    with 序号, "no" or "index"), the mode [main] probes for the source type
    and the layout in which [extract_import_rows] reads every record are the
    same: the mode [detect_sheet_mode] gives for the header cut to its first
    15 cells.  A label beyond column 15 of the header is therefore not
    seen. *)
Theorem one_header_one_mode (header : list str) (rows : list (list str)) :
  is_header_first (normalize_text (cell header 0)) = true ->
  Forall (fun r => is_header_first (normalize_text (cell r 0)) = false) rows ->
  let mode := detect_sheet_mode (List.firstn 15 (header ++ List.repeat [] (15 - length header))) in
  probe_sheet_mode (read_rows (header :: rows)) = mode /\
  Forall2
    (fun row e =>
       snd e = import_row_of mode (normalize_text (cell row 0)) (read_rows [row] !!! 0))
    (numbered_rows rows) (extract_import_rows (header :: rows)).
Proof.
  intros Hh Hrows mode. split.
  - unfold read_rows. cbn [List.map probe_sheet_mode].
    rewrite read_row_cell by lia. by rewrite (header_first_is_probe _ Hh).
  - unfold extract_import_rows, read_rows. cbn [List.map extract_loop].
    rewrite read_row_cell by lia. rewrite Hh.
    by apply extract_loop_one_mode.
Qed.

Lemma one_header_one_mode_witness :
  probe_sheet_mode (read_rows (sheet_header :: List.tl linh_sheet)) = Booking /\
  Forall2
    (fun row e =>
       snd e = import_row_of Booking (normalize_text (cell row 0)) (read_rows [row] !!! 0))
    (numbered_rows (List.tl linh_sheet))
    (extract_import_rows (sheet_header :: List.tl linh_sheet)).
Proof.
  apply (one_header_one_mode sheet_header (List.tl linh_sheet)).
  - vm_compute. reflexivity.
  - repeat constructor.
Defined.

End SheetRowTheorems.

(** ** The influencer-only reading *)

Module InfluencerSheetTheorems.
Import DateTheorems MetricTheorems ReconcilerTheorems DriverTheorems NormalizerTheorems.

Lemma needle_found (needles : list str) (h : str) :
  existsb (fun n => truthy n && contains n h) needles = true <->
  exists n, In n needles /\ n <> [] /\ occurs_in n h.
Proof.
  rewrite existsb_exists. split.
  - intros (n & Hn & Hc). apply andb_true_iff in Hc as [Ht Hc].
    exists n. split; [done|]. split; [by apply truthy_true|by apply contains_true].
  - intros (n & Hn & Hne & Ho). exists n. split; [done|].
    apply andb_true_iff. split; [by apply truthy_true|by apply contains_true].
Qed.

Lemma occurs_in_nil n : n <> [] -> ~ occurs_in n [].
Proof. intros Hn (a & b & H). destruct a, n; done. Qed.

Lemma find_col_from_spec needles header : forall i,
  match find_col_from i header needles with
  | Some k =>
      i <= k < i + length header /\
      (exists n, In n needles /\ n <> [] /\ occurs_in n (List.nth (k - i) header [])) /\
      (forall j, j < k - i ->
         ~ exists n, In n needles /\ n <> [] /\ occurs_in n (List.nth j header []))
  | None =>
      forall j, ~ exists n, In n needles /\ n <> [] /\ occurs_in n (List.nth j header [])
  end.
Proof.
  induction header as [|h rest IH]; intros i.
  { simpl. intros j (n & _ & Hn & Ho). destruct j; by apply (occurs_in_nil n). }
  cbn [find_col_from].
  destruct (truthy h && existsb _ needles) eqn:E.
  - apply andb_true_iff in E as [_ E]. apply needle_found in E.
    rewrite Nat.sub_diag. simpl. split; [lia|]. split; [done|]. intros j Hj. lia.
  - assert (Hno : ~ exists n, In n needles /\ n <> [] /\ occurs_in n h).
    { intros Hex. apply andb_false_iff in E as [E|E].
      - apply truthy_false in E. subst h. destruct Hex as (n & _ & Hn & Ho).
        by apply (occurs_in_nil n).
      - apply needle_found in Hex. congruence. }
    specialize (IH (S i)). destruct (find_col_from (S i) rest needles) as [k|].
    + destruct IH as (Hk & Hex & Hmin).
      replace (k - i) with (S (k - S i)) by lia. simpl.
      split; [lia|]. split; [done|].
      intros [|j] Hj; [done|]. apply Hmin. lia.
    + intros [|j]; [done|]. apply IH.
Qed.

(** X13.  The column search of [detect_columns] goes by position, not by
    the order of the needles: on the normalized header it is given,
    [find_col] returns the first column whose cell contains any one of the
    needles, and no column when no cell contains one.  So a "视频链接" column that stands
    before the "ID" column is taken as the id column, 链接 being one of the
    needles of the id. *)
Theorem find_col_first_by_position (header needles : list str) :
  match find_col header needles with
  | Some k =>
      k < length header /\
      (exists n, In n needles /\ n <> [] /\ occurs_in n (List.nth k header [])) /\
      (forall j, j < k ->
         ~ exists n, In n needles /\ n <> [] /\ occurs_in n (List.nth j header []))
  | None =>
      forall j, ~ exists n, In n needles /\ n <> [] /\ occurs_in n (List.nth j header [])
  end /\
  col_id (detect_columns [u "序号"; u "视频链接"; u "ID"; u "联系方式"]) = Some 1 /\
  col_video (detect_columns [u "序号"; u "视频链接"; u "ID"; u "联系方式"]) = Some 1 /\
  col_contact (detect_columns [u "序号"; u "视频链接"; u "ID"; u "联系方式"]) = Some 3 /\
  col_note (detect_columns [u "序号"; u "视频链接"; u "ID"; u "联系方式"]) = None.
Proof.
  split; [|by vm_compute].
  pose proof (find_col_from_spec needles header 0) as H. unfold find_col.
  destruct (find_col_from 0 header needles) as [k|]; [|done].
  rewrite Nat.sub_0_r in H. destruct H as (H1 & H2 & H3).
  split; [lia|done].
Qed.

(** *** The rows of the influencer-only reading *)



Lemma flush_current st : scan_current (flush st) = None.
Proof. unfold flush. by destruct (scan_current st) as [[p c]|]. Qed.






End InfluencerSheetTheorems.

(** ** The reconciler, whatever the flags *)

Module EffectTheorems.
Import DateTheorems MetricTheorems ReconcilerTheorems DriverTheorems NormalizerTheorems.

Lemma map_update_where {R B} (g : R -> B) (c : R -> bool) f t :
  (forall r, In r t -> c r = true -> g (f r) = g r) ->
  List.map g (update_where c f t) = List.map g t.
Proof.
  intros Hf. unfold update_where. rewrite List.map_map.
  apply List.map_ext_in. intros r Hr. destruct (c r) eqn:E; [by apply Hf|done].
Qed.

Lemma In_update_where {R} (c : R -> bool) f t r :
  In r t -> In (if c r then f r else r) (update_where c f t).
Proof. intros H. unfold update_where. apply in_map_iff. by exists r. Qed.

Lemma is_Some_select_first {R} (c : R -> bool) t :
  is_Some (select_first c t) <-> exists r, In r t /\ c r = true.
Proof.
  split.
  - intros [r Hr]. exists r. by apply select_first_In.
  - intros (r & Hr & Hc). by apply (select_first_exists c t r).
Qed.

Lemma NoDup_snoc_ids {R} (key : R -> str) t r :
  NoDup (List.map key t) -> ~ In (key r) (List.map key t) ->
  NoDup (List.map key (t ++ [r])).
Proof.
  intros Hnd Hfresh. rewrite List.map_app. simpl. apply NoDup_app. split; [done|].
  split; [|apply NoDup_singleton].
  intros x Hx Hx'. apply list_elem_of_In in Hx. apply list_elem_of_singleton in Hx'.
  by subst.
Qed.

Lemma notes_only_handle v r :
  inf_handle (set_influencer {["notes"%string := v]} r) = inf_handle r.
Proof. unfold set_influencer. simpl. by rewrite lookup_singleton_ne. Qed.

(** What [create_or_patch_influencer] does to the three tables, whatever
    its arguments. *)
Lemma influencer_effect now new_id d h c p notes d' row patched created :
  NoDup (List.map inf_id (influencers d)) ->
  create_or_patch_influencer now new_id d h c p notes = Ok (d', (row, patched, created)) ->
  bookings d' = bookings d /\ traffic_logs d' = traffic_logs d /\
  List.map inf_id (influencers d')
  = List.map inf_id (influencers d) ++ (if created then [new_id] else []) /\
  List.map inf_handle (influencers d')
  = List.map inf_handle (influencers d) ++ (if created then [h] else []) /\
  NoDup (List.map inf_id (influencers d')) /\
  (created = true -> patched = false /\ find_influencer_by_handle d h = None) /\
  (created = false -> is_Some (find_influencer_by_handle d h)) /\
  In row (influencers d') /\ inf_handle row = h.
Proof.
  intros Hnd. unfold create_or_patch_influencer.
  destruct (find_influencer_by_handle d h) as [e|] eqn:Hfind.
  - pose proof (find_influencer_by_handle_Some _ _ _ Hfind) as (Hin & Hh & Hne).
    case_bool_decide as Hupd.
    { intros [= <- <- <- <-]. rewrite !app_nil_r. by repeat split. }
    set (upd := <["updatedAt"%string := VText now]> _).
    assert (Hsel : select_first (has_id_inf (inf_id e))
                     (update_where (has_id_inf (inf_id e)) (set_influencer upd)
                        (influencers d)) = Some (set_influencer upd e)).
    { apply (select_updated inf_id); auto. }
    rewrite Hsel. simpl default. intros [= <- <- <- <-].
    cbn [influencers bookings traffic_logs with_influencers]. rewrite !app_nil_r.
    assert (Hhandle : inf_handle (set_influencer upd e) = inf_handle e).
    { subst upd. rewrite set_influencer_updates. simpl. unfold filled.
      destruct (_ && _); [by rewrite Hh|done]. }
    split; [done|]. split; [done|].
    split; [by apply (update_where_keys inf_id)|].
    split.
    { apply map_update_where. intros r Hr Hid. apply bool_decide_eq_true in Hid.
      assert (r = e) as ->; [|done]. by apply (NoDup_same_key inf_id (influencers d)). }
    split; [by rewrite (update_where_keys inf_id)|].
    split; [done|]. split; [done|].
    split; [by apply select_first_In in Hsel as [? _]|congruence].
  - destruct (split_contact c) as [cm ci] eqn:Hsplit.
    set (row0 := {| inf_id := new_id |}).
    destruct (insert_row inf_id row0 (influencers d)) as [t|x] eqn:Hins; [|done].
    apply insert_row_Ok in Hins as [-> Hfresh].
    pose proof (NoDup_snoc_ids inf_id _ row0 Hnd Hfresh) as Hnd'.
    cbn [mbind result_bind bind].
    destruct (truthy (normalize_text notes)) eqn:Hnotes.
    + set (upd := {["notes"%string := VText (normalize_text notes)]}).
      assert (Hsel : select_first (has_id_inf new_id)
                (update_where (has_id_inf new_id) (set_influencer upd)
                   (influencers d ++ [row0])) = Some (set_influencer upd row0)).
      { apply (select_updated inf_id); auto. apply in_or_app. right. by left. }
      rewrite Hsel. simpl default. intros [= <- <- <- <-].
      cbn [influencers bookings traffic_logs with_influencers].
      split; [done|]. split; [done|].
      split.
      { rewrite (update_where_keys inf_id) by done. by rewrite List.map_app. }
      split.
      { rewrite map_update_where by (intros; apply notes_only_handle).
        by rewrite List.map_app. }
      split; [by rewrite (update_where_keys inf_id)|].
      split; [done|]. split; [done|].
      split; [by apply select_first_In in Hsel as [? _]|apply notes_only_handle].
    + change (has_id_inf new_id) with (fun x => bool_decide (inf_id x = inf_id row0)).
      rewrite (select_first_new inf_id) by done. simpl default.
      intros [= <- <- <- <-].
      cbn [influencers bookings traffic_logs with_influencers].
      rewrite !List.map_app.
      split; [done|]. split; [done|]. split; [done|]. split; [done|].
      split; [by rewrite <- List.map_app|].
      split; [done|]. split; [done|].
      split; [apply in_or_app; right; by left|done].
Qed.

(** What [create_or_update_booking] does to the three tables, whatever the
    flags. *)
Lemma booking_effect now new_id d sid sname ir vd vw sd vr pd vl bw notes st ek
    fs fe d' row created updated :
  create_or_update_booking now new_id d sid sname ir vd vw sd vr pd vl bw notes st ek
    fs fe = Ok (d', (row, created, updated)) ->
  influencers d' = influencers d /\
  List.map bk_id (bookings d')
  = List.map bk_id (bookings d) ++ (if created then [new_id] else []) /\
  List.map tr_id (traffic_logs d') = List.map tr_id (traffic_logs d) /\
  List.map tr_bookingId (traffic_logs d') = List.map tr_bookingId (traffic_logs d) /\
  (created = true -> updated = false) /\
  (fs = false -> traffic_logs d' = traffic_logs d) /\
  (fs = false -> fe = false -> updated = false).
Proof.
  unfold create_or_update_booking.
  destruct (find_booking d _ _ _ _ _ _) as [e|] eqn:Hfind.
  - cbv zeta.
    set (differs := fs && negb (bool_decide (bk_storeId e = sid))).
    set (upd := if fe then _ else ∅).
    destruct differs eqn:Ed, (bool_decide (upd = ∅)) eqn:Eu; cbn [negb orb];
      intros [= <- <- <- <-];
      cbn [influencers bookings traffic_logs with_bookings];
      rewrite ?app_nil_r, ?(update_where_keys bk_id) by done;
      rewrite ?(map_update_where tr_id), ?(map_update_where tr_bookingId) by done;
      (split; [done|]); (split; [done|]); (split; [done|]); (split; [done|]);
      (split; [done|]).
    + split; [intros ->; by subst differs|].
      intros -> _. by subst differs.
    + split; [intros ->; by subst differs|].
      intros -> _. by subst differs.
    + done.
    + split; [done|]. intros _ ->. subst upd. by apply bool_decide_eq_false in Eu.
  - set (row0 := {| bk_id := new_id |}).
    destruct (insert_row bk_id row0 (bookings d)) as [t|x] eqn:Hins; [|done].
    apply insert_row_Ok in Hins as [-> Hfresh].
    cbn [mbind result_bind bind]. intros [= <- <- <- <-].
    cbn [influencers bookings traffic_logs with_bookings].
    by rewrite List.map_app.
Qed.

(** What [upsert_traffic_for_booking] does to the three tables. *)
Lemma traffic_effect now new_id d b v l c s sh note d' cr up :
  upsert_traffic_for_booking now new_id d b v l c s sh note = Ok (d', (cr, up)) ->
  influencers d' = influencers d /\ bookings d' = bookings d /\
  List.map tr_id (traffic_logs d')
  = List.map tr_id (traffic_logs d) ++ (if cr then [new_id] else []) /\
  List.map tr_bookingId (traffic_logs d')
  = List.map tr_bookingId (traffic_logs d) ++ (if cr then [bk_id b] else []) /\
  (cr = true -> up = false /\ ~ In (bk_id b) (List.map tr_bookingId (traffic_logs d))) /\
  (cr = true \/ up = true -> (0 < Z.max v (Z.max l (Z.max c (Z.max s sh))))%Z).
Proof.
  unfold upsert_traffic_for_booking.
  destruct (Z.leb_spec (Z.max v (Z.max l (Z.max c (Z.max s sh)))) 0) as [Hle|Hgt].
  { intros [= <- <- <-]. rewrite !app_nil_r. repeat split; try done. by intros [|]. }
  destruct (select_first _ (traffic_logs d)) as [e|] eqn:Hsel.
  - destruct (_ && _).
    { intros [= <- <- <-]. rewrite !app_nil_r. repeat split; try done. }
    intros [= <- <- <-]. cbn [influencers bookings traffic_logs with_traffic].
    rewrite !app_nil_r.
    rewrite (map_update_where tr_id), (map_update_where tr_bookingId) by done.
    by repeat split.
  - set (row0 := {| tr_id := new_id |}).
    destruct (insert_row tr_id row0 (traffic_logs d)) as [t|x] eqn:Hins; [|done].
    apply insert_row_Ok in Hins as [-> Hfresh].
    cbn [mbind result_bind bind]. intros [= <- <- <-].
    cbn [influencers bookings traffic_logs with_traffic]. rewrite !List.map_app.
    split; [done|]. split; [done|]. split; [done|]. split; [done|].
    split; [|done]. intros _. split; [done|].
    intros Hin. apply in_map_iff in Hin as (x & Hx & Hin).
    assert (is_Some (select_first (fun t => bool_decide (tr_bookingId t = bk_id b))
                       (traffic_logs d))) as [y Hy].
    { apply is_Some_select_first. exists x. split; [done|]. by apply bool_decide_eq_true_2. }
    congruence.
Qed.

(** *** The import loop *)

Lemma entry_booking_effect a mode w d ir entry d' row created updated :
  entry_booking a mode w d ir entry = Ok (d', (row, created, updated)) ->
  influencers d' = influencers d /\
  List.map bk_id (bookings d')
  = List.map bk_id (bookings d) ++ (if created then [id_booking w] else []) /\
  List.map tr_id (traffic_logs d') = List.map tr_id (traffic_logs d) /\
  List.map tr_bookingId (traffic_logs d') = List.map tr_bookingId (traffic_logs d) /\
  (created = true -> updated = false).
Proof.
  unfold entry_booking. destruct (entry_visit mode entry) as [[[vd vw] notes] bw].
  intros H. apply booking_effect in H as (H1 & H2 & H3 & H4 & H5 & _). done.
Qed.

Lemma item_effect a mode w d entry d' o :
  NoDup (List.map inf_id (influencers d)) ->
  import_item a mode w d entry = Ok (d', o) ->
  List.map inf_id (influencers d')
  = List.map inf_id (influencers d)
    ++ (if influencer_created o then [id_influencer w] else []) /\
  List.map bk_id (bookings d')
  = List.map bk_id (bookings d) ++ (if booking_created o then [id_booking w] else []) /\
  List.map tr_id (traffic_logs d')
  = List.map tr_id (traffic_logs d) ++ (if traffic_created o then [id_traffic w] else []) /\
  NoDup (List.map inf_id (influencers d')) /\
  (influencer_created o = true -> influencer_patched o = false) /\
  (booking_created o = true -> booking_updated o = false) /\
  (traffic_created o = true -> traffic_updated o = false).
Proof.
  intros Hnd. rewrite import_item_eq. intros H.
  apply bind_Ok in H as ([d1 [[ir patched] created]] & Hcpi & H).
  apply bind_Ok in H as ([d2 [[b cb] su]] & Hbk & H).
  apply bind_Ok in H as ([[[[v l] c] s] sh] & Hm & H).
  apply bind_Ok in H as ([d3 [ct ut]] & Htr & H).
  injection H as <- <-.
  cbn [outcome_of influencer_created influencer_patched booking_created booking_updated
       traffic_created traffic_updated].
  apply influencer_effect in Hcpi as (I1 & I2 & I3 & _ & I5 & I6 & _); [|done].
  apply entry_booking_effect in Hbk as (B1 & B2 & B3 & _ & B5).
  apply traffic_effect in Htr as (T1 & T2 & T3 & _ & T5 & _).
  split; [by rewrite T1, B1|].
  split; [by rewrite T2, B2, I1|].
  split; [by rewrite T3, B3, I2|].
  split; [by rewrite T1, B1|].
  split; [intros Hc; by apply I6|]. split; [done|]. intros Hc. by apply T5.
Qed.

Lemma count_totals os : forall st,
  let st' := fold_left count os st in
  influencers_created st'
  = influencers_created st + length (List.filter influencer_created os) /\
  bookings_created st'
  = bookings_created st + length (List.filter booking_created os) /\
  traffic_created_count st'
  = traffic_created_count st + length (List.filter traffic_created os) /\
  bookings_created st' + bookings_updated st' + bookings_skipped st'
  = bookings_created st + bookings_updated st + bookings_skipped st + length os /\
  influencers_created st' + influencers_patched st'
  <= influencers_created st + influencers_patched st + length os /\
  traffic_created_count st' + traffic_updated_count st'
  <= traffic_created_count st + traffic_updated_count st + length os.
Proof.
  induction os as [|o os IH]; intros st; cbn zeta.
  { simpl. lia. }
  cbn [fold_left]. specialize (IH (count st o)). cbn zeta in IH.
  destruct IH as (E1 & E2 & E3 & E4 & E5 & E6).
  rewrite E1, E2, E3. cbn [List.filter length].
  unfold count in *. cbn in *.
  destruct (influencer_created o), (influencer_patched o), (booking_created o),
    (booking_updated o), (traffic_created o), (traffic_updated o); cbn in *; lia.
Qed.

Lemma loop_effect a mode draws entries : forall n d d' os,
  NoDup (List.map inf_id (influencers d)) ->
  import_loop a mode draws n d entries = Ok (d', os) ->
  length os = length entries /\
  (exists li, List.map inf_id (influencers d') = List.map inf_id (influencers d) ++ li /\
              length li = length (List.filter influencer_created os)) /\
  (exists lb, List.map bk_id (bookings d') = List.map bk_id (bookings d) ++ lb /\
              length lb = length (List.filter booking_created os)) /\
  (exists lt, List.map tr_id (traffic_logs d') = List.map tr_id (traffic_logs d) ++ lt /\
              length lt = length (List.filter traffic_created os)).
Proof.
  induction entries as [|e entries IH]; intros n d d' os Hnd.
  - intros [= <- <-]. split; [done|].
    repeat split; exists []; by rewrite app_nil_r.
  - cbn [import_loop]. intros H.
    apply bind_Ok in H as ([d1 o] & Hitem & H).
    apply bind_Ok in H as ([d2 os'] & Hloop & H).
    injection H as <- <-.
    apply item_effect in Hitem as (I1 & I2 & I3 & I4 & _); [|done].
    destruct (IH _ _ _ _ I4 Hloop) as (L0 & (li & L1 & N1) & (lb & L2 & N2) & (lt & L3 & N3)).
    split; [simpl; by rewrite L0|].
    cbn [List.filter].
    split; [|split].
    + eexists. rewrite L1, I1, <- app_assoc. split; [reflexivity|].
      rewrite length_app, N1. by destruct (influencer_created o).
    + eexists. rewrite L2, I2, <- app_assoc. split; [reflexivity|].
      rewrite length_app, N2. by destruct (booking_created o).
    + eexists. rewrite L3, I3, <- app_assoc. split; [reflexivity|].
      rewrite length_app, N3. by destruct (traffic_created o).
Qed.

(** X15.  A run of the import that completes never deletes or reorders a
    row and never changes an id: each table keeps its ids in place and
    grows at its end by exactly as many rows as the run reports created for
    it.  Every record of the sheet is counted once among the bookings
    created, updated or skipped, and at most once among the influencers and
    among the traffic snapshots. *)
Theorem import_accounts_for_every_row (a : Args) (draws : nat -> Draw) (d d' : db)
    (csv_rows : list (list str)) (os : list Outcome) :
  NoDup (List.map inf_id (influencers d)) ->
  run_import a draws d csv_rows = Ok (d', os) ->
  length os = length (extract_import_rows csv_rows) /\
  (exists li, List.map inf_id (influencers d') = List.map inf_id (influencers d) ++ li /\
              length li = influencers_created (stats_of os)) /\
  (exists lb, List.map bk_id (bookings d') = List.map bk_id (bookings d) ++ lb /\
              length lb = bookings_created (stats_of os)) /\
  (exists lt, List.map tr_id (traffic_logs d') = List.map tr_id (traffic_logs d) ++ lt /\
              length lt = traffic_created_count (stats_of os)) /\
  bookings_created (stats_of os) + bookings_updated (stats_of os)
  + bookings_skipped (stats_of os) = length os /\
  influencers_created (stats_of os) + influencers_patched (stats_of os) <= length os /\
  traffic_created_count (stats_of os) + traffic_updated_count (stats_of os) <= length os.
Proof.
  intros Hnd Hrun. unfold run_import in Hrun.
  apply loop_effect in Hrun as (L0 & L1 & L2 & L3); [|done].
  pose proof (count_totals os no_stats) as (E1 & E2 & E3 & E4 & E5 & E6).
  fold (stats_of os) in E1, E2, E3, E4, E5, E6. simpl in E1, E2, E3, E4, E5, E6.
  rewrite E1, E2, E3. split; [done|]. split; [done|]. split; [done|]. split; [done|].
  rewrite <- E1, <- E2, <- E3. split; [done|]. split; done.
Qed.

Lemma import_accounts_for_every_row_witness :
  length linh_outcomes = length (extract_import_rows linh_sheet) /\
  (exists li, List.map inf_id (influencers linh_db)
              = List.map inf_id (influencers empty_db) ++ li /\
              length li = influencers_created (stats_of linh_outcomes)) /\
  (exists lb, List.map bk_id (bookings linh_db)
              = List.map bk_id (bookings empty_db) ++ lb /\
              length lb = bookings_created (stats_of linh_outcomes)) /\
  (exists lt, List.map tr_id (traffic_logs linh_db)
              = List.map tr_id (traffic_logs empty_db) ++ lt /\
              length lt = traffic_created_count (stats_of linh_outcomes)) /\
  bookings_created (stats_of linh_outcomes) + bookings_updated (stats_of linh_outcomes)
  + bookings_skipped (stats_of linh_outcomes) = length linh_outcomes /\
  influencers_created (stats_of linh_outcomes)
  + influencers_patched (stats_of linh_outcomes) <= length linh_outcomes /\
  traffic_created_count (stats_of linh_outcomes)
  + traffic_updated_count (stats_of linh_outcomes) <= length linh_outcomes.
Proof.
  apply (import_accounts_for_every_row plain_args (draws_with (u "a")) empty_db linh_db
           linh_sheet linh_outcomes).
  - simpl. constructor.
  - vm_compute. reflexivity.
Defined.

End EffectTheorems.

(** ** The influencer-only import *)

Module InfluencerImportTheorems.
Import DateTheorems MetricTheorems ReconcilerTheorems DriverTheorems NormalizerTheorems
  EffectTheorems.

Lemma handle_listed d h :
  h <> [] ->
  (is_Some (find_influencer_by_handle d h) <-> In h (List.map inf_handle (influencers d))).
Proof.
  intros Hh. unfold find_influencer_by_handle. destruct h as [|c0 h0]; [done|].
  rewrite is_Some_select_first. split.
  - intros (r & Hr & Hc). apply bool_decide_eq_true in Hc.
    apply in_map_iff. by exists r.
  - intros Hin. apply in_map_iff in Hin as (r & Hc & Hr). exists r.
    split; [done|]. by apply bool_decide_eq_true_2.
Qed.

Lemma influencers_loop_effect draws rows : forall n d d' os,
  NoDup (List.map inf_id (influencers d)) ->
  influencers_loop draws n d rows = Ok (d', os) ->
  bookings d' = bookings d /\ traffic_logs d' = traffic_logs d /\
  length os = length rows /\
  (exists li, List.map inf_id (influencers d') = List.map inf_id (influencers d) ++ li /\
              length li = created_count os) /\
  (exists lh, List.map inf_handle (influencers d')
              = List.map inf_handle (influencers d) ++ lh) /\
  Forall (fun r => In (parse_tiktok_handle (io_profile_url r))
                     (List.map inf_handle (influencers d'))) rows.
Proof.
  induction rows as [|r rows IH]; intros n d d' os Hnd.
  - intros [= <- <-]. split; [done|]. split; [done|]. split; [done|].
    split; [exists []; by rewrite app_nil_r|].
    split; [exists []; by rewrite app_nil_r|constructor].
  - cbn [influencers_loop]. intros H.
    apply bind_Ok in H as ([d1 [[row patched] created]] & Hcpi & H).
    apply bind_Ok in H as ([d2 os'] & Hloop & H).
    injection H as <- <-.
    apply influencer_effect in Hcpi as (I1 & I2 & I3 & I4 & I5 & _ & _ & I8 & I9);
      [|done].
    destruct (IH _ _ _ _ I5 Hloop) as (L1 & L2 & L3 & (li & L4 & N4) & (lh & L5) & L6).
    split; [congruence|]. split; [congruence|]. split; [simpl; by rewrite L3|].
    split.
    { eexists. rewrite L4, I3, <- app_assoc. split; [reflexivity|].
      rewrite length_app, N4. unfold created_count. cbn [List.filter snd].
      by destruct created. }
    split.
    { eexists. by rewrite L5, I4, <- app_assoc. }
    constructor; [|done].
    rewrite L5. apply in_or_app. left. rewrite <- I9. by apply in_map.
Qed.

(** X16.  A run of the influencer-only import that completes leaves the
    bookings and the traffic snapshots untouched, keeps the ids and the
    handles of the influencers it found in place, and adds at the end of
    the table exactly as many influencers as it reports created; afterwards
    the handle of every row of the sheet, when it has one, is found by the
    handle lookup. *)
Theorem influencer_only_import_effect (draws : nat -> Draw) (d d' : db)
    (csv_rows : list (list str)) (os : list (bool * bool)) :
  NoDup (List.map inf_id (influencers d)) ->
  run_influencers_only draws d csv_rows = Ok (d', os) ->
  bookings d' = bookings d /\ traffic_logs d' = traffic_logs d /\
  length os = length (extract_influencer_only_rows csv_rows) /\
  (exists li, List.map inf_id (influencers d') = List.map inf_id (influencers d) ++ li /\
              length li = created_count os) /\
  (exists lh, List.map inf_handle (influencers d')
              = List.map inf_handle (influencers d) ++ lh) /\
  created_count os + patched_count os <= length os /\
  Forall (fun r => parse_tiktok_handle (io_profile_url r) <> [] ->
                   is_Some (find_influencer_by_handle d'
                              (parse_tiktok_handle (io_profile_url r))))
    (extract_influencer_only_rows csv_rows).
Proof.
  intros Hnd Hrun. unfold run_influencers_only in Hrun.
  apply influencers_loop_effect in Hrun as (L1 & L2 & L3 & L4 & L5 & L6); [|done].
  split; [done|]. split; [done|]. split; [done|]. split; [done|]. split; [done|].
  split.
  { unfold created_count, patched_count. clear.
    induction os as [|[p c] os IH]; [done|]. cbn [List.filter fst snd length].
    destruct c, p; cbn [negb andb length]; lia. }
  eapply Forall_impl; [exact L6|]. intros r Hin Hne. by apply handle_listed.
Qed.

Lemma influencer_only_import_effect_witness :
  bookings profiles_db = bookings empty_db /\
  traffic_logs profiles_db = traffic_logs empty_db /\
  length profiles_outcomes = length (extract_influencer_only_rows profiles_sheet) /\
  (exists li, List.map inf_id (influencers profiles_db)
              = List.map inf_id (influencers empty_db) ++ li /\
              length li = created_count profiles_outcomes) /\
  (exists lh, List.map inf_handle (influencers profiles_db)
              = List.map inf_handle (influencers empty_db) ++ lh) /\
  created_count profiles_outcomes + patched_count profiles_outcomes
  <= length profiles_outcomes /\
  Forall (fun r => parse_tiktok_handle (io_profile_url r) <> [] ->
                   is_Some (find_influencer_by_handle profiles_db
                              (parse_tiktok_handle (io_profile_url r))))
    (extract_influencer_only_rows profiles_sheet).
Proof.
  apply (influencer_only_import_effect (draws_with (u "a")) empty_db profiles_db
           profiles_sheet profiles_outcomes).
  - simpl. constructor.
  - vm_compute. reflexivity.
Defined.

End InfluencerImportTheorems.

(** ** Lookups *)

Module LookupTheorems.
Import DateTheorems MetricTheorems ReconcilerTheorems DriverTheorems NormalizerTheorems
  EffectTheorems.

Lemma select_first_None {R} (c : R -> bool) t :
  select_first c t = None <-> forall r, In r t -> c r = false.
Proof.
  split.
  - intros H r Hr. by apply (find_none _ _ H).
  - intros H. destruct (select_first c t) as [r|] eqn:E; [|done].
    apply select_first_In in E as [Hr Hc]. rewrite (H r Hr) in Hc. done.
Qed.

Lemma tuple_answer h p s t r :
  truthy h && truthy s && truthy t = true ->
  bool_decide (bk_handle r = h) && bool_decide (bk_postDate r = p)
  && bool_decide (bk_storeId r = s) && bool_decide (bk_sourceType r = t) = true ->
  answers_tuple r h p s t.
Proof.
  intros E Hc.
  apply andb_true_iff in E as [E Ht]. apply andb_true_iff in E as [Hh Hs].
  apply andb_true_iff in Hc as [Hc H4]. apply andb_true_iff in Hc as [Hc H3].
  apply andb_true_iff in Hc as [H1 H2].
  apply bool_decide_eq_true in H1, H2, H3, H4. apply truthy_true in Hh, Hs, Ht.
  by repeat split.
Qed.

Lemma find_booking_answer d vl h p s t k r :
  find_booking d vl h p s t k = Some r ->
  In r (bookings d) /\
  (answers_key r (normalize_text k) \/
   answers_link r (normalize_text vl) \/
   answers_tuple r (normalize_text h) (normalize_text p) (normalize_text s)
     (normalize_text t)).
Proof.
  intros H. split; [by apply find_booking_In in H|].
  revert H. unfold find_booking, find_booking_by_video_link.
  rewrite !normalize_text_idem.
  destruct (truthy (normalize_text k)) eqn:Ek.
  - destruct (select_first _ (bookings d)) as [x|] eqn:E1.
    { intros [= <-]. apply select_first_In in E1 as [_ Hc]. left.
      split; [by apply truthy_true|].
      apply orb_true_iff in Hc as [Hc|Hc]; [left; by apply bool_decide_eq_true in Hc|].
      by right. }
    destruct (truthy (normalize_text vl)) eqn:Ev.
    + destruct (normalize_text vl) as [|c0 l0] eqn:El; [done|].
      match goal with |- context [select_first ?c ?t] =>
        destruct (select_first c t) as [y|] eqn:E2 end.
      { intros [= <-]. apply select_first_In in E2 as [_ Hc].
        apply bool_decide_eq_true in Hc. right. left. by split. }
      destruct (_ && _) eqn:E3; [|done]. intros E4.
      apply select_first_In in E4 as [_ Hc]. right. right.
      by apply tuple_answer.
    + destruct (_ && _) eqn:E3; [|done]. intros E4.
      apply select_first_In in E4 as [_ Hc]. right. right.
      by apply tuple_answer.
  - destruct (truthy (normalize_text vl)) eqn:Ev.
    + destruct (normalize_text vl) as [|c0 l0] eqn:El; [done|].
      match goal with |- context [select_first ?c ?t] =>
        destruct (select_first c t) as [y|] eqn:E2 end.
      { intros [= <-]. apply select_first_In in E2 as [_ Hc].
        apply bool_decide_eq_true in Hc. right. left. by split. }
      destruct (_ && _) eqn:E3; [|done]. intros E4.
      apply select_first_In in E4 as [_ Hc]. right. right.
      by apply tuple_answer.
    + destruct (_ && _) eqn:E3; [|done]. intros E4.
      apply select_first_In in E4 as [_ Hc]. right. right.
      by apply tuple_answer.
Qed.

Lemma find_booking_finds d vl h p s t k r :
  In r (bookings d) ->
  answers_key r (normalize_text k) \/
  answers_link r (normalize_text vl) \/
  answers_tuple r (normalize_text h) (normalize_text p) (normalize_text s)
    (normalize_text t) ->
  is_Some (find_booking d vl h p s t k).
Proof.
  intros Hin Hans. unfold find_booking, find_booking_by_video_link.
  rewrite !normalize_text_idem.
  match goal with |- context [if truthy (normalize_text k) then ?a else _] =>
    destruct (if truthy (normalize_text k) then a else None) as [x|] eqn:E1 end;
    [done|].
  match goal with |- context [if truthy (normalize_text vl) then ?a else _] =>
    destruct (if truthy (normalize_text vl) then a else None) as [x|] eqn:E2 end;
    [done|].
  destruct Hans as [[Hk Ha]|[[Hl Ha]|(Hh & Hs & Ht & H1 & H2 & H3 & H4)]].
  - exfalso. apply truthy_true in Hk. rewrite Hk in E1.
    rewrite select_first_None in E1. specialize (E1 r Hin).
    apply orb_false_iff in E1 as [E1 E1'].
    destruct Ha as [Ha|Ha]; [by apply bool_decide_eq_false in E1|congruence].
  - exfalso. destruct (normalize_text vl) as [|c0 l0] eqn:El; [done|].
    cbn [truthy] in E2. rewrite select_first_None in E2. specialize (E2 r Hin).
    by apply bool_decide_eq_false in E2.
  - apply truthy_true in Hh, Hs, Ht. rewrite Hh, Hs, Ht. cbn [andb].
    apply is_Some_select_first. exists r. split; [done|].
    by rewrite !bool_decide_eq_true_2.
Qed.

(** X17.  [find_booking] returns a booking of the table exactly when some
    booking answers one of the three lookups that apply: the import key
    (its video link is the placeholder of the key, or its notes match the
    tag under SQL's LIKE), the video link, or the tuple of handle, post
    date, store and source type; and the booking it returns answers one of
    them.  With no key, no link and no handle it finds nothing, whatever the
    table holds.  Because the tag is matched with LIKE, a tag in another
    case and a key with [_] or [%] in it match more than the literal tag. *)
Theorem find_booking_answers_a_lookup (d : db) (vl h p s t k : str) :
  (forall r,
     find_booking d vl h p s t k = Some r ->
     In r (bookings d) /\
     (answers_key r (normalize_text k) \/
      answers_link r (normalize_text vl) \/
      answers_tuple r (normalize_text h) (normalize_text p) (normalize_text s)
        (normalize_text t))) /\
  (find_booking d vl h p s t k = None <->
   forall r, In r (bookings d) ->
     ~ answers_key r (normalize_text k) /\
     ~ answers_link r (normalize_text vl) /\
     ~ answers_tuple r (normalize_text h) (normalize_text p) (normalize_text s)
         (normalize_text t)) /\
  (normalize_text k = [] -> normalize_text vl = [] -> normalize_text h = [] ->
   find_booking d vl h p s t k = None) /\
  sql_like (u "%" ++ build_import_tag (u "walkin:0:1") ++ u "%")
    (u "x [IMPORT:WALKIN:0:1] y") = true /\
  sql_like (u "%" ++ build_import_tag (u "walkin:a_b:1") ++ u "%")
    (u "[import:walkin:axb:1]") = true.
Proof.
  assert (Hnone : find_booking d vl h p s t k = None <->
    forall r, In r (bookings d) ->
      ~ answers_key r (normalize_text k) /\
      ~ answers_link r (normalize_text vl) /\
      ~ answers_tuple r (normalize_text h) (normalize_text p) (normalize_text s)
          (normalize_text t)).
  { split.
    - intros Hn r Hr.
      assert (Hno : ~ (answers_key r (normalize_text k) \/
                answers_link r (normalize_text vl) \/
                answers_tuple r (normalize_text h) (normalize_text p) (normalize_text s)
                  (normalize_text t))).
      { intros Ha. destruct (find_booking_finds d vl h p s t k r Hr Ha) as [x Hx].
        congruence. }
      tauto.
    - intros Hall. destruct (find_booking d vl h p s t k) as [r|] eqn:E; [|done].
      apply find_booking_answer in E as [Hr Ha].
      destruct (Hall r Hr) as (N1 & N2 & N3). tauto. }
  split; [intros r; apply find_booking_answer|].
  split; [exact Hnone|].
  split; [|by vm_compute].
  intros Ek El Eh. apply Hnone. intros r _. rewrite Ek, El, Eh.
  unfold answers_key, answers_link, answers_tuple. tauto.
Qed.

End LookupTheorems.

(** ** Traffic snapshots *)

Module TrafficTheorems.
Import DateTheorems MetricTheorems ReconcilerTheorems DriverTheorems NormalizerTheorems
  EffectTheorems LookupTheorems.

Lemma NoDup_snoc_new {B} (l : list B) (x : B) :
  NoDup l -> ~ In x l -> NoDup (l ++ [x]).
Proof.
  intros Hnd Hx. apply NoDup_app. split; [done|]. split; [|apply NoDup_singleton].
  intros y Hy Hy'. apply list_elem_of_In in Hy. apply list_elem_of_singleton in Hy'.
  by subst.
Qed.

(** X18.  [upsert_traffic_for_booking] keeps one snapshot per booking: if
    no two snapshots share a booking or an id before the call, none do
    after it.  When some metric is above zero, the snapshot of the booking
    holds the five incoming metrics after the call, whether it was created,
    updated or already equal; every snapshot of another booking is left as
    it was, and so are the influencers and the bookings. *)
Theorem upsert_traffic_keeps_one_snapshot (now new_id : str) (d d' : db) (b : booking)
    (v l c s sh : Z) (note : str) (cr up : bool) :
  NoDup (List.map tr_bookingId (traffic_logs d)) ->
  NoDup (List.map tr_id (traffic_logs d)) ->
  upsert_traffic_for_booking now new_id d b v l c s sh note = Ok (d', (cr, up)) ->
  NoDup (List.map tr_bookingId (traffic_logs d')) /\
  NoDup (List.map tr_id (traffic_logs d')) /\
  influencers d' = influencers d /\ bookings d' = bookings d /\
  ((0 < Z.max v (Z.max l (Z.max c (Z.max s sh))))%Z ->
   exists t,
     select_first (fun t => bool_decide (tr_bookingId t = bk_id b)) (traffic_logs d')
     = Some t /\
     tr_views t = v /\ tr_likes t = l /\ tr_comments t = c /\ tr_saves t = s /\
     tr_shares t = sh /\
     normalize_text (tr_postDate t) = normalize_text (bk_postDate b) /\
     normalize_text (tr_videoLink t) = normalize_text (bk_videoLink b) /\
     normalize_text (tr_note t) = normalize_text note) /\
  (forall t, In t (traffic_logs d) -> tr_bookingId t <> bk_id b ->
             In t (traffic_logs d')) /\
  ((Z.max v (Z.max l (Z.max c (Z.max s sh))) <= 0)%Z -> d' = d /\ cr = false /\ up = false).
Proof.
  intros Hnb Hni. unfold upsert_traffic_for_booking.
  destruct (Z.leb_spec (Z.max v (Z.max l (Z.max c (Z.max s sh)))) 0) as [Hle|Hgt].
  { intros [= <- <- <-]. repeat split; try done. lia. }
  destruct (select_first _ (traffic_logs d)) as [e|] eqn:Hsel.
  - pose proof (select_first_In _ _ _ Hsel) as [Hin Hb].
    apply bool_decide_eq_true in Hb.
    destruct (_ && _) eqn:Eq.
    { intros [= <- <- <-]. split; [done|]. split; [done|]. split; [done|].
      split; [done|]. split; [|split; [done|lia]].
      intros _. exists e. split; [done|].
      repeat (apply andb_true_iff in Eq as [Eq ?]).
      repeat match goal with
      | H : (_ =? _)%Z = true |- _ => apply Z.eqb_eq in H
      | H : bool_decide _ = true |- _ => apply bool_decide_eq_true in H
      end.
      by repeat split. }
    intros [= <- <- <-]. cbn [influencers bookings traffic_logs with_traffic].
    set (f := fun t : traffic => {| tr_id := tr_id t |}).
    split; [by rewrite (map_update_where tr_bookingId)|].
    split; [by rewrite (map_update_where tr_id)|].
    split; [done|]. split; [done|].
    split; [|split; [|lia]].
    + intros _. exists (f e). split; [|subst f; simpl; by rewrite !normalize_text_idem].
      assert (Hmap : update_where (has_id_tr (tr_id e)) f (traffic_logs d)
                = List.map (fun t => if bool_decide (tr_bookingId t = bk_id b)
                                     then f t else t) (traffic_logs d)).
      { unfold update_where. apply List.map_ext_in. intros t Ht.
        unfold has_id_tr.
        destruct (decide (tr_id t = tr_id e)) as [Hid|Hid].
        - assert (t = e) as -> by (by apply (NoDup_same_key tr_id (traffic_logs d))).
          by rewrite !bool_decide_eq_true_2.
        - rewrite (bool_decide_eq_false_2 _ Hid).
          destruct (decide (tr_bookingId t = bk_id b)) as [Hbk|Hbk];
            [|by rewrite bool_decide_eq_false_2].
          exfalso. apply Hid. f_equal.
          apply (NoDup_same_key tr_bookingId (traffic_logs d)); [done..|congruence]. }
      rewrite Hmap.
      change (fun t => if bool_decide (tr_bookingId t = bk_id b) then f t else t)
        with (fun t => if (fun x => bool_decide (tr_bookingId x = bk_id b)) t
                       then f t else t).
      fold (update_where (fun x => bool_decide (tr_bookingId x = bk_id b)) f
              (traffic_logs d)).
      by apply (select_updated tr_bookingId).
    + intros t Ht Hne. apply update_where_other; [done|].
      unfold has_id_tr. apply bool_decide_eq_false_2. intros Hid.
      apply Hne. rewrite <- Hb. f_equal.
      by apply (NoDup_same_key tr_id (traffic_logs d)).
  - set (row0 := {| tr_id := new_id |}).
    destruct (insert_row tr_id row0 (traffic_logs d)) as [t|x] eqn:Hins; [|done].
    apply insert_row_Ok in Hins as [-> Hfresh].
    cbn [mbind result_bind bind]. intros [= <- <- <-].
    cbn [influencers bookings traffic_logs with_traffic]. rewrite !List.map_app.
    rewrite select_first_None in Hsel.
    split.
    { apply NoDup_snoc_new; [done|]. intros Hin. apply in_map_iff in Hin as (x & Hx & Hin).
      specialize (Hsel x Hin). by apply bool_decide_eq_false in Hsel. }
    split; [by apply NoDup_snoc_new|].
    split; [done|]. split; [done|].
    split; [|split; [|lia]].
    + intros _. exists row0. split; [|done].
      rewrite select_first_app.
      assert (E : select_first (fun t => bool_decide (tr_bookingId t = bk_id b))
                    (traffic_logs d) = None) by (by apply select_first_None).
      rewrite E. simpl. by rewrite bool_decide_eq_true_2.
    + intros t Ht _. apply in_or_app. by left.
Qed.

Lemma upsert_traffic_keeps_one_snapshot_witness :
  NoDup (List.map tr_bookingId (traffic_logs linh_db_refreshed)) /\
  NoDup (List.map tr_id (traffic_logs linh_db_refreshed)) /\
  influencers linh_db_refreshed = influencers linh_db /\
  bookings linh_db_refreshed = bookings linh_db /\
  ((0 < Z.max 5000 (Z.max 40 (Z.max 0 (Z.max 0 0))))%Z ->
   exists t,
     select_first (fun t => bool_decide (tr_bookingId t = bk_id linh_booking))
       (traffic_logs linh_db_refreshed) = Some t /\
     tr_views t = 5000%Z /\ tr_likes t = 40%Z /\ tr_comments t = 0%Z /\
     tr_saves t = 0%Z /\ tr_shares t = 0%Z /\
     normalize_text (tr_postDate t) = normalize_text (bk_postDate linh_booking) /\
     normalize_text (tr_videoLink t) = normalize_text (bk_videoLink linh_booking) /\
     normalize_text (tr_note t) = normalize_text []) /\
  (forall t, In t (traffic_logs linh_db) -> tr_bookingId t <> bk_id linh_booking ->
             In t (traffic_logs linh_db_refreshed)) /\
  ((Z.max 5000 (Z.max 40 (Z.max 0 (Z.max 0 0))) <= 0)%Z ->
   linh_db_refreshed = linh_db /\ false = false /\ true = false).
Proof.
  apply (upsert_traffic_keeps_one_snapshot later (u "trf_b") linh_db linh_db_refreshed
           linh_booking 5000 40 0 0 0 [] false true).
  - vm_compute. apply NoDup_singleton.
  - vm_compute. apply NoDup_singleton.
  - vm_compute. reflexivity.
Defined.

End TrafficTheorems.

(** ** Bookings *)

Module BookingTheorems.
Import DateTheorems MetricTheorems ReconcilerTheorems DriverTheorems NormalizerTheorems
  EffectTheorems LookupTheorems.

Ltac decide_keys :=
  repeat match goal with
  | |- context [bool_decide (@eq string ?a ?b)] =>
      let v := eval vm_compute in (bool_decide (a = b)) in
      change (bool_decide (a = b)) with v
  end;
  rewrite ?andb_false_r, ?andb_true_r.

Section Fill.
Context (existing : booking) (tag vd vw sd vr pd est evl : str) (bw : pyfloat) (en : str).

Lemma fill_lookup (k : string) :
  k <> "notes"%string ->
  booking_updates existing tag vd vw sd vr pd est evl bw en !! k
  = (if blank (bk_visitDate existing) && truthy vd && bool_decide ("visitDate"%string = k)
     then Some (VText vd)
     else if blank (bk_visitWindow existing) && truthy vw
             && bool_decide ("visitWindow"%string = k)
     then Some (VText vw)
     else if blank (bk_serviceDetail existing) && truthy (normalize_text sd)
             && bool_decide ("serviceDetail"%string = k)
     then Some (VText (normalize_text sd))
     else if blank (bk_videoRights existing) && truthy (normalize_text vr)
             && bool_decide ("videoRights"%string = k)
     then Some (VText (normalize_text vr))
     else if blank (bk_postDate existing) && truthy pd
             && bool_decide ("postDate"%string = k)
     then Some (VText pd)
     else if truthy est
             && negb (bool_decide (normalize_text (bk_sourceType existing) = est))
             && bool_decide ("sourceType"%string = k)
     then Some (VText est)
     else if truthy evl
             && (blank (bk_videoLink existing)
                 || startswith (u "import:") (normalize_text (bk_videoLink existing)))
             && bool_decide ("videoLink"%string = k)
     then Some (VText evl)
     else if is_zero (bk_budgetMillionVND existing) && is_pos bw
             && bool_decide ("budgetMillionVND"%string = k)
     then Some (VReal bw)
     else None).
Proof.
  intros Hk. unfold booking_updates.
  rewrite !lookup_assign_if, lookup_empty.
  rewrite !(bool_decide_eq_false_2 ("notes"%string = k)) by congruence.
  rewrite !andb_false_r.
  destruct (bool_decide ("visitDate"%string = k)) eqn:E1.
  { apply bool_decide_eq_true in E1. subst k. decide_keys.
    by destruct (blank (bk_visitDate existing) && truthy vd). }
  destruct (bool_decide ("visitWindow"%string = k)) eqn:E2.
  { apply bool_decide_eq_true in E2. subst k. decide_keys.
    by destruct (blank (bk_visitWindow existing) && truthy vw). }
  destruct (bool_decide ("serviceDetail"%string = k)) eqn:E3.
  { apply bool_decide_eq_true in E3. subst k. decide_keys.
    by destruct (blank (bk_serviceDetail existing) && truthy (normalize_text sd)). }
  destruct (bool_decide ("videoRights"%string = k)) eqn:E4.
  { apply bool_decide_eq_true in E4. subst k. decide_keys.
    by destruct (blank (bk_videoRights existing) && truthy (normalize_text vr)). }
  destruct (bool_decide ("postDate"%string = k)) eqn:E5.
  { apply bool_decide_eq_true in E5. subst k. decide_keys.
    by destruct (blank (bk_postDate existing) && truthy pd). }
  destruct (bool_decide ("sourceType"%string = k)) eqn:E6.
  { apply bool_decide_eq_true in E6. subst k. decide_keys.
    by destruct (truthy est && _). }
  destruct (bool_decide ("videoLink"%string = k)) eqn:E7.
  { apply bool_decide_eq_true in E7. subst k. decide_keys.
    by destruct (truthy evl && _). }
  destruct (bool_decide ("budgetMillionVND"%string = k)) eqn:E8.
  { apply bool_decide_eq_true in E8. subst k. decide_keys.
    by destruct (is_zero _ && is_pos bw). }
  by rewrite !andb_false_r.
Qed.

End Fill.

Section FillRow.
Context (existing : booking) (tag vd vw sd vr pd est evl : str) (bw : pyfloat) (en : str).

Lemma fill_visitDate : bk_visitDate
    (set_booking (booking_updates existing tag vd vw sd vr pd est evl bw en) existing) = filled (bk_visitDate existing) vd.
Proof.
  unfold set_booking, filled. cbn [bk_visitDate].
  rewrite fill_lookup by done. decide_keys. by destruct (_ && _).
Qed.

Lemma fill_visitWindow : bk_visitWindow
    (set_booking (booking_updates existing tag vd vw sd vr pd est evl bw en) existing) = filled (bk_visitWindow existing) vw.
Proof.
  unfold set_booking, filled. cbn [bk_visitWindow].
  rewrite fill_lookup by done. decide_keys. by destruct (_ && _).
Qed.

Lemma fill_serviceDetail :
  bk_serviceDetail
    (set_booking (booking_updates existing tag vd vw sd vr pd est evl bw en) existing) = filled (bk_serviceDetail existing) (normalize_text sd).
Proof.
  unfold set_booking, filled. cbn [bk_serviceDetail].
  rewrite fill_lookup by done. decide_keys. by destruct (_ && _).
Qed.

Lemma fill_videoRights :
  bk_videoRights
    (set_booking (booking_updates existing tag vd vw sd vr pd est evl bw en) existing) = filled (bk_videoRights existing) (normalize_text vr).
Proof.
  unfold set_booking, filled. cbn [bk_videoRights].
  rewrite fill_lookup by done. decide_keys. by destruct (_ && _).
Qed.

Lemma fill_postDate : bk_postDate
    (set_booking (booking_updates existing tag vd vw sd vr pd est evl bw en) existing) = filled (bk_postDate existing) pd.
Proof.
  unfold set_booking, filled. cbn [bk_postDate].
  rewrite fill_lookup by done. decide_keys. by destruct (_ && _).
Qed.

Lemma fill_sourceType :
  bk_sourceType
    (set_booking (booking_updates existing tag vd vw sd vr pd est evl bw en) existing)
  = (if truthy est && negb (bool_decide (normalize_text (bk_sourceType existing) = est))
     then est else bk_sourceType existing).
Proof.
  unfold set_booking. cbn [bk_sourceType].
  rewrite fill_lookup by done. decide_keys. by destruct (_ && _).
Qed.

Lemma fill_videoLink :
  bk_videoLink
    (set_booking (booking_updates existing tag vd vw sd vr pd est evl bw en) existing)
  = (if truthy evl && (blank (bk_videoLink existing)
                       || startswith (u "import:") (normalize_text (bk_videoLink existing)))
     then evl else bk_videoLink existing).
Proof.
  unfold set_booking. cbn [bk_videoLink].
  rewrite fill_lookup by done. decide_keys. by destruct (_ && _).
Qed.

Lemma fill_budget :
  bk_budgetMillionVND
    (set_booking (booking_updates existing tag vd vw sd vr pd est evl bw en) existing)
  = (if is_zero (bk_budgetMillionVND existing) && is_pos bw then bw
     else bk_budgetMillionVND existing).
Proof.
  unfold set_booking. cbn [bk_budgetMillionVND].
  rewrite fill_lookup by done. decide_keys. by destruct (_ && _).
Qed.

Lemma fill_store :
  bk_storeId
    (set_booking (booking_updates existing tag vd vw sd vr pd est evl bw en) existing) = bk_storeId existing /\ bk_storeName
    (set_booking (booking_updates existing tag vd vw sd vr pd est evl bw en) existing) = bk_storeName existing.
Proof.
  unfold set_booking. cbn [bk_storeId bk_storeName].
  rewrite !fill_lookup by done. decide_keys. done.
Qed.

End FillRow.

Lemma set_booking_empty e : set_booking ∅ e = e.
Proof. destruct e. unfold set_booking. simpl. by rewrite !lookup_empty. Qed.

(** X19.  With the fill-empty flag set (and the store flag off), a booking
    that [create_or_update_booking] finds is never created anew, and the row
    stored afterwards keeps its id, store, influencer, creator name, handle,
    contact fields and creation time.  Visit date, visit window, service
    detail, video rights and post date change only from blank to a candidate
    that is not empty; the budget only from zero to a positive amount; the
    video link only when it is blank or an [import:] placeholder.  The
    source type is not protected: it is overwritten whenever it differs
    from the effective source type of the call.  Other bookings, the
    influencers and the traffic snapshots are untouched. *)
Theorem booking_fill_protects_fields (now new_id : str) (d : db)
    (store_id store_name : str) (influencer_row : influencer)
    (visit_date visit_window service_detail video_rights post_date video_link : str)
    (budget_wan : pyfloat) (notes source_type external_key : str)
    (existing : booking) :
  find_booking d
    (effective_video_link_of video_link (normalize_text external_key))
    (normalize_text (inf_handle influencer_row)) (normalize_text post_date)
    store_id (effective_source_type_of source_type)
    (normalize_text external_key) = Some existing ->
  NoDup (List.map bk_id (bookings d)) ->
  exists d' row updated,
    create_or_update_booking now new_id d store_id store_name influencer_row
      visit_date visit_window service_detail video_rights post_date video_link
      budget_wan notes source_type external_key false true
    = Ok (d', (row, false, updated)) /\
    (bk_id row = bk_id existing /\ bk_storeId row = bk_storeId existing /\
     bk_storeName row = bk_storeName existing /\
     bk_influencerId row = bk_influencerId existing /\
     bk_creatorName row = bk_creatorName existing /\
     bk_handle row = bk_handle existing /\
     bk_contactMethod row = bk_contactMethod existing /\
     bk_contactInfo row = bk_contactInfo existing /\
     bk_createdAt row = bk_createdAt existing) /\
    bk_visitDate row = filled (bk_visitDate existing) visit_date /\
    bk_visitWindow row = filled (bk_visitWindow existing) visit_window /\
    bk_serviceDetail row
    = filled (bk_serviceDetail existing) (normalize_text service_detail) /\
    bk_videoRights row = filled (bk_videoRights existing) (normalize_text video_rights) /\
    bk_postDate row = filled (bk_postDate existing) post_date /\
    bk_budgetMillionVND row
    = (if is_zero (bk_budgetMillionVND existing) && is_pos budget_wan then budget_wan
       else bk_budgetMillionVND existing) /\
    bk_videoLink row
    = (if truthy (effective_video_link_of video_link (normalize_text external_key))
          && (blank (bk_videoLink existing)
              || startswith (u "import:") (normalize_text (bk_videoLink existing)))
       then effective_video_link_of video_link (normalize_text external_key)
       else bk_videoLink existing) /\
    bk_sourceType row
    = (if bool_decide (normalize_text (bk_sourceType existing)
                       = effective_source_type_of source_type)
       then bk_sourceType existing else effective_source_type_of source_type) /\
    influencers d' = influencers d /\ traffic_logs d' = traffic_logs d /\
    List.map bk_id (bookings d') = List.map bk_id (bookings d) /\
    In row (bookings d') /\
    (forall r, In r (bookings d) -> bk_id r <> bk_id existing -> In r (bookings d')).
Proof.
  intros Hfind Hnd.
  pose proof (find_booking_In _ _ _ _ _ _ _ _ Hfind) as Hin.
  unfold create_or_update_booking. rewrite Hfind. cbv zeta. cbn [andb orb].
  set (upd := booking_updates existing _ _ _ _ _ _ _ _ _ _).
  assert (Hrow :
    (bk_id (set_booking upd existing) = bk_id existing /\
     bk_storeId (set_booking upd existing) = bk_storeId existing /\
     bk_storeName (set_booking upd existing) = bk_storeName existing /\
     bk_influencerId (set_booking upd existing) = bk_influencerId existing /\
     bk_creatorName (set_booking upd existing) = bk_creatorName existing /\
     bk_handle (set_booking upd existing) = bk_handle existing /\
     bk_contactMethod (set_booking upd existing) = bk_contactMethod existing /\
     bk_contactInfo (set_booking upd existing) = bk_contactInfo existing /\
     bk_createdAt (set_booking upd existing) = bk_createdAt existing) /\
    bk_visitDate (set_booking upd existing) = filled (bk_visitDate existing) visit_date /\
    bk_visitWindow (set_booking upd existing)
    = filled (bk_visitWindow existing) visit_window /\
    bk_serviceDetail (set_booking upd existing)
    = filled (bk_serviceDetail existing) (normalize_text service_detail) /\
    bk_videoRights (set_booking upd existing)
    = filled (bk_videoRights existing) (normalize_text video_rights) /\
    bk_postDate (set_booking upd existing) = filled (bk_postDate existing) post_date /\
    bk_budgetMillionVND (set_booking upd existing)
    = (if is_zero (bk_budgetMillionVND existing) && is_pos budget_wan then budget_wan
       else bk_budgetMillionVND existing) /\
    bk_videoLink (set_booking upd existing)
    = (if truthy (effective_video_link_of video_link (normalize_text external_key))
          && (blank (bk_videoLink existing)
              || startswith (u "import:") (normalize_text (bk_videoLink existing)))
       then effective_video_link_of video_link (normalize_text external_key)
       else bk_videoLink existing) /\
    bk_sourceType (set_booking upd existing)
    = (if bool_decide (normalize_text (bk_sourceType existing)
                       = effective_source_type_of source_type)
       then bk_sourceType existing else effective_source_type_of source_type)).
  { subst upd.
    split; [pose proof (fill_store existing) as Hs; by repeat split; try apply Hs|].
    split; [apply fill_visitDate|]. split; [apply fill_visitWindow|].
    split; [apply fill_serviceDetail|]. split; [apply fill_videoRights|].
    split; [apply fill_postDate|]. split; [apply fill_budget|].
    split; [apply fill_videoLink|].
    rewrite fill_sourceType.
    destruct (effective_source_type_trimmed source_type) as [_ Hne].
    apply truthy_true in Hne. rewrite Hne. cbn [andb]. by case_bool_decide. }
  destruct (bool_decide (upd = ∅)) eqn:Eu; cbn [negb].
  - apply bool_decide_eq_true in Eu.
    exists d, existing, false. split; [done|].
    rewrite Eu, set_booking_empty in Hrow.
    destruct Hrow as (H1 & H2 & H3 & H4 & H5 & H6 & H7 & H8 & H9).
    by repeat (split; [done|]).
  - assert (Hsel : select_first (has_id_bk (bk_id existing))
                     (update_where (has_id_bk (bk_id existing)) (set_booking upd)
                        (bookings d)) = Some (set_booking upd existing)).
    { apply (select_updated bk_id); auto. }
    cbn [bookings with_bookings]. rewrite Hsel. simpl default.
    eexists _, _, true. split; [reflexivity|].
    destruct Hrow as (H1 & H2 & H3 & H4 & H5 & H6 & H7 & H8 & H9).
    cbn [influencers bookings traffic_logs with_bookings].
    do 9 (split; [done|]). split; [done|]. split; [done|].
    split; [by apply (update_where_keys bk_id)|].
    split; [by apply select_first_In in Hsel as [? _]|].
    intros r Hr Hid. apply update_where_other; [done|].
    unfold has_id_bk. by apply bool_decide_eq_false_2.
Qed.

Lemma booking_fill_protects_fields_witness :
  exists d' row updated,
    create_or_update_booking later (u "bk-2") small_db (u "store-mlzg") (u "MLZG") alice
      (u "2023-12-20") (u "18:00") (u "dinner for two") [] (u "2024-02-02")
      (u "https://www.tiktok.com/@alice/video/1") (round_decimal 2 0) []
      (u "walkin") key1 false true
    = Ok (d', (row, false, updated)) /\
    (bk_id row = bk_id video1 /\ bk_storeId row = bk_storeId video1 /\
     bk_storeName row = bk_storeName video1 /\
     bk_influencerId row = bk_influencerId video1 /\
     bk_creatorName row = bk_creatorName video1 /\
     bk_handle row = bk_handle video1 /\
     bk_contactMethod row = bk_contactMethod video1 /\
     bk_contactInfo row = bk_contactInfo video1 /\
     bk_createdAt row = bk_createdAt video1) /\
    bk_visitDate row = filled (bk_visitDate video1) (u "2023-12-20") /\
    bk_visitWindow row = filled (bk_visitWindow video1) (u "18:00") /\
    bk_serviceDetail row
    = filled (bk_serviceDetail video1) (normalize_text (u "dinner for two")) /\
    bk_videoRights row = filled (bk_videoRights video1) (normalize_text []) /\
    bk_postDate row = filled (bk_postDate video1) (u "2024-02-02") /\
    bk_budgetMillionVND row
    = (if is_zero (bk_budgetMillionVND video1) && is_pos (round_decimal 2 0)
       then round_decimal 2 0 else bk_budgetMillionVND video1) /\
    bk_videoLink row
    = (if truthy (effective_video_link_of (u "https://www.tiktok.com/@alice/video/1")
                    (normalize_text key1))
          && (blank (bk_videoLink video1)
              || startswith (u "import:") (normalize_text (bk_videoLink video1)))
       then effective_video_link_of (u "https://www.tiktok.com/@alice/video/1")
              (normalize_text key1)
       else bk_videoLink video1) /\
    bk_sourceType row
    = (if bool_decide (normalize_text (bk_sourceType video1)
                       = effective_source_type_of (u "walkin"))
       then bk_sourceType video1 else effective_source_type_of (u "walkin")) /\
    influencers d' = influencers small_db /\ traffic_logs d' = traffic_logs small_db /\
    List.map bk_id (bookings d') = List.map bk_id (bookings small_db) /\
    In row (bookings d') /\
    (forall r, In r (bookings small_db) -> bk_id r <> bk_id video1 -> In r (bookings d')).
Proof.
  apply (booking_fill_protects_fields later (u "bk-2") small_db (u "store-mlzg")
           (u "MLZG") alice (u "2023-12-20") (u "18:00") (u "dinner for two") []
           (u "2024-02-02") (u "https://www.tiktok.com/@alice/video/1")
           (round_decimal 2 0) [] (u "walkin") key1 video1).
  - vm_compute. reflexivity.
  - vm_compute. apply NoDup_singleton.
Defined.




Lemma set_store_row sid sname r :
  set_booking {["storeId"%string := VText sid; "storeName"%string := VText sname]} r
  = {| bk_id := bk_id r; bk_storeId := sid; bk_storeName := sname;
       bk_influencerId := bk_influencerId r; bk_creatorName := bk_creatorName r;
       bk_handle := bk_handle r; bk_contactMethod := bk_contactMethod r;
       bk_contactInfo := bk_contactInfo r; bk_visitDate := bk_visitDate r;
       bk_visitWindow := bk_visitWindow r; bk_sourceType := bk_sourceType r;
       bk_serviceDetail := bk_serviceDetail r; bk_videoRights := bk_videoRights r;
       bk_postDate := bk_postDate r; bk_videoLink := bk_videoLink r;
       bk_budgetMillionVND := bk_budgetMillionVND r; bk_notes := bk_notes r;
       bk_createdAt := bk_createdAt r |}.
Proof.
  unfold set_booking.
  rewrite lookup_insert_eq, (lookup_insert_ne _ "storeId"%string "storeName"%string),
    lookup_singleton_eq by done.
  rewrite !lookup_insert_ne, !lookup_singleton_ne by done. done.
Qed.

(** X21.  With the store flag set and the fill flag off, a booking that
    [create_or_update_booking] finds in another store is moved: its store id
    and name become those of the call, and every traffic snapshot of the
    booking takes the store name of the call.  A booking found in the store
    of the call is left alone, its store name too.  In both cases nothing
    else changes: the other fields of the booking, the other bookings, the
    other fields of the snapshots, the snapshots of other bookings and the
    influencers stay as they are. *)
Theorem store_flag_moves_booking (now new_id : str) (d : db)
    (store_id store_name : str) (influencer_row : influencer)
    (visit_date visit_window service_detail video_rights post_date video_link : str)
    (budget_wan : pyfloat) (notes source_type external_key : str)
    (existing : booking) :
  find_booking d
    (effective_video_link_of video_link (normalize_text external_key))
    (normalize_text (inf_handle influencer_row)) (normalize_text post_date)
    store_id (effective_source_type_of source_type)
    (normalize_text external_key) = Some existing ->
  NoDup (List.map bk_id (bookings d)) ->
  exists d' row updated,
    create_or_update_booking now new_id d store_id store_name influencer_row
      visit_date visit_window service_detail video_rights post_date video_link
      budget_wan notes source_type external_key true false
    = Ok (d', (row, false, updated)) /\
    updated = negb (bool_decide (bk_storeId existing = store_id)) /\
    bk_storeId row = store_id /\
    bk_storeName row = (if updated then store_name else bk_storeName existing) /\
    same_but_store existing row /\
    (updated = false -> d' = d) /\
    influencers d' = influencers d /\
    In row (bookings d') /\
    List.map bk_id (bookings d') = List.map bk_id (bookings d) /\
    (forall r, In r (bookings d) -> bk_id r <> bk_id existing -> In r (bookings d')) /\
    Forall2 (fun t t' =>
               same_but_store_name t t' /\
               tr_storeName t'
               = (if updated && bool_decide (tr_bookingId t = bk_id existing)
                  then store_name else tr_storeName t))
      (traffic_logs d) (traffic_logs d').
Proof.
  intros Hfind Hnd.
  pose proof (find_booking_In _ _ _ _ _ _ _ _ Hfind) as Hin.
  unfold create_or_update_booking. rewrite Hfind. cbv zeta.
  rewrite (bool_decide_eq_true_2 ((∅ : gmap string value) = ∅)) by done.
  cbn [andb negb orb]. rewrite orb_false_r.
  destruct (decide (bk_storeId existing = store_id)) as [Hs|Hs].
  - rewrite (bool_decide_eq_true_2 _ Hs). cbn [negb].
    exists d, existing, false. split; [done|]. split; [done|]. split; [done|].
    split; [done|]. split; [by repeat split|]. split; [done|]. split; [done|].
    split; [done|]. split; [done|]. split; [done|].
    cbn [andb]. induction (traffic_logs d); constructor; [by repeat split|done].
  - rewrite (bool_decide_eq_false_2 _ Hs). cbn [negb].
    cbn [bookings].
    set (upd := {["storeId"%string := VText store_id;
                  "storeName"%string := VText store_name]}).
    assert (Hsel : select_first (has_id_bk (bk_id existing))
                     (update_where (has_id_bk (bk_id existing)) (set_booking upd)
                        (bookings d)) = Some (set_booking upd existing)).
    { apply (select_updated bk_id); auto. }
    rewrite Hsel. simpl default.
    eexists _, _, true. split; [reflexivity|].
    cbn [influencers bookings traffic_logs].
    subst upd. rewrite set_store_row in *.
    split; [done|]. split; [done|]. split; [done|].
    split; [by repeat split|]. split; [done|]. split; [done|].
    split; [by apply select_first_In in Hsel as [? _]|].
    split; [by apply (update_where_keys bk_id)|].
    split.
    { intros r Hr Hid. apply update_where_other; [done|].
      unfold has_id_bk. by apply bool_decide_eq_false_2. }
    cbn [andb]. unfold update_where.
    induction (traffic_logs d) as [|t ts IH]; simpl; constructor; [|done].
    destruct (bool_decide (tr_bookingId t = bk_id existing)); by repeat split.
Qed.

Lemma store_flag_moves_booking_witness :
  exists d' row updated,
    create_or_update_booking later (u "bk-2") linh_db (u "store-b") (u "B") alice
      [] [] [] [] [] (u "https://www.tiktok.com/@linh/video/7") (Fin 0 0) []
      (u "booking") [] true false
    = Ok (d', (row, false, updated)) /\
    updated = negb (bool_decide (bk_storeId linh_booking = u "store-b")) /\
    bk_storeId row = u "store-b" /\
    bk_storeName row = (if updated then u "B" else bk_storeName linh_booking) /\
    same_but_store linh_booking row /\
    (updated = false -> d' = linh_db) /\
    influencers d' = influencers linh_db /\
    In row (bookings d') /\
    List.map bk_id (bookings d') = List.map bk_id (bookings linh_db) /\
    (forall r, In r (bookings linh_db) -> bk_id r <> bk_id linh_booking ->
               In r (bookings d')) /\
    Forall2 (fun t t' =>
               same_but_store_name t t' /\
               tr_storeName t'
               = (if updated && bool_decide (tr_bookingId t = bk_id linh_booking)
                  then u "B" else tr_storeName t))
      (traffic_logs linh_db) (traffic_logs d').
Proof.
  apply (store_flag_moves_booking later (u "bk-2") linh_db (u "store-b") (u "B") alice
           [] [] [] [] [] (u "https://www.tiktok.com/@linh/video/7") (Fin 0 0) []
           (u "booking") [] linh_booking).
  - vm_compute. reflexivity.
  - vm_compute. apply NoDup_singleton.
Defined.

End BookingTheorems.

(** ** A second influencer-only import *)

Module RerunTheorems.
Import DateTheorems MetricTheorems ReconcilerTheorems DriverTheorems NormalizerTheorems
  EffectTheorems InfluencerImportTheorems.

Lemma fills_any_refl r : fills_any r r.
Proof. unfold fills_any, kept_or_filled. repeat split; by left. Qed.

Lemma Forall2_fills_any_refl t : Forall2 fills_any t t.
Proof. induction t; constructor; [apply fills_any_refl|done]. Qed.

Lemma grows_any_refl t : grows_any t t.
Proof. exists t, []. split; [apply Forall2_fills_any_refl|by rewrite app_nil_r]. Qed.

Section AnyNotes.
Context (h c p notes : str) (Hgood : good_handle h).

Lemma candidates_any_not_blank :
  (display_name_of h = [] \/ blank (display_name_of h) = false) /\
  (fst (split_contact c) = [] \/ blank (fst (split_contact c)) = false) /\
  (snd (split_contact c) = [] \/ blank (snd (split_contact c)) = false) /\
  (normalize_text p = [] \/ blank (normalize_text p) = false) /\
  (normalize_text notes = [] \/ blank (normalize_text notes) = false).
Proof.
  destruct (candidates_not_blank h c p Hgood) as (H1 & H2 & H3 & H4).
  repeat (split; [done|]). apply normalize_profile_not_blank.
Qed.

(** The row a patch writes over a row that carries the handle. *)
Lemma patch_fills_any now e :
  inf_handle e = h ->
  fills_any e (set_influencer (<["updatedAt"%string := VText now]>
                                 (influencer_updates e h c p notes)) e).
Proof.
  intros Hh. rewrite set_influencer_updates.
  destruct candidates_any_not_blank as (H1 & H2 & H3 & H4 & H5).
  unfold fills_any. simpl.
  split; [done|]. split.
  { unfold filled. rewrite Hh, (good_handle_not_blank h Hgood). done. }
  repeat split; by apply kept_or_filled_filled.
Qed.

Lemma patch_saturated_any now e :
  inf_handle e = h ->
  influencer_updates
    (set_influencer (<["updatedAt"%string := VText now]>
                       (influencer_updates e h c p notes)) e) h c p notes = ∅.
Proof.
  intros Hh. rewrite set_influencer_updates.
  destruct candidates_any_not_blank as (H1 & H2 & H3 & H4 & H5).
  apply influencer_updates_empty. simpl.
  split; [by apply filled_saturated|]. split.
  { unfold filled. rewrite Hh, (good_handle_not_blank h Hgood). simpl.
    by rewrite (good_handle_not_blank h Hgood). }
  repeat split; by apply filled_saturated.
Qed.

(** The row of a new influencer, once its notes are written. *)
Lemma new_row_saturated_any now new_id cm ci :
  split_contact c = (cm, ci) ->
  influencer_updates
    {| inf_id := new_id; inf_displayName := display_name_of h; inf_handle := h;
       inf_avatarData := []; inf_contactMethod := cm; inf_contactInfo := ci;
       inf_notes := normalize_text notes; inf_profileLink := normalize_text p;
       inf_createdAt := now; inf_updatedAt := now |} h c p notes = ∅.
Proof.
  intros E.
  destruct candidates_any_not_blank as (H1 & H2 & H3 & H4 & H5).
  apply influencer_updates_empty. rewrite E in *. simpl in *.
  split; [by destruct H1 as [->| ->]|].
  split; [by rewrite (good_handle_not_blank h Hgood)|].
  split; [destruct H2 as [->| ->]; by rewrite ?andb_false_r|].
  split; [destruct H3 as [->| ->]; by rewrite ?andb_false_r|].
  split; [destruct H4 as [->| ->]; by rewrite ?andb_false_r|].
  destruct H5 as [->| ->]; by rewrite ?andb_false_r.
Qed.

End AnyNotes.

Lemma set_notes_row v r :
  set_influencer {["notes"%string := VText v]} r
  = {| inf_id := inf_id r; inf_displayName := inf_displayName r;
       inf_handle := inf_handle r; inf_avatarData := inf_avatarData r;
       inf_contactMethod := inf_contactMethod r; inf_contactInfo := inf_contactInfo r;
       inf_notes := v; inf_profileLink := inf_profileLink r;
       inf_createdAt := inf_createdAt r; inf_updatedAt := inf_updatedAt r |}.
Proof.
  unfold set_influencer.
  rewrite lookup_singleton_eq, !lookup_singleton_ne by done. done.
Qed.

Lemma update_where_fresh {R} (key : R -> str) i (f : R -> R) t :
  ~ In i (List.map key t) ->
  update_where (fun r => bool_decide (key r = i)) f t = t.
Proof.
  intros H. unfold update_where. rewrite <- (List.map_id t) at 2.
  apply List.map_ext_in. intros r Hr. case_bool_decide as E; [|done].
  exfalso. apply H, in_map_iff. by exists r.
Qed.

(** What one call of [create_or_patch_influencer] with a good handle does
    to the influencers, whatever the notes. *)
Lemma influencer_any_step now new_id d h c p notes d' row patched created :
  good_handle h ->
  NoDup (List.map inf_id (influencers d)) ->
  create_or_patch_influencer now new_id d h c p notes
  = Ok (d', (row, patched, created)) ->
  grows_any (influencers d) (influencers d') /\
  find_influencer_by_handle d' h = Some row /\
  influencer_updates row h c p notes = ∅.
Proof.
  intros Hgood Hnd. unfold create_or_patch_influencer.
  destruct (find_influencer_by_handle d h) as [e|] eqn:Hfind.
  - pose proof (find_influencer_by_handle_Some _ _ _ Hfind) as (Hin & Hh & Hne).
    case_bool_decide as Hupd.
    { intros [= <- <- <- <-]. split; [apply grows_any_refl|]. done. }
    set (upd := <["updatedAt"%string := VText now]> _).
    assert (Hsel : select_first (has_id_inf (inf_id e))
                     (update_where (has_id_inf (inf_id e)) (set_influencer upd)
                        (influencers d)) = Some (set_influencer upd e)).
    { apply (select_updated inf_id); auto. }
    rewrite Hsel. simpl default. intros [= <- <- <- <-].
    cbn [influencers with_influencers].
    assert (Hrows : forall r, In r (influencers d) ->
              fills_any r (if has_id_inf (inf_id e) r then set_influencer upd r else r)).
    { intros r Hr. unfold has_id_inf. case_bool_decide as Hid; [|apply fills_any_refl].
      assert (r = e) as -> by (by apply (NoDup_same_key inf_id (influencers d))).
      by apply patch_fills_any. }
    split.
    { exists (update_where (has_id_inf (inf_id e)) (set_influencer upd) (influencers d)), [].
      split; [|by rewrite app_nil_r].
      unfold update_where. clear -Hrows.
      induction (influencers d) as [|r t IH]; simpl; constructor.
      - apply Hrows. by left.
      - apply IH. intros x Hx. apply Hrows. by right. }
    split.
    + unfold find_influencer_by_handle. destruct h as [|c0 h0]; [done|].
      cbn [influencers with_influencers].
      unfold update_where. rewrite select_first_map.
      * unfold find_influencer_by_handle in Hfind. rewrite Hfind. simpl.
        unfold has_id_inf. by rewrite bool_decide_eq_true_2.
      * intros r Hr. destruct (Hrows r Hr) as (_ & -> & _). done.
    + subst upd. by apply patch_saturated_any.
  - destruct (split_contact c) as [cm ci] eqn:Hsplit.
    set (row0 := {| inf_id := new_id |}).
    destruct (insert_row inf_id row0 (influencers d)) as [t|x] eqn:Hins; [|done].
    apply insert_row_Ok in Hins as [-> Hfresh].
    cbn [mbind result_bind bind].
    assert (Hh0 : h <> []) by (by destruct Hgood).
    assert (Hgrow : forall l, grows_any (influencers d) (influencers d ++ l)).
    { intros l. exists (influencers d), l. split; [apply Forall2_fills_any_refl|done]. }
    destruct (truthy (normalize_text notes)) eqn:Hnotes.
    + set (upd := {["notes"%string := VText (normalize_text notes)]}).
      assert (Ht : update_where (has_id_inf new_id) (set_influencer upd)
                     (influencers d ++ [row0])
                   = influencers d ++ [set_influencer upd row0]).
      { unfold update_where. rewrite List.map_app.
        change (List.map _ (influencers d))
          with (update_where (fun r => bool_decide (inf_id r = new_id))
                  (set_influencer upd) (influencers d)).
        rewrite (update_where_fresh inf_id) by done.
        simpl. unfold has_id_inf. by rewrite bool_decide_eq_true_2. }
      rewrite Ht.
      change (has_id_inf new_id)
        with (fun x => bool_decide (inf_id x = inf_id (set_influencer upd row0))).
      rewrite (select_first_new inf_id) by done. simpl default.
      intros [= <- <- <- <-]. cbn [influencers with_influencers].
      split; [apply Hgrow|]. split.
      * unfold find_influencer_by_handle in *. destruct h as [|c0 h0]; [done|].
        cbn [influencers with_influencers].
        rewrite select_first_app, Hfind. subst upd.
        unfold select_first. cbn [find]. rewrite notes_only_handle.
        subst row0. cbn [inf_handle]. by rewrite bool_decide_eq_true_2.
      * subst upd. rewrite set_notes_row. subst row0. simpl.
        by apply new_row_saturated_any.
    + change (has_id_inf new_id) with (fun x => bool_decide (inf_id x = inf_id row0)).
      rewrite (select_first_new inf_id) by done. simpl default.
      intros [= <- <- <- <-]. cbn [influencers with_influencers].
      split; [apply Hgrow|]. split.
      * unfold find_influencer_by_handle in *. destruct h as [|c0 h0]; [done|].
        cbn [influencers with_influencers].
        rewrite select_first_app, Hfind. simpl. by rewrite bool_decide_eq_true_2.
      * subst row0. destruct (normalize_text notes) eqn:En; [|done].
        pose proof (new_row_saturated_any h c p notes Hgood now new_id cm ci Hsplit) as Hs.
        rewrite En in Hs. exact Hs.
Qed.

Lemma select_first_grows h t t1 l r :
  Forall2 fills_any t t1 ->
  select_first (fun r => bool_decide (inf_handle r = h)) t = Some r ->
  exists r1, select_first (fun r => bool_decide (inf_handle r = h)) (t1 ++ l) = Some r1
             /\ fills_any r r1.
Proof.
  induction 1 as [|x x1 t t1 Hx Ht IH]; [done|].
  simpl. destruct Hx as (Hid & Hh & Hrest). rewrite Hh.
  case_bool_decide.
  - intros [= <-]. exists x1. done.
  - apply IH.
Qed.

(** A settled row stays settled when the table grows. *)
Lemma row_settled_grows d d' row :
  grows_any (influencers d) (influencers d') ->
  row_settled d row -> row_settled d' row.
Proof.
  intros (t1 & l & Hfills & Ht') (r & Hfind & Hupd).
  unfold row_settled, find_influencer_by_handle in *.
  destruct (io_handle row) as [|c0 h0] eqn:Hh; [done|].
  rewrite Ht'.
  destruct (select_first_grows _ _ _ l _ Hfills Hfind) as (r1 & Hr1 & Hf).
  exists r1. split; [done|].
  apply influencer_updates_empty in Hupd as (H1 & H2 & H3 & H4 & H5 & H6).
  destruct Hf as (_ & Hhd & F1 & F2 & F3 & F4 & F5).
  apply influencer_updates_empty.
  rewrite Hhd.
  split; [by apply (kept_saturated _ _ _ F1)|]. split; [done|].
  split; [by apply (kept_saturated _ _ _ F2)|].
  split; [by apply (kept_saturated _ _ _ F3)|].
  split; [by apply (kept_saturated _ _ _ F4)|].
  by apply (kept_saturated _ _ _ F5).
Qed.

Lemma grows_any_trans t1 t2 t3 :
  grows_any t1 t2 -> grows_any t2 t3 -> grows_any t1 t3.
Proof.
  intros (a & l & Ha & ->) (b & m & Hb & ->).
  apply Forall2_app_inv_l in Hb as (b1 & b2 & Hb1 & Hb2 & ->).
  exists b1, (b2 ++ m). split; [|by rewrite app_assoc].
  clear -Ha Hb1. revert b1 Hb1.
  induction Ha as [|x y t t' Hxy Ht IH]; intros b1 Hb1.
  - inversion Hb1. constructor.
  - inversion Hb1 as [|y' z t'' b1' Hyz Hb1' E1 E2]; subst. constructor; [|by apply IH].
    destruct Hxy as (X1 & X2 & X3 & X4 & X5 & X6 & X7).
    destruct Hyz as (Y1 & Y2 & Y3 & Y4 & Y5 & Y6 & Y7).
    assert (K : forall a b c, kept_or_filled a b -> kept_or_filled b c ->
                              kept_or_filled a c).
    { intros a0 b0 c0 [->|[A1 A2]] [->|[B1 B2]]; try (by left); try (by right). }
    unfold fills_any. repeat split; try congruence; eapply K; eauto.
Qed.

(** With an empty handle nothing is looked up: the call adds a row. *)
Lemma empty_handle_creates now new_id d c p notes d' row patched created :
  create_or_patch_influencer now new_id d [] c p notes
  = Ok (d', (row, patched, created)) ->
  created = true /\ patched = false /\
  exists row', influencers d' = influencers d ++ [row'].
Proof.
  unfold create_or_patch_influencer. cbn [find_influencer_by_handle].
  destruct (split_contact c) as [cm ci] eqn:Hsplit.
  set (row0 := {| inf_id := new_id |}).
  destruct (insert_row inf_id row0 (influencers d)) as [t|x] eqn:Hins; [|done].
  apply insert_row_Ok in Hins as [-> Hfresh].
  cbn [mbind result_bind bind].
  intros [= <- <- <- <-]. split; [done|]. split; [done|].
  cbn [influencers with_influencers].
  destruct (truthy (normalize_text notes)); [|by exists row0].
  eexists. unfold update_where. rewrite List.map_app.
  change (List.map _ (influencers d))
    with (update_where (fun r => bool_decide (inf_id r = new_id))
            (set_influencer {["notes"%string := VText (normalize_text notes)]})
            (influencers d)).
  rewrite (update_where_fresh inf_id) by done. reflexivity.
Qed.

(** After the loop, every row with a handle is settled. *)
Lemma first_pass draws rows : forall n d d' os,
  NoDup (List.map inf_id (influencers d)) ->
  influencers_loop draws n d rows = Ok (d', os) ->
  NoDup (List.map inf_id (influencers d')) /\
  grows_any (influencers d) (influencers d') /\
  Forall (fun r => io_handle r <> [] -> row_settled d' r) rows.
Proof.
  induction rows as [|r rows IH]; intros n d d' os Hnd.
  - intros [= <- <-]. split; [done|]. split; [apply grows_any_refl|constructor].
  - cbn [influencers_loop]. intros H.
    apply bind_Ok in H as ([d1 [[row patched] created]] & Hcpi & H).
    apply bind_Ok in H as ([d2 os'] & Hloop & H).
    injection H as <- <-.
    pose proof (influencer_effect _ _ _ _ _ _ _ _ _ _ _ Hnd Hcpi)
      as (_ & _ & _ & _ & Hnd1 & _).
    destruct (IH _ _ _ _ Hnd1 Hloop) as (N2 & G2 & S2).
    split; [done|].
    destruct (decide (io_handle r = [])) as [He|Hr].
    + unfold io_handle in He. rewrite He in Hcpi.
      apply empty_handle_creates in Hcpi as (_ & _ & row' & Hrow').
      split; [|constructor; [by unfold io_handle|done]].
      apply (grows_any_trans _ (influencers d1)); [|done].
      exists (influencers d), [row']. split; [apply Forall2_fills_any_refl|done].
    + apply influencer_any_step in Hcpi as (G1 & F1 & U1);
        [|by apply parse_tiktok_handle_good|done].
      split; [by apply (grows_any_trans _ (influencers d1))|].
      constructor; [|done]. intros _.
      apply (row_settled_grows d1); [done|]. by exists row.
Qed.

(** Over settled rows the loop changes nothing. *)
Lemma second_pass draws rows : forall n d,
  Forall (row_settled d) rows ->
  influencers_loop draws n d rows
  = Ok (d, List.repeat (false, false) (length rows)).
Proof.
  induction rows as [|r rows IH]; intros n d Hs; [done|].
  apply Forall_cons in Hs as [(e & Hf & Hu) Hs].
  cbn [influencers_loop]. unfold create_or_patch_influencer.
  unfold io_handle in *. rewrite Hf, bool_decide_eq_true_2 by done.
  cbn [mbind result_bind bind]. rewrite IH by done. done.
Qed.

(** Over rows that are settled when they have a handle, the loop patches
    nothing and creates one influencer for each row without a handle. *)
Lemma second_pass_counts draws rows : forall n d d2 os2,
  NoDup (List.map inf_id (influencers d)) ->
  Forall (fun r => io_handle r <> [] -> row_settled d r) rows ->
  influencers_loop draws n d rows = Ok (d2, os2) ->
  patched_count os2 = 0 /\
  created_count os2
  = length (List.filter (fun r => bool_decide (io_handle r = [])) rows).
Proof.
  induction rows as [|r rows IH]; intros n d d2 os2 Hnd Hs.
  - by intros [= <- <-].
  - cbn [influencers_loop]. intros H.
    apply bind_Ok in H as ([d1 [[row patched] created]] & Hcpi & H).
    apply bind_Ok in H as ([d2' os'] & Hloop & H).
    injection H as <- <-.
    apply Forall_cons in Hs as [Hr Hs].
    pose proof (influencer_effect _ _ _ _ _ _ _ _ _ _ _ Hnd Hcpi)
      as (_ & _ & _ & _ & Hnd1 & _).
    cbn [List.filter]. unfold created_count, patched_count in *.
    cbn [List.filter fst snd].
    destruct (decide (io_handle r = [])) as [He|Hne].
    + rewrite (bool_decide_eq_true_2 _ He).
      unfold io_handle in He. rewrite He in Hcpi.
      apply empty_handle_creates in Hcpi as (-> & -> & row' & Hrow').
      assert (Hs1 : Forall (fun r => io_handle r <> [] -> row_settled d1 r) rows).
      { eapply Forall_impl; [exact Hs|]. intros x Hx Hxh.
        apply (row_settled_grows d); [|by apply Hx].
        exists (influencers d), [row']. split; [apply Forall2_fills_any_refl|done]. }
      destruct (IH _ _ _ _ Hnd1 Hs1 Hloop) as [P C].
      cbn [negb andb length]. by rewrite P, C.
    + rewrite (bool_decide_eq_false_2 _ Hne).
      destruct (Hr Hne) as (e & Hf & Hu).
      unfold create_or_patch_influencer in Hcpi. unfold io_handle in *.
      rewrite Hf, bool_decide_eq_true_2 in Hcpi by done.
      injection Hcpi as <- <- <- <-.
      destruct (IH _ _ _ _ Hnd Hs Hloop) as [P C].
      cbn [negb andb]. by rewrite P, C.
Qed.

(** X22.  Running the influencer-only import a second time on the database
    the first run left patches no influencer, and creates one influencer
    for each row of the sheet whose profile URL gives no handle, and none
    else.  When every row has a handle the second run completes and leaves
    the database as it is. *)
Theorem influencer_only_rerun (draws draws2 : nat -> Draw) (d d1 : db)
    (csv_rows : list (list str)) (os : list (bool * bool)) :
  NoDup (List.map inf_id (influencers d)) ->
  run_influencers_only draws d csv_rows = Ok (d1, os) ->
  (Forall (fun r => io_handle r <> []) (extract_influencer_only_rows csv_rows) ->
   run_influencers_only draws2 d1 csv_rows
   = Ok (d1, List.repeat (false, false) (length os))) /\
  (forall d2 os2,
     run_influencers_only draws2 d1 csv_rows = Ok (d2, os2) ->
     patched_count os2 = 0 /\
     created_count os2
     = length (List.filter (fun r => bool_decide (io_handle r = []))
                 (extract_influencer_only_rows csv_rows))).
Proof.
  unfold run_influencers_only. intros Hnd Hrun.
  pose proof (first_pass _ _ _ _ _ _ Hnd Hrun) as (Hnd1 & _ & Hs).
  pose proof (influencers_loop_effect _ _ _ _ _ _ Hnd Hrun) as (_ & _ & Hlen & _).
  split.
  - intros Hh. rewrite Hlen. apply second_pass.
    rewrite Forall_forall in *. intros r Hr. apply Hs; [done|by apply Hh].
  - intros d2 os2 Hrun2. by apply (second_pass_counts draws2 _ 0 d1 d2).
Qed.

Lemma influencer_only_rerun_witness :
  run_influencers_only (draws_with (u "b")) profiles_db profiles_sheet
  = Ok (profiles_db, List.repeat (false, false) (length profiles_outcomes)).
Proof.
  assert (Hnd : NoDup (List.map inf_id (influencers empty_db)))
    by (simpl; constructor).
  assert (Hrun : run_influencers_only (draws_with (u "a")) empty_db profiles_sheet
                 = Ok (profiles_db, profiles_outcomes))
    by (vm_compute; reflexivity).
  destruct (influencer_only_rerun (draws_with (u "a")) (draws_with (u "b")) empty_db
              profiles_db profiles_sheet profiles_outcomes Hnd Hrun) as [Hsame _].
  apply Hsame. vm_compute. repeat constructor; discriminate.
Defined.

End RerunTheorems.

(** ** A new influencer *)

Module InfluencerTheorems.
Import DateTheorems MetricTheorems ReconcilerTheorems DriverTheorems NormalizerTheorems
  EffectTheorems RerunTheorems.

Lemma fullmatch_phone s : is_Some (fullmatch re_phone s) <-> phone_like s.
Proof.
  split.
  - intros [g Hg]. apply fullmatch_sound in Hg. unfold re_phone in Hg.
    inversion Hg as [| | |p lo hi s0 Hall Hlo Hhi| | |]; subst. by split.
  - intros [Hlen Hall]. apply (fullmatch_complete re_phone s []).
    unfold re_phone. by constructor.
Qed.

Lemma split_contact_cases raw :
  (phone_like (normalize_contact_method raw) /\
   split_contact raw = ([], normalize_contact_method raw))
  \/ (~ phone_like (normalize_contact_method raw) /\
      split_contact raw = (normalize_contact_method raw, [])).
Proof.
  unfold split_contact.
  destruct (decide (is_Some (fullmatch re_phone (normalize_contact_method raw))))
    as [Hm|Hm].
  - rewrite (bool_decide_eq_true_2 _ Hm). apply fullmatch_phone in Hm.
    left. split; [done|].
    destruct (normalize_contact_method raw) as [|c0 s0]; [|done].
    destruct Hm as [Hlen _]. simpl in Hlen. lia.
  - rewrite (bool_decide_eq_false_2 _ Hm), andb_false_r.
    right. split; [|done]. intros Hp. by apply Hm, fullmatch_phone.
Qed.

(** X23.  When no influencer carries the handle (or the handle is empty)
    and the drawn id is new, [create_or_patch_influencer] appends one row
    and returns it as created.  The row has the handle as given, the handle
    without its leading [@] as display name (a fixed name when the handle is
    empty), the trimmed profile link and notes, and the normalized contact
    in exactly one column: in [contactInfo] when it is six or more digits,
    spaces and [+()-], in [contactMethod] otherwise.  A handle that is not
    empty finds the row afterwards; an empty one finds nothing. *)
Theorem new_influencer_row (now new_id : str) (d : db)
    (handle contact_raw profile_url notes : str) :
  find_influencer_by_handle d handle = None ->
  ~ In new_id (List.map inf_id (influencers d)) ->
  exists row,
    let d' := with_influencers d (influencers d ++ [row]) in
    create_or_patch_influencer now new_id d handle contact_raw profile_url notes
    = Ok (d', (row, false, true)) /\
    inf_id row = new_id /\ inf_handle row = handle /\
    inf_displayName row
    = (if bool_decide (handle = []) then unnamed else lstrip_char 64%N handle) /\
    inf_avatarData row = [] /\
    inf_profileLink row = normalize_text profile_url /\
    inf_notes row = normalize_text notes /\
    inf_createdAt row = now /\ inf_updatedAt row = now /\
    (phone_like (normalize_contact_method contact_raw) ->
     inf_contactInfo row = normalize_contact_method contact_raw /\
     inf_contactMethod row = []) /\
    (~ phone_like (normalize_contact_method contact_raw) ->
     inf_contactMethod row = normalize_contact_method contact_raw /\
     inf_contactInfo row = []) /\
    (handle <> [] -> find_influencer_by_handle d' handle = Some row) /\
    (handle = [] -> find_influencer_by_handle d' handle = None).
Proof.
  intros Hfind Hfresh. unfold create_or_patch_influencer. rewrite Hfind.
  destruct (split_contact contact_raw) as [cm ci] eqn:Hsplit.
  set (row0 := {| inf_id := new_id |}).
  rewrite (insert_row_fresh inf_id row0) by done.
  cbn [mbind result_bind bind].
  set (row := {| inf_id := new_id; inf_displayName := display_name_of handle;
                 inf_handle := handle; inf_avatarData := [];
                 inf_contactMethod := cm; inf_contactInfo := ci;
                 inf_notes := normalize_text notes;
                 inf_profileLink := normalize_text profile_url;
                 inf_createdAt := now; inf_updatedAt := now |}).
  assert (Hret :
    Ok (with_influencers d
          (if truthy (normalize_text notes)
           then update_where (has_id_inf new_id)
                  (set_influencer {["notes"%string := VText (normalize_text notes)]})
                  (influencers d ++ [row0])
           else influencers d ++ [row0]),
        (default row0
           (select_first (has_id_inf new_id)
              (if truthy (normalize_text notes)
               then update_where (has_id_inf new_id)
                      (set_influencer
                         {["notes"%string := VText (normalize_text notes)]})
                      (influencers d ++ [row0])
               else influencers d ++ [row0])), false, true))
    = (Ok (with_influencers d (influencers d ++ [row]), (row, false, true))
       : result (db * (influencer * bool * bool)))).
  { destruct (truthy (normalize_text notes)) eqn:Hnotes.
    - assert (Ht : update_where (has_id_inf new_id)
                     (set_influencer {["notes"%string := VText (normalize_text notes)]})
                     (influencers d ++ [row0]) = influencers d ++ [row]).
      { unfold update_where. rewrite List.map_app.
        change (List.map _ (influencers d))
          with (update_where (fun r => bool_decide (inf_id r = new_id))
                  (set_influencer {["notes"%string := VText (normalize_text notes)]})
                  (influencers d)).
        rewrite (update_where_fresh inf_id) by done.
        simpl. unfold has_id_inf. rewrite bool_decide_eq_true_2 by done.
        by rewrite set_notes_row. }
      rewrite Ht.
      change (has_id_inf new_id) with (fun x => bool_decide (inf_id x = inf_id row)).
      by rewrite (select_first_new inf_id).
    - assert (row0 = row) as ->.
      { subst row0 row. by destruct (normalize_text notes). }
      change (has_id_inf new_id) with (fun x => bool_decide (inf_id x = inf_id row)).
      by rewrite (select_first_new inf_id). }
  exists row. cbv zeta. split; [exact Hret|]. clear Hret.
  split; [done|]. split; [done|].
  split.
  { subst row. cbn [inf_displayName]. unfold display_name_of, unnamed.
    by destruct handle. }
  do 5 (split; [done|]).
  destruct (split_contact_cases contact_raw) as [[Hp E]|[Hp E]];
    rewrite Hsplit in E; injection E as -> ->.
  - split; [done|]. split; [done|].
    unfold find_influencer_by_handle in *. cbn [influencers with_influencers].
    split; [|by intros ->].
    intros Hne. destruct handle as [|c0 h0]; [done|].
    rewrite select_first_app, Hfind. simpl. by rewrite bool_decide_eq_true_2.
  - split; [done|]. split; [done|].
    unfold find_influencer_by_handle in *. cbn [influencers with_influencers].
    split; [|by intros ->].
    intros Hne. destruct handle as [|c0 h0]; [done|].
    rewrite select_first_app, Hfind. simpl. by rewrite bool_decide_eq_true_2.
Qed.

Lemma new_influencer_row_witness :
  exists row,
    let d' := with_influencers empty_db (influencers empty_db ++ [row]) in
    create_or_patch_influencer later (u "inf-9") empty_db (u "@linh")
      (u " 0901 234 567 ") (u "https://www.tiktok.com/@linh ") (u " vegan ")
    = Ok (d', (row, false, true)) /\
    inf_id row = u "inf-9" /\ inf_handle row = u "@linh" /\
    inf_displayName row
    = (if bool_decide (u "@linh" = []) then unnamed else lstrip_char 64%N (u "@linh")) /\
    inf_avatarData row = [] /\
    inf_profileLink row = normalize_text (u "https://www.tiktok.com/@linh ") /\
    inf_notes row = normalize_text (u " vegan ") /\
    inf_createdAt row = later /\ inf_updatedAt row = later /\
    (phone_like (normalize_contact_method (u " 0901 234 567 ")) ->
     inf_contactInfo row = normalize_contact_method (u " 0901 234 567 ") /\
     inf_contactMethod row = []) /\
    (~ phone_like (normalize_contact_method (u " 0901 234 567 ")) ->
     inf_contactMethod row = normalize_contact_method (u " 0901 234 567 ") /\
     inf_contactInfo row = []) /\
    (u "@linh" <> [] -> find_influencer_by_handle d' (u "@linh") = Some row) /\
    (u "@linh" = [] -> find_influencer_by_handle d' (u "@linh") = None).
Proof.
  apply (new_influencer_row later (u "inf-9") empty_db (u "@linh") (u " 0901 234 567 ")
           (u "https://www.tiktok.com/@linh ") (u " vegan ")).
  - vm_compute. reflexivity.
  - simpl. tauto.
Defined.

End InfluencerTheorems.
